(** * The Firefox downloader of github-action-test-firefox

    A shallow embedding of [lib/firefox-downloader.mjs]: the cache lookup,
    the archive fetch, the extraction dispatch, the disk-image extraction
    and the binary locator, together with the properties the specification
    states about them.

    Conventions of the embedding.
    - A JavaScript string is the [string] of the bytes of its UTF-8
      encoding; [Js.chars] cuts it into its characters. The patterns of the
      source have no [u] flag and name no character outside the basic
      plane, so that they match the same pieces on characters as on UTF-16
      code units.
    - The filesystem is a tree of [node]s. A path string is resolved as
      POSIX resolves it, component by component: the empty path names
      nothing, a component can only be looked up in a directory, [.] and
      the empty component stay in place and [..] goes to the parent. The
      root of the tree is the root directory and the working directory of
      the process. Symbolic links and permissions are not modelled.
    - The functions of [path] are those of POSIX. [path.join] is
      concatenation with a slash: Node also normalises the result, and
      where the concatenation leads somewhere the normalised path leads to
      the same place.
    - A computation of the source is a function from the filesystem to an
      [outcome]: a value or a thrown [Error], the filesystem afterwards and
      the list of effects performed, oldest first.
    - The collaborators the source imports (the HTTP client, tar, the
      subprocess facility, the hash and the JSON codec) are fields of an
      environment [Env]. *)

From Stdlib Require Import String Ascii List Bool Arith Lia NArith DecimalString.
Import ListNotations.
Local Open Scope string_scope.
Local Open Scope list_scope.

(** ** Strings as JavaScript uses them *)

Module Js.

(** The double quote character, used inside shell command lines. *)
Definition dq : string := String (ascii_of_nat 34) EmptyString.

Definition slash : ascii := ascii_of_nat 47.
Definition newline : ascii := ascii_of_nat 10.
Definition question : ascii := ascii_of_nat 63.

(** [String.prototype.endsWith]: the last [length suffix] characters of
    [s] are [suffix]. *)
Definition endsWith (s suffix : string) : bool :=
  let n := String.length s in
  let m := String.length suffix in
  (m <=? n)%nat && String.eqb (substring (n - m) m s) suffix.

(** [String.prototype.split] with a one-character separator; the result is
    never empty. *)
Fixpoint split (sep : ascii) (s : string) : list string :=
  match s with
  | EmptyString => [EmptyString]
  | String c rest =>
      if Ascii.eqb c sep then EmptyString :: split sep rest
      else match split sep rest with
           | h :: t => String c h :: t
           | [] => [String c EmptyString]
           end
  end.

(** Element 0 of a non-empty array of strings. *)
Definition first (l : list string) : string :=
  match l with h :: _ => h | [] => EmptyString end.

Fixpoint dropWhile {A : Type} (p : A -> bool) (l : list A) : list A :=
  match l with
  | [] => []
  | c :: rest => if p c then dropWhile p rest else l
  end.

Fixpoint takeWhile {A : Type} (p : A -> bool) (l : list A) : list A :=
  match l with
  | [] => []
  | c :: rest => if p c then c :: takeWhile p rest else []
  end.

Definition isSlash (c : ascii) : bool := Ascii.eqb c slash.

(** POSIX [path.basename]: scanning from the end, the trailing slashes are
    skipped and the characters up to the previous slash are kept. *)
Definition basename (p : string) : string :=
  let backwards := rev (list_ascii_of_string p) in
  let trimmed := dropWhile isSlash backwards in
  string_of_list_ascii (rev (takeWhile (fun c => negb (isSlash c)) trimmed)).

(** [path.join] of two arguments (see the conventions above). *)
Definition join (a b : string) : string := a ++ String slash b.

Definition join3 (a b c : string) : string := join (join a b) c.
Definition join4 (a b c d : string) : string := join (join3 a b c) d.

(** A continuation byte of UTF-8, of the form 10xxxxxx. *)
Definition isContinuation (c : ascii) : bool :=
  let n := nat_of_ascii c in ((128 <=? n) && (n <? 192))%nat.

(** A string that does not begin inside a character. *)
Definition startsChar (s : string) : bool :=
  match s with
  | EmptyString => true
  | String c _ => negb (isContinuation c)
  end.

(** The characters of a string: in UTF-8 a character is a byte and the
    continuation bytes that follow it. *)
Fixpoint chars (s : string) : list string :=
  match s with
  | EmptyString => []
  | String c rest =>
      match chars rest with
      | h :: t =>
          if startsChar rest then String c EmptyString :: h :: t
          else String c h :: t
      | [] => [String c EmptyString]
      end
  end.

(** The string of a list of characters. *)
Fixpoint text (l : list string) : string :=
  match l with
  | [] => EmptyString
  | c :: rest => c ++ text rest
  end.

(** The character of the given bytes. *)
Definition utf8 (l : list nat) : string :=
  string_of_list_ascii (map ascii_of_nat l).

(** Line terminators, which [.] does not match and at which [$] matches
    under the [m] flag: U+000A, U+000D, U+2028 and U+2029. *)
Definition lineTerminators : list string :=
  [ utf8 [10]; utf8 [13]; utf8 [226; 128; 168]; utf8 [226; 128; 169] ].

(** White space of [String.prototype.trim] and of the class [\s]: the
    line terminators, U+0009, U+000B, U+000C, U+FEFF and the space
    separators U+0020, U+00A0, U+1680, U+2000 to U+200A, U+202F, U+205F
    and U+3000. *)
Definition whiteSpace : list string :=
  lineTerminators
  ++ [ utf8 [9]; utf8 [11]; utf8 [12]; utf8 [239; 187; 191];
       utf8 [32]; utf8 [194; 160]; utf8 [225; 154; 128] ]
  ++ map (fun n => utf8 [226; 128; n]) (seq 128 11)
  ++ [ utf8 [226; 128; 175]; utf8 [226; 129; 159]; utf8 [227; 128; 128] ].

Definition isSpace (c : string) : bool := existsb (String.eqb c) whiteSpace.

Definition isLineEnd (c : string) : bool := existsb (String.eqb c) lineTerminators.

Definition trim (s : string) : string :=
  text (rev (dropWhile isSpace (rev (dropWhile isSpace (chars s))))).

(** Decimal rendering of a number inside a template literal. *)
Definition showN (n : N) : string :=
  NilEmpty.string_of_uint (N.to_uint n).

End Js.

(** ** The filesystem *)

Module Fs.

(** A directory lists its entries in the order [readdir] reports them.
    [Special] stands for an entry that is neither a regular file nor a
    directory (a FIFO, a socket, a device). *)
#[warnings="-register-all"]
Inductive node : Type :=
| File (content : string)
| Dir (entries : list (string * node))
| Special.

Definition isDirectory (t : node) : bool :=
  match t with Dir _ => true | _ => false end.

Definition isFile (t : node) : bool :=
  match t with File _ => true | _ => false end.

Definition nonEmpty (s : string) : bool :=
  match s with EmptyString => false | _ => true end.

(** The names a normalised path goes through. *)
Definition segments (p : string) : list string :=
  filter nonEmpty (Js.split Js.slash p).

(** The components of a path string, empty ones included. *)
Definition components (p : string) : list string := Js.split Js.slash p.

(** A component that names an entry of a directory. *)
Definition isName (c : string) : bool :=
  negb (String.eqb c EmptyString || String.eqb c "." || String.eqb c "..").

(** A path made of names only: it leads downwards and to one place. *)
Definition properPath (p : string) : bool := forallb isName (components p).

(** Error codes of the system calls. *)
Inductive errno : Type :=
| ENOENT
| ENOTDIR
| EISDIR
| EEXIST.

Inductive attempt (A : Type) : Type :=
| Done (a : A)
| Failed (code : errno).

Arguments Done {A} a.
Arguments Failed {A} code.

Fixpoint entry (name : string) (es : list (string * node)) : option node :=
  match es with
  | [] => None
  | (n, c) :: rest => if String.eqb n name then Some c else entry name rest
  end.

Fixpoint walk (segs : list string) (t : node) : option node :=
  match segs with
  | [] => Some t
  | s :: rest =>
      match t with
      | Dir es => match entry s es with
                  | Some c => walk rest c
                  | None => None
                  end
      | _ => None
      end
  end.

(** Path resolution from the directory at the names [here], counted from
    the root [t]: what is left of the path is followed component by
    component, and every component is looked at in a directory. The parent
    of the root is the root. *)
Fixpoint resolve (t : node) (here : list string) (comps : list string)
  : attempt (list string) :=
  match comps with
  | [] => Done here
  | c :: rest =>
      match walk here t with
      | Some (Dir entries) =>
          if isName c then
            match entry c entries with
            | Some _ => resolve t (here ++ [c]) rest
            | None => Failed ENOENT
            end
          else if String.eqb c ".." then resolve t (removelast here) rest
          else resolve t here rest
      | Some _ => Failed ENOTDIR
      | None => Failed ENOENT
      end
  end.

(** Where a path string leads: the names from the root to the entry it
    denotes. The empty path denotes nothing. *)
Definition locate (p : string) (t : node) : attempt (list string) :=
  if nonEmpty p then resolve t [] (components p) else Failed ENOENT.

(** The node a path string denotes, resolved from [t]. *)
Definition lookup (p : string) (t : node) : option node :=
  match locate p t with
  | Done names => walk names t
  | Failed _ => None
  end.

(** [t'] has the directories of [t] and, in each, at least its entries. *)
Definition grows (t t' : node) : Prop :=
  forall names es,
    walk names t = Some (Dir es) ->
    exists es',
      walk names t' = Some (Dir es')
      /\ forall c, entry c es <> None -> entry c es' <> None.

(** The error code of a path that denotes nothing. *)
Definition failure (p : string) (t : node) : errno :=
  match locate p t with
  | Failed code => code
  | Done _ => ENOENT
  end.

Definition isSome {A : Type} (o : option A) : bool :=
  match o with Some _ => true | None => false end.

Definition present (p : string) (t : node) : bool := isSome (lookup p t).

Fixpoint setEntry (name : string) (c : node) (es : list (string * node))
  : list (string * node) :=
  match es with
  | [] => [(name, c)]
  | (n, c0) :: rest =>
      if String.eqb n name then (n, c) :: rest
      else (n, c0) :: setEntry name c rest
  end.

(** Store [new] at names whose parent directories exist. *)
Fixpoint put (segs : list string) (new : node) (t : node) : option node :=
  match segs with
  | [] => Some new
  | s :: rest =>
      match t with
      | Dir es =>
          match rest with
          | [] => Some (Dir (setEntry s new es))
          | _ :: _ =>
              match entry s es with
              | Some c =>
                  match put rest new c with
                  | Some c' => Some (Dir (setEntry s c' es))
                  | None => None
                  end
              | None => None
              end
          end
      | _ => None
      end
  end.

(** Where [open] with [O_CREAT] puts a file: at the entry the path
    denotes or, when it denotes none, under the directory its parent
    denotes, if the last component is a name. *)
Definition target (p : string) (t : node) : attempt (list string) :=
  match locate p t with
  | Done names => Done names
  | Failed code =>
      match resolve t [] (removelast (components p)) with
      | Done parent =>
          match walk parent t with
          | Some (Dir _) =>
              if isName (last (components p) EmptyString)
              then Done (parent ++ [last (components p) EmptyString])
              else Failed code
          | Some _ => Failed ENOTDIR
          | None => Failed ENOENT
          end
      | Failed code' => Failed code'
      end
  end.

(** [mkdir] with [recursive]: the path is followed as in [resolve], a name
    that is missing is created as a directory, and the entry arrived at has
    to be a directory. An empty component asks for nothing. *)
Fixpoint mkdirAll (t : node) (here : list string) (comps : list string)
  : attempt node :=
  match comps with
  | [] =>
      match walk here t with
      | Some (Dir _) => Done t
      | Some _ => Failed EEXIST
      | None => Failed ENOENT
      end
  | c :: rest =>
      if String.eqb c EmptyString then mkdirAll t here rest
      else
        match walk here t with
        | Some (Dir entries) =>
            if isName c then
              match entry c entries with
              | Some _ => mkdirAll t (here ++ [c]) rest
              | None =>
                  match put (here ++ [c]) (Dir []) t with
                  | Some t' => mkdirAll t' (here ++ [c]) rest
                  | None => Failed ENOENT
                  end
              end
            else if String.eqb c ".." then mkdirAll t (removelast here) rest
            else mkdirAll t here rest
        | Some _ => Failed ENOTDIR
        | None => Failed ENOENT
        end
  end.

Definition mkdirp (p : string) (t : node) : attempt node :=
  if nonEmpty p then mkdirAll t [] (components p) else Failed ENOENT.

End Fs.

Import Fs.

(** ** Values, errors and effects *)

(** [process.platform]. *)
Inductive Platform : Type :=
| darwin
| linux
| otherPlatform (name : string).

(** What [JSON.parse] returns; a number keeps its literal. *)
#[warnings="-register-all"]
Inductive json : Type :=
| JNull
| JBool (b : bool)
| JNum (literal : string)
| JStr (s : string)
| JArr (items : list json)
| JObj (fields : list (string * json)).

(** A JavaScript [Error]; the source reads nothing but its message. *)
Inductive exn : Type :=
| Error (message : string).

Definition message (e : exn) : string :=
  match e with Error m => m end.

(** The error Node throws for a failed system call. *)
Definition describe (code : errno) : string :=
  match code with
  | ENOENT => "ENOENT: no such file or directory"
  | ENOTDIR => "ENOTDIR: not a directory"
  | EISDIR => "EISDIR: illegal operation on a directory"
  | EEXIST => "EEXIST: file already exists"
  end.

Definition sysError (code : errno) (syscall p : string) : exn :=
  Error (describe code ++ ", " ++ syscall ++ " '" ++ p ++ "'").

Inductive result (A : Type) : Type :=
| Ok (a : A)
| Throw (e : exn).

Arguments Ok {A} a.
Arguments Throw {A} e.

(** The effects of a run. Reading the filesystem leaves no event. *)
Inductive event : Type :=
| EMkdir (path : string)
| EFetch (url : string)
| EPipeline (path : string)
| ETarExtract (file cwd : string)
| EExec (command : string)
| EChmod (path : string)
| EWriteFile (path content : string)
| ELog (text : string)
| EWarn (text : string).

(** An HTTP response of node-fetch; [ok] is its getter. *)
Record Response : Type := mkResponse {
  status : N;
  statusText : string;
  body : string
}.

Definition ok (r : Response) : bool :=
  ((200 <=? status r) && (status r <? 300))%N.

(** The collaborators of the downloader. [tar_extract] and [exec] act on
    the filesystem and may leave it changed even when they fail. *)
Record Env : Type := mkEnv {
  platform : Platform;
  tmpdir : string;
  md5hex : string -> string;
  JSON_parse : string -> result json;
  JSON_stringify : json -> string;
  fetch : string -> result Response;
  tar_extract : string -> string -> node -> result unit * node;
  exec : string -> node -> result string * node
}.

(** ** Computations *)

Record outcome (A : Type) : Type := Outcome {
  res : result A;
  fs_after : node;
  events : list event
}.

Arguments Outcome {A} res fs_after events.
Arguments res {A} o.
Arguments fs_after {A} o.
Arguments events {A} o.

Definition M (A : Type) : Type := node -> outcome A.

Definition ret {A : Type} (a : A) : M A :=
  fun fs => Outcome (Ok a) fs [].

Definition throw {A : Type} (e : exn) : M A :=
  fun fs => Outcome (Throw e) fs [].

Definition bind {A B : Type} (m : M A) (f : A -> M B) : M B :=
  fun fs =>
    match m fs with
    | Outcome (Ok a) fs1 ev1 =>
        match f a fs1 with
        | Outcome r fs2 ev2 => Outcome r fs2 (ev1 ++ ev2)
        end
    | Outcome (Throw e) fs1 ev1 => Outcome (Throw e) fs1 ev1
    end.

(** [try { m } catch (err) { h err }]. *)
Definition tryCatch {A : Type} (m : M A) (h : exn -> M A) : M A :=
  fun fs =>
    match m fs with
    | Outcome (Ok a) fs1 ev1 => Outcome (Ok a) fs1 ev1
    | Outcome (Throw e) fs1 ev1 =>
        match h e fs1 with
        | Outcome r fs2 ev2 => Outcome r fs2 (ev1 ++ ev2)
        end
    end.

(** [try { m } finally { f }]: [f] runs on every exit of [m]; an error of
    [f] replaces the completion of [m]. *)
Definition tryFinally {A : Type} (m : M A) (f : M unit) : M A :=
  fun fs =>
    match m fs with
    | Outcome r fs1 ev1 =>
        match f fs1 with
        | Outcome (Ok _) fs2 ev2 => Outcome r fs2 (ev1 ++ ev2)
        | Outcome (Throw e) fs2 ev2 => Outcome (Throw e) fs2 (ev1 ++ ev2)
        end
    end.

Definition emit (e : event) : M unit :=
  fun fs => Outcome (Ok tt) fs [e].

Definition liftResult {A : Type} (r : result A) : M A :=
  fun fs => Outcome r fs [].

Notation "x <- m ;; k" := (bind m (fun x => k))
  (at level 61, m at next level, right associativity).
Notation "m ;; k" := (bind m (fun _ => k))
  (at level 61, right associativity).

(** ** Filesystem calls of the source *)

Definition existsSync (p : string) : M bool :=
  fun fs => Outcome (Ok (present p fs)) fs [].

(** [mkdirSync(p, { recursive: true })]. *)
Definition mkdirSync (p : string) : M unit :=
  fun fs =>
    match mkdirp p fs with
    | Done fs' => Outcome (Ok tt) fs' [EMkdir p]
    | Failed code => Outcome (Throw (sysError code "mkdir" p)) fs [EMkdir p]
    end.

Definition readFileSync (p : string) : M string :=
  fun fs =>
    match lookup p fs with
    | Some (File text) => Outcome (Ok text) fs []
    | Some _ =>
        Outcome (Throw (Error "EISDIR: illegal operation on a directory, read")) fs []
    | None => Outcome (Throw (sysError (failure p fs) "open" p)) fs []
    end.

(** Create or replace the regular file at [p]. *)
Definition store (p content : string) (fs : node) : result unit * node :=
  match lookup p fs with
  | Some (Dir _) | Some Special => (Throw (sysError EISDIR "open" p), fs)
  | _ =>
      match target p fs with
      | Done names =>
          match put names (File content) fs with
          | Some fs' => (Ok tt, fs')
          | None => (Throw (sysError ENOENT "open" p), fs)
          end
      | Failed code => (Throw (sysError code "open" p), fs)
      end
  end.

Definition writeFileSync (p content : string) : M unit :=
  fun fs => let (r, fs') := store p content fs in Outcome r fs' [EWriteFile p content].

(** [pipeline(response.body, createWriteStream(p))]. *)
Definition pipelineTo (p content : string) : M unit :=
  fun fs => let (r, fs') := store p content fs in Outcome r fs' [EPipeline p].

Definition chmodSync (p : string) : M unit :=
  fun fs =>
    if present p fs then Outcome (Ok tt) fs [EChmod p]
    else Outcome (Throw (sysError (failure p fs) "chmod" p)) fs [EChmod p].

(** ** The binary locator (lines 128-221)

    [findIn extractDir here] is [findFirefoxBinary(extractDir)] where [here]
    is the node [extractDir] denotes: for the paths [p] the source asks
    for, which are made of names, [existsSync(join(extractDir, p))] is
    [present p here] (see [lookup_join] below), and [readdir(extractDir)]
    lists the entries of [here]. The result comes with the warnings printed
    on the way. *)

Definition found : Type := (option string * list event)%type.

Definition notFound : found := (None, []).

(** A [for ... of] loop whose body returns from the function at the first
    hit. *)
Definition firstFound {A : Type} (f : A -> found) : list A -> found :=
  fix go (l : list A) : found :=
    match l with
    | [] => notFound
    | a :: rest =>
        match f a with
        | (Some p, ev) => (Some p, ev)
        | (None, ev) =>
            match go rest with
            | (r, ev') => (r, ev ++ ev')
            end
        end
    end.

Definition scandirError (p : string) : string :=
  "ENOTDIR: not a directory, scandir '" ++ p ++ "'".

Definition executableNames : list string :=
  [ "firefox";
    "firefox-bin";
    "Firefox Nightly";
    "Firefox Developer Edition";
    "Firefox" ].

(** Lines 142-174, the body of the loop over the [.app] bundles. *)
Definition searchBundle (extractDir : string) (here : node)
  (appBundle : string * node) : found :=
  let inBundle := Js.join3 (fst appBundle) "Contents" "MacOS" in
  let macOSDir := Js.join extractDir inBundle in
  match lookup inBundle here with
  | None => notFound
  | Some macOS =>
      match find (fun execName => present execName macOS) executableNames with
      | Some execName => (Some (Js.join macOSDir execName), [])
      | None =>
          match macOS with
          | Dir macOSEntries =>
              match find (fun e => isFile (snd e)) macOSEntries with
              | Some e => (Some (Js.join macOSDir (fst e)), [])
              | None => notFound
              end
          | _ =>
              (None, [EWarn ("Error reading MacOS directory: " ++ scandirError macOSDir)])
          end
      end
  end.

Definition isAppBundle (e : string * node) : bool :=
  isDirectory (snd e) && Js.endsWith (fst e) ".app".

(** Lines 141-175: the bundles of one directory, in [readdir] order. *)
Definition bundleRule (extractDir : string) (here : node) : found :=
  match here with
  | Dir entries => firstFound (searchBundle extractDir here) (filter isAppBundle entries)
  | _ => notFound
  end.

Definition linuxPaths : list string :=
  [ Js.join "firefox" "firefox"; Js.join "firefox" "firefox-bin" ].

(** Lines 192-203. *)
Definition linuxRule (extractDir : string) (here : node) : option string :=
  match find (fun p => present p here) linuxPaths with
  | Some p => Some (Js.join extractDir p)
  | None => None
  end.

Section Locator.

Variable plat : Platform.

(** The recursive calls of one level, [self] being [findFirefoxBinary]. *)
Section Level.

Variable self : string -> node -> found.
Variable extractDir : string.
Variable here : node.

(** Lines 177-185. *)
Definition nestedSearch (entries : list (string * node)) : found :=
  firstFound
    (fun e =>
       if isDirectory (snd e) && negb (Js.endsWith (fst e) ".app")
       then self (Js.join extractDir (fst e)) (snd e)
       else notFound)
    entries.

(** Lines 132-189. *)
Definition darwinBlock : found :=
  match plat with
  | darwin =>
      match here with
      | Dir entries =>
          match bundleRule extractDir here with
          | (Some p, ev) => (Some p, ev)
          | (None, ev) =>
              match nestedSearch entries with
              | (r, ev') => (r, ev ++ ev')
              end
          end
      | _ =>
          (None, [EWarn ("Error searching for .app bundles: " ++ scandirError extractDir)])
      end
  | _ => notFound
  end.

(** Lines 192-203. *)
Definition linuxBlock : option string :=
  match plat with
  | linux => linuxRule extractDir here
  | _ => None
  end.

(** Lines 205-218. *)
Definition fallback : found :=
  match here with
  | Dir entries =>
      firstFound
        (fun e =>
           if isDirectory (snd e)
           then self (Js.join extractDir (fst e)) (snd e)
           else notFound)
        entries
  | _ =>
      (None, [EWarn ("Error searching for Firefox binary: " ++ scandirError extractDir)])
  end.

(** The body of [findFirefoxBinary]. *)
Definition findBody : found :=
  match darwinBlock with
  | (Some p, ev) => (Some p, ev)
  | (None, ev) =>
      match linuxBlock with
      | Some p => (Some p, ev)
      | None =>
          match fallback with
          | (r, ev') => (r, ev ++ ev')
          end
      end
  end.

End Level.

Fixpoint findIn (extractDir : string) (here : node) {struct here} : found :=
  findBody findIn extractDir here.

End Locator.

(** ** Pattern matches of the source *)

Definition restOfLine (s : string) : string :=
  Js.text (Js.takeWhile (fun c => negb (Js.isLineEnd c)) (Js.chars s)).

(** [attachOutput.match(/\/Volumes\/.+$/m)], element 0 of the match: the
    leftmost [/Volumes/] followed by a character of the same line, up to the
    end of that line. *)
Fixpoint matchVolumes (s : string) : option string :=
  match s with
  | EmptyString => None
  | String _ rest =>
      if prefix "/Volumes/" s then
        match restOfLine (substring 9 (String.length s - 9) s) with
        | EmptyString => matchVolumes rest
        | line => Some ("/Volumes/" ++ line)%string
        end
      else matchVolumes rest
  end.

(** [stdout.match(/Firefox\s+(\S+)/)], group 1 of the match. *)
Fixpoint matchVersion (s : string) : option string :=
  match s with
  | EmptyString => None
  | String _ rest =>
      if prefix "Firefox" s then
        let after := Js.chars (substring 7 (String.length s - 7) s) in
        match after with
        | c :: _ =>
            if Js.isSpace c then
              match Js.takeWhile (fun c => negb (Js.isSpace c)) (Js.dropWhile Js.isSpace after) with
              | [] => matchVersion rest
              | token => Some (Js.text token)
              end
            else matchVersion rest
        | [] => matchVersion rest
        end
      else matchVersion rest
  end.

(** ** The downloader *)

Section Downloader.

Variable env : Env.

Definition fetchUrl (url : string) : M Response :=
  fun fs => Outcome (fetch env url) fs [EFetch url].

(** [tar.extract({ file, cwd })]. *)
Definition tarExtract (file cwd : string) : M unit :=
  fun fs =>
    match tar_extract env file cwd fs with
    | (r, fs') => Outcome r fs' [ETarExtract file cwd]
    end.

Definition execAsync (command : string) : M string :=
  fun fs =>
    match exec env command fs with
    | (r, fs') => Outcome r fs' [EExec command]
    end.

Definition quoted (s : string) : string := Js.dq ++ s ++ Js.dq.

Definition attachCommand (dmgPath : string) : string :=
  "hdiutil attach " ++ quoted dmgPath ++ " -nobrowse -noautoopen".

Definition lsCommand (mountPoint : string) : string :=
  "ls " ++ quoted mountPoint.

Definition copyCommand (mountPoint appBundle extractDir : string) : string :=
  "cp -R " ++ quoted (mountPoint ++ "/" ++ appBundle) ++ " " ++ quoted (extractDir ++ "/").

Definition detachCommand (mountPoint : string) : string :=
  "hdiutil detach " ++ quoted mountPoint.

(** Lines 253-264, the guarded block of [extractDmg]. *)
Definition copyBundle (mountPoint extractDir : string) : M unit :=
  lsOutput <- execAsync (lsCommand mountPoint) ;;
  match find (fun name => Js.endsWith name ".app") (Js.split Js.newline lsOutput) with
  | None => throw (Error "Could not find .app bundle in mounted DMG")
  | Some appBundle =>
      emit (ELog ("Found app bundle: " ++ appBundle)) ;;
      emit (ELog ("Copying " ++ appBundle ++ "...")) ;;
      execAsync (copyCommand mountPoint appBundle extractDir) ;;
      emit (ELog (appBundle ++ " copied successfully"))
  end.

(** Lines 266-273, the [finally] block of [extractDmg]. *)
Definition unmount (mountPoint : string) : M unit :=
  emit (ELog "Unmounting DMG...") ;;
  tryCatch
    (execAsync (detachCommand mountPoint) ;;
     emit (ELog "DMG unmounted"))
    (fun err => emit (EWarn ("Warning: Failed to unmount DMG: " ++ message err))).

(** Lines 231-275. *)
Definition extractDmg (dmgPath extractDir : string) : M unit :=
  emit (ELog "Mounting DMG...") ;;
  attachOutput <- execAsync (attachCommand dmgPath) ;;
  match matchVolumes attachOutput with
  | None => throw (Error "Could not determine DMG mount point")
  | Some mountMatch =>
      let mountPoint := Js.trim mountMatch in
      emit (ELog ("Mounted at: " ++ mountPoint)) ;;
      tryFinally (copyBundle mountPoint extractDir) (unmount mountPoint)
  end.

(** Lines 283-296. *)
Definition getFirefoxVersion (binaryPath : string) : M (option string) :=
  tryCatch
    (stdout <- execAsync (quoted binaryPath ++ " --version") ;;
     ret (matchVersion stdout))
    (fun err =>
       emit (EWarn ("Could not determine Firefox version: " ++ message err)) ;;
       ret None).

(** What the locator finds at [extractDir]. *)
Definition extractionTree (extractDir : string) (fs : node) : node :=
  match lookup extractDir fs with
  | Some here => here
  | None => Special
  end.

(** [findFirefoxBinary(extractDir)] on the filesystem of the run. A missing
    [extractDir] fails every [readdir] and every [existsSync], as an entry
    that is no directory does (the warning then carries that error text). *)
Definition findFirefoxBinary (extractDir : string) : M (option string) :=
  fun fs =>
    match findIn (platform env) extractDir (extractionTree extractDir fs) with
    | (r, ev) => Outcome (Ok r) fs ev
    end.

(** [options]: an absent field takes its default (line 20). *)
Record Options : Type := mkOptions {
  cacheDir : option string;
  forceDownload : option bool
}.

Definition cacheDirOf (options : Options) : string :=
  match cacheDir options with
  | Some d => d
  | None => Js.join (tmpdir env) "firefox-downloads"
  end.

Definition forceDownloadOf (options : Options) : bool :=
  match forceDownload options with
  | Some b => b
  | None => false
  end.

(** Line 28. *)
Definition urlHashOf (url : string) : string := md5hex env url.

(** Line 29. *)
Definition cacheFileOf (url : string) (options : Options) : string :=
  Js.join (cacheDirOf options) (urlHashOf url ++ ".json").

(** Line 47. *)
Definition archiveName (url : string) : string :=
  Js.first (Js.split Js.question (Js.basename url)).

(** Line 48. *)
Definition downloadPathOf (url : string) (options : Options) : string :=
  Js.join (cacheDirOf options) (archiveName url).

(** Line 63. *)
Definition extractDirOf (url : string) (options : Options) : string :=
  Js.join (cacheDirOf options) ("firefox-" ++ urlHashOf url).

(** Lines 23-25 and 64-66. *)
Definition ensureDir (dir : string) : M unit :=
  exists_ <- existsSync dir ;;
  if negb exists_ then mkdirSync dir else ret tt.

(** [cached.binaryPath]: reading a property of [null] throws, a property a
    value does not have is [undefined]. *)
Definition getProp (v : json) (key : string) : result (option json) :=
  match v with
  | JNull =>
      Throw (Error ("Cannot read properties of null (reading '" ++ key ++ "')"))
  | JObj fields =>
      Ok (match find (fun f => String.eqb (fst f) key) fields with
          | Some f => Some (snd f)
          | None => None
          end)
  | _ => Ok None
  end.

(** Lines 32-42. [Some cached] is the early [return cached]. [existsSync] of
    a value that is not a string is [false]. *)
Definition readCache (cacheFile : string) (force : bool) : M (option json) :=
  hasFile <- (if negb force then existsSync cacheFile else ret false) ;;
  if hasFile then
    tryCatch
      (text <- readFileSync cacheFile ;;
       cached <- liftResult (JSON_parse env text) ;;
       binaryPath <- liftResult (getProp cached "binaryPath") ;;
       match binaryPath with
       | Some (JStr p) =>
           exists_ <- existsSync p ;;
           if exists_ then
             emit (ELog ("Using cached Firefox binary from: " ++ p)) ;;
             ret (Some cached)
           else ret None
       | _ => ret None
       end)
      (fun err =>
         emit (EWarn ("Failed to read cache file, re-downloading... " ++ message err)) ;;
         ret None)
  else ret None.

(** Lines 50-60. *)
Definition fetchArchive (url downloadPath : string) : M unit :=
  tryCatch
    (response <- fetchUrl url ;;
     (if negb (ok response) then
        throw (Error ("Failed to download Firefox: " ++ Js.showN (status response)
                      ++ " " ++ statusText response))
      else ret tt) ;;
     pipelineTo downloadPath (body response) ;;
     emit (ELog ("Downloaded to: " ++ downloadPath)))
    (fun err =>
       throw (Error ("Failed to download Firefox from " ++ url ++ ": " ++ message err))).

(** Lines 70-89. *)
Definition extractArchive (downloadPath extractDir : string) : M unit :=
  tryCatch
    (if Js.endsWith downloadPath ".tar.bz2" then
       tarExtract downloadPath extractDir
     else if Js.endsWith downloadPath ".tar.gz" then
       tarExtract downloadPath extractDir
     else if Js.endsWith downloadPath ".dmg" then
       extractDmg downloadPath extractDir
     else
       throw (Error ("Unsupported archive format: " ++ downloadPath)))
    (fun err =>
       throw (Error ("Failed to extract Firefox archive: " ++ message err))).

Definition resultRecord (binaryPath version extractDir : string) : json :=
  JObj [ ("binaryPath", JStr binaryPath);
         ("version", JStr version);
         ("extractPath", JStr extractDir) ].

(** Lines 91-118. *)
Definition locateAndRecord (extractDir cacheFile : string) : M json :=
  located <- findFirefoxBinary extractDir ;;
  match located with
  | None =>
      throw (Error ("Could not find Firefox binary in extracted archive at " ++ extractDir))
  | Some binaryPath =>
      tryCatch (chmodSync binaryPath)
        (fun err =>
           emit (EWarn ("Warning: Failed to make binary executable: " ++ message err))) ;;
      probed <- getFirefoxVersion binaryPath ;;
      let version := match probed with Some v => v | None => "unknown" end in
      let result := resultRecord binaryPath version extractDir in
      writeFileSync cacheFile (JSON_stringify env result) ;;
      emit (ELog ("Firefox binary ready at: " ++ binaryPath)) ;;
      ret result
  end.

(** Lines 44-89: the download and the extraction of a cache miss. *)
Definition fetchAndExtract (url : string) (options : Options) : M unit :=
  emit (ELog ("Downloading Firefox from: " ++ url)) ;;
  fetchArchive url (downloadPathOf url options) ;;
  ensureDir (extractDirOf url options) ;;
  emit (ELog ("Extracting to: " ++ extractDirOf url options)) ;;
  extractArchive (downloadPathOf url options) (extractDirOf url options).

(** Lines 44-118. *)
Definition freshDownload (url : string) (options : Options) : M json :=
  fetchAndExtract url options ;;
  locateAndRecord (extractDirOf url options) (cacheFileOf url options).

(** Lines 19-119. *)
Definition downloadFirefox (url : string) (options : Options) : M json :=
  ensureDir (cacheDirOf options) ;;
  cached <- readCache (cacheFileOf url options) (forceDownloadOf options) ;;
  match cached with
  | Some hit => ret hit
  | None => freshDownload url options
  end.

(** The run up to the locator: [Some hit] when the cache answered, [None]
    when an archive was fetched and extracted. *)
Definition untilLocator (url : string) (options : Options) : M (option json) :=
  ensureDir (cacheDirOf options) ;;
  cached <- readCache (cacheFileOf url options) (forceDownloadOf options) ;;
  match cached with
  | Some hit => ret (Some hit)
  | None => fetchAndExtract url options ;; ret None
  end.

End Downloader.

(** ** Notions the properties are stated with *)

(** The rule one directory is checked against, without the recursive calls:
    the bundle search on macOS, the two fixed paths on Linux, nothing
    elsewhere. *)
Definition localRule (plat : Platform) (dir : string) (here : node) : option string :=
  match plat with
  | darwin => fst (bundleRule dir here)
  | linux => linuxRule dir here
  | otherPlatform _ => None
  end.

(** The platform-specific part of one call, lines 132-203. *)
Definition platformChecks (plat : Platform) (dir : string) (here : node)
  : option string :=
  match darwinBlock plat (findIn plat) dir here with
  | (Some p, _) => Some p
  | (None, _) => linuxBlock plat dir here
  end.

(** Every directory of a tree with its path, at any depth, parents first. *)
Fixpoint allDirs (dir : string) (t : node) {struct t} : list (string * node) :=
  match t with
  | Dir entries =>
      (dir, t) :: flat_map (fun e => allDirs (Js.join dir (fst e)) (snd e)) entries
  | _ => []
  end.

(** The path reached from [dir] through the names of nested entries. *)
Definition descend (dir : string) (names : list string) : string :=
  fold_left Js.join names dir.

(** No directory of the tree satisfies the rule of the platform. *)
Definition noMatch (plat : Platform) (dir : string) (t : node) : bool :=
  forallb (fun x => negb (isSome (localRule plat (fst x) (snd x)))) (allDirs dir t).

Fixpoint firstSome (l : list (option string)) : option string :=
  match l with
  | [] => None
  | Some p :: _ => Some p
  | None :: rest => firstSome rest
  end.

(** The search of the subdirectories of a directory, one after the other. *)
Definition searchChildren (plat : Platform) (dir : string)
  (entries : list (string * node)) : list (option string) :=
  map (fun e =>
         if isDirectory (snd e)
         then fst (findIn plat (Js.join dir (fst e)) (snd e))
         else None)
      entries.

(** The events that write a file. *)
Definition writesFile (e : event) : bool :=
  match e with
  | EWriteFile _ _ | EPipeline _ => true
  | _ => false
  end.

(** The events that extract an archive. *)
Definition extracts (e : event) : bool :=
  match e with
  | ETarExtract _ _ | EExec _ => true
  | _ => false
  end.

(** The events of the network, of extraction and of writing. *)
Definition fetchesOrWrites (e : event) : bool :=
  match e with
  | EFetch _ | ETarExtract _ _ | EExec _ | EWriteFile _ _ | EPipeline _ => true
  | _ => false
  end.

(** The specification's words for the name of the downloaded file: the last
    path segment of the URL, the query string stripped. *)
Definition lastPathSegment (url : string) : string :=
  last (Js.split Js.slash (Js.first (Js.split Js.question url))) EmptyString.

(** The specification's words for the two tarball formats: one tar
    extraction of the archive into the extraction directory, an error of
    which is reported as an extraction failure. *)
Definition tarAction (env : Env) (file cwd : string) : M unit :=
  tryCatch (tarExtract env file cwd)
    (fun err => throw (Error ("Failed to extract Firefox archive: " ++ message err))).

Definition notSlash (c : ascii) : bool := negb (Js.isSlash c).

(** The last segment of a list of characters, read from the end. *)
Definition lastSegment (l : list ascii) : list ascii :=
  rev (Js.takeWhile notSlash (rev l)).

(** A character does not occur in a string. *)
Fixpoint lacks (c : ascii) (s : string) : bool :=
  match s with
  | EmptyString => true
  | String a rest => negb (Ascii.eqb a c) && lacks c rest
  end.

(** Every event of a computation, from every filesystem, satisfies [P]. *)
Definition emitsOnly {A : Type} (P : event -> Prop) (m : M A) : Prop :=
  forall fs, Forall P (events (m fs)).

(** A computation leaves every filesystem as it found it. *)
Definition keepsFs {A : Type} (m : M A) : Prop :=
  forall fs, fs_after (m fs) = fs.

(** The events that leave the machine as it is, up to created directories
    and console output. *)
Definition harmless (e : event) : Prop := fetchesOrWrites e = false.

(** An event that is no call of [writeFileSync]. *)
Definition notWriteFile (e : event) : Prop :=
  match e with EWriteFile _ _ => False | _ => True end.

(** The error of a refused download, lines 53 and 59. *)
Definition refusal (url : string) (response : Response) : exn :=
  Error ("Failed to download Firefox from " ++ url
         ++ ": Failed to download Firefox: " ++ Js.showN (status response)
         ++ " " ++ statusText response).

(** ** Sample runs

    A small environment and a few disks on which the properties are
    exercised. *)

Module Sample.

Definition url : string := "https://example.org/pub/firefox-147.0.tar.bz2".

Definition urlHash : string := "5d41402abc4b2a76b9719d911017c592".

Definition defaults : Options := mkOptions None None.

(** A compact rendering of a record of strings. *)
Fixpoint renderFields (fields : list (string * json)) : string :=
  match fields with
  | [] => EmptyString
  | (key, JStr value) :: rest =>
      Js.dq ++ key ++ Js.dq ++ ":" ++ Js.dq ++ value ++ Js.dq ++ ";" ++ renderFields rest
  | (key, _) :: rest => Js.dq ++ key ++ Js.dq ++ ":null;" ++ renderFields rest
  end.

Definition render (v : json) : string :=
  match v with
  | JObj fields => "{" ++ renderFields fields ++ "}"
  | _ => "null"
  end.

Definition extractDir : string := "/tmp/firefox-downloads/firefox-5d41402abc4b2a76b9719d911017c592".

Definition binaryPath : string := (extractDir ++ "/firefox/firefox")%string.

Definition record : json := resultRecord binaryPath "147.0" extractDir.

Definition parse (text : string) : result json :=
  if String.eqb text (render record) then Ok record
  else Throw (Error "Unexpected token in JSON").

Definition attachOutput : string :=
  "/dev/disk4s2  Apple_HFS  /Volumes/Firefox Nightly".

(** A tar archive that holds one text file, and a disk image whose copy
    fails. *)
Definition env (plat : Platform) (response : Response) : Env :=
  mkEnv plat "/tmp" (fun _ => urlHash) parse render
    (fun _ => Ok response)
    (fun _ cwd fs =>
       match put (segments (Js.join cwd "README.txt")) (File "no browser here") fs with
       | Some fs' => (Ok tt, fs')
       | None => (Throw (Error "TAR_BAD_ARCHIVE: Unrecognized archive format"), fs)
       end)
    (fun command fs =>
       if String.eqb command (attachCommand "/tmp/firefox-downloads/Firefox.dmg")
       then (Ok attachOutput, fs)
       else if String.eqb command (lsCommand "/Volumes/Firefox Nightly")
       then (Ok "Firefox Nightly.app", fs)
       else (Throw (Error "Command failed"), fs)).

Definition found200 : Response := mkResponse 200 "OK" "archive bytes".
Definition notFound404 : Response := mkResponse 404 "Not Found" "gone".

Definition emptyDisk : node := Dir [].

Definition browserTree : node := Dir [("firefox", Dir [("firefox", File "ELF")])].

(** The cache directory after a successful run. *)
Definition warmDisk : node :=
  Dir [("tmp", Dir [("firefox-downloads",
         Dir [ ((urlHash ++ ".json")%string, File (render record));
               (("firefox-" ++ urlHash)%string, browserTree) ])])].

(** The same with the extraction directory removed. *)
Definition staleDisk : node :=
  Dir [("tmp", Dir [("firefox-downloads",
         Dir [ ((urlHash ++ ".json")%string, File (render record)) ])])].

(** A tree with the binary three levels down. *)
Definition deepTree : list (string * node) :=
  [ ("docs", Dir [("index.html", File "<html>")]);
    ("build", Dir [("out", browserTree)]) ].

Definition trickyUrl : string :=
  "https://example.org/builds/firefox.tar.bz2?mirror=https://cdn.example.org/pub".

End Sample.

(** ** Well-formed trees

    A directory of a real filesystem has no two entries of one name, and
    the name of an entry is not empty, is not [.] or [..] and has no
    slash. *)

Definition plainName (name : string) : bool :=
  isName name && lacks Js.slash name.

Fixpoint uniqueNames (names : list string) : bool :=
  match names with
  | [] => true
  | name :: rest => negb (existsb (String.eqb name) rest) && uniqueNames rest
  end.

Fixpoint wellFormed (t : node) {struct t} : bool :=
  match t with
  | Dir entries =>
      forallb plainName (map fst entries)
      && uniqueNames (map fst entries)
      && forallb (fun e => wellFormed (snd e)) entries
  | _ => true
  end.

(** The command of the version probe, line 289. *)
Definition versionCommand (binaryPath : string) : string :=
  (quoted binaryPath ++ " --version")%string.

(** What line 106 makes of the outcome of the probe command: group 1 of
    the match in its output, [unknown] when the command fails or its
    output does not match. *)
Definition versionRead (probe : result string) : string :=
  match probe with
  | Ok stdout =>
      match matchVersion stdout with
      | Some version => version
      | None => "unknown"
      end
  | Throw _ => "unknown"
  end.

(** A value that is a string. *)
Definition isString (v : option json) : bool :=
  match v with Some (JStr _) => true | _ => false end.

(** The kinds of error a cache miss can end in. *)
Definition downloadFailure (url : string) (e : exn) : Prop :=
  exists m, e = Error ("Failed to download Firefox from " ++ url ++ ": " ++ m).

Definition extractionFailure (e : exn) : Prop :=
  exists m, e = Error ("Failed to extract Firefox archive: " ++ m).

Definition binaryNotFound (extractDir : string) (e : exn) : Prop :=
  e = Error ("Could not find Firefox binary in extracted archive at " ++ extractDir).

(** Where a run of characters stops: at the end or before a character
    [p] refuses. *)
Definition stopsAt (p : string -> bool) (l : list string) : Prop :=
  l = [] \/ exists c rest, l = c :: rest /\ p c = false.

(** ** The command line ([download-firefox-cli.mjs])

    [console.error] writes where [console.warn] writes and is an [EWarn];
    a write with the flag [a] is an [EWriteFile] of the appended text. *)

Module Cli.

(** What the script reads of its process; [numberText] is the text
    JavaScript prints for the number a literal denotes. *)
Record Runtime : Type := mkRuntime {
  argv : list string;
  environ : string -> option string;
  cwd : string;
  numberText : string -> string
}.

(** How the process ends: the exit code, and the value the script gave
    to its own [FIREFOX_BINARY] if it came to that. *)
Record Exit : Type := mkExit {
  code : N;
  exported : option string
}.

Definition lines (l : list string) : string :=
  String.concat (String Js.newline EmptyString) l.

(** Lines 30-57. *)
Definition usage : string :=
  (String Js.newline EmptyString ++ lines [
    "Usage: node download-firefox-cli.mjs <url> [options]";
    EmptyString;
    "Downloads and extracts Firefox binary from a URL.";
    EmptyString;
    "Arguments:";
    "  url                 URL to Firefox archive (.tar.bz2 or .dmg)";
    EmptyString;
    "Options:";
    "  --cache-dir <path>  Directory to cache downloads (default: OS temp dir)";
    "  --force             Force re-download even if cached";
    "  --output-env        Write FIREFOX_BINARY to .env file in current directory";
    "  --help, -h          Show this help message";
    EmptyString;
    "Examples:";
    "  # Download from Mozilla FTP (macOS .dmg)";
    "  node download-firefox-cli.mjs https://download-installer.cdn.mozilla.net/pub/firefox/releases/147.0/mac/en-US/Firefox%20147.0.dmg";
    EmptyString;
    "  # Download from Firefox CI (.tar.bz2)";
    "  node download-firefox-cli.mjs https://firefox-ci-tc.services.mozilla.com/api/queue/v1/task/TASK_ID/artifacts/public/build/firefox.tar.bz2";
    EmptyString;
    "  # Download and save path to .env";
    "  node download-firefox-cli.mjs <url> --output-env";
    EmptyString;
    "Environment:";
    "  The downloaded binary path is automatically exported as FIREFOX_BINARY";
    "  for use in subsequent test commands in CI environments." ] ++ String Js.newline EmptyString)%string.

(** [Array.prototype.includes] and [indexOf] on strings. *)
Definition includes (x : string) (l : list string) : bool :=
  existsb (String.eqb x) l.

Fixpoint indexOf (x : string) (l : list string) : option nat :=
  match l with
  | [] => None
  | y :: rest =>
      if String.eqb y x then Some 0
      else match indexOf x rest with
           | Some i => Some (S i)
           | None => None
           end
  end.

(** A string that counts as true: one that is there and is not empty. *)
Definition truthy (s : option string) : option string :=
  match s with
  | Some EmptyString => None
  | other => other
  end.

Definition helpRequested (args : list string) : bool :=
  includes "--help" args || includes "-h" args.

(** Lines 67-70. *)
Definition cacheDirArg (args : list string) : option string :=
  match indexOf "--cache-dir" args with
  | Some cacheDirIndex => truthy (nth_error args (cacheDirIndex + 1))
  | None => None
  end.

(** Lines 63-70. *)
Definition optionsOf (args : list string) : Options :=
  mkOptions (cacheDirArg args) (Some (includes "--force" args)).

(** The text of a value inside a template literal. *)
Fixpoint textOf (numberText : string -> string) (v : json) {struct v} : string :=
  match v with
  | JNull => "null"
  | JBool true => "true"
  | JBool false => "false"
  | JNum literal => numberText literal
  | JStr s => s
  | JArr items =>
      String.concat ","
        (map (fun item => match item with
                          | JNull => EmptyString
                          | _ => textOf numberText item
                          end) items)
  | JObj _ => "[object Object]"
  end.

Definition template (numberText : string -> string) (v : option json) : string :=
  match v with
  | Some value => textOf numberText value
  | None => "undefined"
  end.

(** The two marks of the messages, in UTF-8. *)
Definition checkMark : string :=
  String (ascii_of_nat 226) (String (ascii_of_nat 156) (String (ascii_of_nat 147) EmptyString)).

Definition crossMark : string :=
  String (ascii_of_nat 226) (String (ascii_of_nat 156) (String (ascii_of_nat 151) EmptyString)).

Definition nl : string := String Js.newline EmptyString.

(** [writeFileSync(p, data, { flag: 'a' })]. *)
Definition appendTo (p content : string) (fs : node) : result unit * node :=
  match lookup p fs with
  | Some (File old) => store p (old ++ content) fs
  | _ => store p content fs
  end.

Definition appendFileSync (p content : string) : M unit :=
  fun fs => let (r, fs') := appendTo p content fs in Outcome r fs' [EWriteFile p content].

Section Main.

Variable env : Env.
Variable rt : Runtime.

(** [`${result.key}`]. *)
Definition field (result : json) (key : string) : M string :=
  v <- liftResult (getProp result key) ;;
  ret (template (numberText rt) v).

(** Lines 79-111, after a download that returned [result]. *)
Definition report (outputEnv : bool) (result : json) : M Exit :=
  emit (ELog (nl ++ checkMark ++ " Download complete!")) ;;
  binaryPath <- field result "binaryPath" ;;
  emit (ELog ("  Binary path: " ++ binaryPath)) ;;
  version <- field result "version" ;;
  emit (ELog ("  Version: " ++ version)) ;;
  extractPath <- field result "extractPath" ;;
  emit (ELog ("  Extract path: " ++ extractPath)) ;;
  emit (ELog (nl ++ "To use this binary in tests:")) ;;
  emit (ELog ("  export FIREFOX_BINARY=" ++ quoted binaryPath)) ;;
  (if outputEnv then
     let envPath := Js.join (cwd rt) ".env" in
     writeFileSync envPath ("FIREFOX_BINARY=" ++ binaryPath ++ nl) ;;
     emit (ELog (nl ++ checkMark ++ " Wrote FIREFOX_BINARY to " ++ envPath))
   else ret tt) ;;
  match truthy (environ rt "GITHUB_ENV") with
  | Some githubEnv =>
      appendFileSync githubEnv ("FIREFOX_BINARY=" ++ binaryPath ++ nl) ;;
      emit (ELog (nl ++ checkMark
                  ++ " Set GitHub Actions environment variable: FIREFOX_BINARY"))
  | None => ret tt
  end ;;
  match truthy (environ rt "GITHUB_OUTPUT") with
  | Some githubOutput =>
      appendFileSync githubOutput ("firefox_binary=" ++ binaryPath ++ nl) ;;
      emit (ELog (checkMark ++ " Set GitHub Actions step output: firefox_binary"))
  | None => ret tt
  end ;;
  ret (mkExit 0 (Some binaryPath)).

(** Lines 26-117. The result is how the process ends. *)
Definition main : M Exit :=
  let args := skipn 2 (argv rt) in
  if (Nat.eqb (List.length args) 0) || helpRequested args then
    emit (ELog usage) ;;
    ret (mkExit (if helpRequested args then 0 else 1) None)
  else
    let url := nth 0 args EmptyString in
    let options := optionsOf args in
    let outputEnv := includes "--output-env" args in
    tryCatch
      (emit (ELog (nl ++ "Downloading Firefox from: " ++ url ++ nl)) ;;
       result <- downloadFirefox env url options ;;
       report outputEnv result)
      (fun err =>
         emit (EWarn (nl ++ crossMark ++ " Error: " ++ message err)) ;;
         ret (mkExit 1 None)).

End Main.

End Cli.

(** ** The check of geckodriver ([ensure-geckodriver.mjs])

    The child process is what it makes the script see: the events of its
    streams and of its end, in the order they are delivered. *)

Module Gecko.

Inductive childEvent : Type :=
| Stdout (data : string)
| Stderr (data : string)
| Close (exitCode : option N)
| Failure (errorCode : option string) (error : exn).

(** [output.match(/geckodriver\s+(\S+)/)], group 1 of the match. *)
Fixpoint matchGeckodriver (s : string) : option string :=
  match s with
  | EmptyString => None
  | String _ rest =>
      if prefix "geckodriver" s then
        let after := Js.chars (substring 11 (String.length s - 11) s) in
        match after with
        | c :: _ =>
            if Js.isSpace c then
              match Js.takeWhile (fun c => negb (Js.isSpace c))
                      (Js.dropWhile Js.isSpace after) with
              | [] => matchGeckodriver rest
              | token => Some (Js.text token)
              end
            else matchGeckodriver rest
        | [] => matchGeckodriver rest
        end
      else matchGeckodriver rest
  end.

(** The promise of [checkGeckodriverVersion] and the output gathered so
    far. A promise is settled once: a later [resolve] or [reject] does
    nothing. *)
Record check : Type := mkCheck {
  output : string;
  settled : option (result bool)
}.

Definition settle (c : check) (r : result bool) : check :=
  match settled c with
  | None => mkCheck (output c) (Some r)
  | Some _ => c
  end.

(** Lines 40-66, the four handlers. *)
Definition handle (c : check) (ev : childEvent) : check * list event :=
  match ev with
  | Stdout data | Stderr data => (mkCheck (output c ++ data) (settled c), [])
  | Close exitCode =>
      match exitCode with
      | Some 0%N =>
          (settle c (Ok true),
           match matchGeckodriver (output c) with
           | Some version => [ELog ("Found geckodriver version: " ++ version)]
           | None => []
           end)
      | _ => (settle c (Throw (Error "geckodriver command failed")), [])
      end
  | Failure errorCode error =>
      match errorCode with
      | Some "ENOENT" =>
          (settle c (Throw (Error "geckodriver not found in PATH")), [])
      | _ => (settle c (Throw error), [])
      end
  end.

(** The events up to the one that settles the promise: how it is settled,
    the events still to come, and what the handlers printed. *)
Fixpoint untilSettled (c : check) (evs : list childEvent)
  : option (result bool * check * list childEvent) * list event :=
  match evs with
  | [] => (None, [])
  | ev :: rest =>
      match handle c ev with
      | (c', printed) =>
          match settled c' with
          | Some r => (Some (r, c', rest), printed)
          | None =>
              match untilSettled c' rest with
              | (answer, printed') => (answer, printed ++ printed')
              end
          end
      end
  end.

(** What the handlers print for the events that come later. *)
Fixpoint afterwards (c : check) (evs : list childEvent) : list event :=
  match evs with
  | [] => []
  | ev :: rest =>
      match handle c ev with
      | (c', printed) => printed ++ afterwards c' rest
      end
  end.

(** Lines 20-23. *)
Definition guidance : list event :=
  [ ELog (Cli.nl ++ "If geckodriver is not found, it will be automatically downloaded");
    ELog "when selenium-webdriver first tries to use it.";
    ELog (Cli.nl ++ "You can also set the GECKODRIVER_AUTO_INSTALL=1 environment variable");
    ELog "to force installation during npm install." ].

(** Lines 7-26: what [ensureGeckodriver] resolves to, [None] when the child
    never ends, and what is printed. *)
Definition ensureGeckodriver (evs : list childEvent) : option bool * list event :=
  let start := [ELog "Checking geckodriver installation..."] in
  match untilSettled (mkCheck EmptyString None) evs with
  | (None, printed) => (None, start ++ printed)
  | (Some (r, c, rest), printed) =>
      match r with
      | Ok true =>
          (Some true,
           start ++ printed
           ++ [ELog (Cli.checkMark ++ " geckodriver is installed and accessible")]
           ++ afterwards c rest)
      | Ok false =>
          (Some false, start ++ printed ++ guidance ++ afterwards c rest)
      | Throw err =>
          (Some false,
           start ++ printed
           ++ [EWarn (Cli.crossMark ++ " geckodriver check failed: " ++ message err)]
           ++ guidance ++ afterwards c rest)
      end
  end.

(** An event of the streams, which settles nothing. *)
Definition isData (ev : childEvent) : bool :=
  match ev with
  | Stdout _ | Stderr _ => true
  | _ => false
  end.

End Gecko.

(** ** More sample runs *)

Module Demo.

Definition parse (text : string) : result json :=
  if String.eqb text "{}" then Ok (JObj []) else Sample.parse text.

(** A tar archive that holds [firefox/firefox]. *)
Definition unpack (cwd : string) (fs : node) : result unit * node :=
  match put (segments (Js.join cwd "firefox")) (Dir [("firefox", File "ELF")]) fs with
  | Some fs' => (Ok tt, fs')
  | None => (Throw (Error "TAR_BAD_ARCHIVE: Unrecognized archive format"), fs)
  end.

Definition envWith (plat : Platform)
  (run : string -> node -> result string * node) : Env :=
  mkEnv plat "/tmp" (fun _ => Sample.urlHash) parse Sample.render
    (fun _ => Ok Sample.found200)
    (fun _ cwd fs => unpack cwd fs)
    run.

(** A binary that answers the version probe. *)
Definition answering (command : string) (fs : node) : result string * node :=
  if String.eqb command (versionCommand Sample.binaryPath)
  then (Ok ("Mozilla Firefox 147.0" ++ Cli.nl)%string, fs)
  else (Throw (Error "Command failed"), fs).

Definition env (plat : Platform) : Env := envWith plat answering.

(** A mount command whose output names no volume. *)
Definition silentMount (command : string) (fs : node) : result string * node :=
  (Ok "hdiutil: attach done", fs).


(** The cache directory before the first run. *)
Definition coldDisk : node :=
  Dir [("tmp", Dir [("firefox-downloads", Dir [])])].

(** A cache file that is no JSON, and one that records nothing. *)
Definition brokenDisk : node :=
  Dir [("tmp", Dir [("firefox-downloads",
         Dir [ ((Sample.urlHash ++ ".json")%string, File "<html>") ])])].

Definition blankDisk : node :=
  Dir [("tmp", Dir [("firefox-downloads",
         Dir [ ((Sample.urlHash ++ ".json")%string, File "{}") ])])].

(** The warm disk of a CI job, with the file [GITHUB_ENV] names. *)
Definition ciDisk : node :=
  Dir [("tmp", Dir [("firefox-downloads",
         Dir [ ((Sample.urlHash ++ ".json")%string, File (Sample.render Sample.record));
               (("firefox-" ++ Sample.urlHash)%string, Sample.browserTree) ])]);
       ("github", Dir [("env", File ("CI=true" ++ Cli.nl)%string)])].

Definition forced : Options := mkOptions None (Some true).

(** U+00A0, the no-break space, and U+2028, the line separator. *)
Definition noBreakSpace : string := Js.utf8 [194; 160].

Definition lineSeparator : string := Js.utf8 [226; 128; 168].

(** An output with a no-break space after the name. *)
Definition brokenSpaceOutput : string :=
  ("Mozilla Firefox" ++ noBreakSpace ++ "147.0 (Firefox 9)")%string.

Definition queryUrl : string :=
  "https://download.mozilla.org/?product=firefox-latest&os=linux64&lang=en-US".

(** Two extracted images. *)
Definition nightlyTree : list (string * node) :=
  [ ("notes", Dir [("firefox", File "text")]);
    ("Firefox Nightly.app",
     Dir [("Contents",
           Dir [("MacOS", Dir [("firefox-bin", File "bin"); ("firefox", File "bin")])])]) ].

Definition customTree : list (string * node) :=
  [ ("Custom.app",
     Dir [("Contents",
           Dir [("MacOS", Dir [("Frameworks", Dir []); ("launcher", File "bin")])])]) ].

Definition onlyBinTree : node :=
  Dir [("firefox", Dir [("firefox-bin", File "ELF")])].

Definition runtime (arguments : list string) (githubEnv : option string)
  : Cli.Runtime :=
  Cli.mkRuntime ("node" :: "download-firefox-cli.mjs" :: arguments)
    (fun name => if String.eqb name "GITHUB_ENV" then githubEnv else None)
    "/work" (fun literal => literal).

End Demo.

(** * Properties *)

(** ** Strings *)

Lemma append_assoc (a b c : string) : ((a ++ b) ++ c = a ++ (b ++ c))%string.
Proof. induction a as [|x a IH]; simpl; [reflexivity | now rewrite IH]. Qed.

Lemma append_nil_r (a : string) : (a ++ EmptyString)%string = a.
Proof. induction a as [|x a IH]; simpl; [reflexivity | now rewrite IH]. Qed.

Lemma length_append (a b : string) :
  String.length (a ++ b) = String.length a + String.length b.
Proof. induction a as [|x a IH]; simpl; [reflexivity | now rewrite IH]. Qed.

Lemma substring_whole (s : string) : substring 0 (String.length s) s = s.
Proof. induction s as [|x s IH]; simpl; [reflexivity | now rewrite IH]. Qed.

Lemma substring_skip (p s : string) (m : nat) :
  substring (String.length p) m (p ++ s) = substring 0 m s.
Proof.
  induction p as [|x p IH]; simpl; [reflexivity | exact IH].
Qed.

Lemma substring_split (s : string) (k : nat) :
  k <= String.length s ->
  s = (substring 0 k s ++ substring k (String.length s - k) s)%string.
Proof.
  revert k; induction s as [|x s IH]; intros k Hk; simpl in *.
  - assert (k = 0) by lia; subst; reflexivity.
  - destruct k as [|k]; simpl.
    + now rewrite substring_whole.
    + f_equal. apply IH. lia.
Qed.

(** [endsWith] holds exactly of the strings that are something followed by
    the suffix. *)
Lemma endsWith_spec (s suffix : string) :
  Js.endsWith s suffix = true <-> exists p, s = (p ++ suffix)%string.
Proof.
  unfold Js.endsWith; split.
  - intros H. apply andb_true_iff in H as [Hle Heq].
    apply Nat.leb_le in Hle. apply String.eqb_eq in Heq.
    exists (substring 0 (String.length s - String.length suffix) s).
    assert (Hk : String.length s - String.length suffix <= String.length s) by lia.
    pose proof (substring_split s _ Hk) as Hs.
    replace (String.length s - (String.length s - String.length suffix))
      with (String.length suffix) in Hs by lia.
    now rewrite Heq in Hs.
  - intros [p ->]. rewrite length_append.
    apply andb_true_iff; split.
    + apply Nat.leb_le; lia.
    + replace (String.length p + String.length suffix - String.length suffix)
        with (String.length p) by lia.
      rewrite substring_skip, substring_whole. apply String.eqb_refl.
Qed.

Lemma lacks_append (c : ascii) (a b : string) :
  lacks c (a ++ b) = lacks c a && lacks c b.
Proof.
  induction a as [|x a IH]; simpl; [reflexivity|].
  now rewrite IH, andb_assoc.
Qed.

Lemma lacks_self (c : ascii) (s : string) : lacks c (String c s) = false.
Proof. simpl. now rewrite Ascii.eqb_refl. Qed.

(** Two ways of cutting one string in two: one cut is inside a part of the
    other. *)
Lemma append_eq_append (a b p q : string) :
  (a ++ b = p ++ q)%string ->
  (exists r, p = (a ++ r)%string /\ b = (r ++ q)%string) \/
  (exists r, a = (p ++ r)%string /\ q = (r ++ b)%string).
Proof.
  revert p; induction a as [|x a IH]; intros p H; simpl in *.
  - left. exists p. auto.
  - destruct p as [|y p]; simpl in *.
    + right. exists (String x a). auto.
    + injection H as -> H. destruct (IH _ H) as [[r [-> ->]]|[r [-> ->]]].
      * left. exists r. auto.
      * right. exists r. auto.
Qed.

(** A suffix without a slash is a suffix of a joined path exactly when it
    is a suffix of the last name. *)
Lemma endsWith_join (dir name suffix : string) :
  lacks Js.slash suffix = true ->
  Js.endsWith (Js.join dir name) suffix = Js.endsWith name suffix.
Proof.
  intros Hl. apply eq_true_iff_eq. rewrite !endsWith_spec. unfold Js.join.
  split.
  - intros [p H]. apply append_eq_append in H as [[r [-> H]]|[r [-> H]]].
    + destruct r as [|x r]; simpl in H.
      * subst suffix. now rewrite lacks_self in Hl.
      * injection H as <- ->. now exists r.
    + subst suffix. rewrite lacks_append, lacks_self, andb_false_r in Hl.
      discriminate.
  - intros [p ->]. exists (dir ++ String Js.slash p)%string.
    rewrite append_assoc. reflexivity.
Qed.

(** ** Paths and the filesystem *)

Lemma split_nonempty (sep : ascii) (s : string) : Js.split sep s <> [].
Proof.
  destruct s as [|c s]; simpl; [discriminate|].
  destruct (Ascii.eqb c sep); [discriminate|].
  destruct (Js.split sep s); discriminate.
Qed.

Lemma split_append (sep : ascii) (a b : string) :
  Js.split sep (a ++ String sep b) = Js.split sep a ++ Js.split sep b.
Proof.
  induction a as [|x a IH]; simpl.
  - now rewrite Ascii.eqb_refl.
  - destruct (Ascii.eqb x sep); [now rewrite IH|].
    rewrite IH. pose proof (split_nonempty sep a) as Hne.
    destruct (Js.split sep a); [contradiction | reflexivity].
Qed.

Lemma walk_app (l1 l2 : list string) (t : node) :
  walk (l1 ++ l2) t =
  match walk l1 t with Some h => walk l2 h | None => None end.
Proof.
  revert t; induction l1 as [|s l1 IH]; intros t; simpl; [reflexivity|].
  destruct t as [|es|]; try reflexivity.
  destruct (entry s es); [apply IH | reflexivity].
Qed.

(** The parent of a directory is a directory. *)
Lemma walk_parent (here : list string) (t : node) (es : list (string * node)) :
  walk here t = Some (Dir es) ->
  exists es', walk (removelast here) t = Some (Dir es').
Proof.
  induction here as [|x l _] using rev_ind; intros H.
  - simpl. eauto.
  - rewrite removelast_last. rewrite walk_app in H.
    destruct (walk l t) as [[content|es0|]|]; simpl in H; try discriminate.
    eauto.
Qed.

Lemma resolve_app (t : node) (a b : list string) :
  forall here,
    resolve t here (a ++ b) =
    match resolve t here a with
    | Done there => resolve t there b
    | Failed code => Failed code
    end.
Proof.
  induction a as [|c a IH]; intros here; simpl; [reflexivity|].
  destruct (walk here t) as [[content|es|]|]; try reflexivity.
  destruct (isName c).
  - destruct (entry c es); [apply IH | reflexivity].
  - destruct (String.eqb c ".."); apply IH.
Qed.

(** Resolution arrives at an entry of the tree. *)
Lemma resolve_arrives (t : node) (comps : list string) :
  forall here there,
    walk here t <> None -> resolve t here comps = Done there ->
    walk there t <> None.
Proof.
  induction comps as [|c comps IH]; intros here there Hhere H; simpl in H.
  - injection H as <-. exact Hhere.
  - destruct (walk here t) as [[content|es|]|] eqn:E; try discriminate.
    destruct (isName c).
    + destruct (entry c es) as [child|] eqn:Ec; [|discriminate].
      apply (IH (here ++ [c])); [|exact H].
      rewrite walk_app, E. simpl. rewrite Ec. discriminate.
    + destruct (String.eqb c "..").
      * apply (IH (removelast here)); [|exact H].
        destruct (walk_parent _ _ _ E) as [es' ->]. discriminate.
      * apply (IH here); [|exact H]. rewrite E. discriminate.
Qed.

(** Along names, resolution is the descent into the tree. *)
Lemma resolve_names (t : node) (comps : list string) :
  forall here sub,
    forallb isName comps = true ->
    walk here t = Some sub ->
    match resolve t here comps with
    | Done there => walk there t
    | Failed _ => None
    end = walk comps sub.
Proof.
  induction comps as [|c comps IH]; intros here sub Hn Hhere; simpl.
  - exact Hhere.
  - simpl in Hn. apply andb_true_iff in Hn as [Hc Hn]. rewrite Hhere, Hc.
    destruct sub as [content|es|]; try reflexivity.
    destruct (entry c es) as [child|] eqn:Ec; [|reflexivity].
    apply IH; [exact Hn|]. rewrite walk_app, Hhere. simpl. now rewrite Ec.
Qed.

Lemma properPath_nonEmpty (p : string) : properPath p = true -> nonEmpty p = true.
Proof. destruct p; [discriminate | reflexivity]. Qed.

Lemma lookup_proper (p : string) (t : node) :
  properPath p = true -> lookup p t = walk (components p) t.
Proof.
  intros H. unfold lookup, locate. rewrite (properPath_nonEmpty _ H).
  now apply (resolve_names t (components p) [] t).
Qed.

Lemma nonEmpty_join (a b : string) : nonEmpty (Js.join a b) = true.
Proof. now destruct a. Qed.

Lemma components_join (a b : string) :
  components (Js.join a b) = components a ++ components b.
Proof. unfold components, Js.join. apply split_append. Qed.

(** [join(dir, p)] is resolved by going to [dir] and from there along [p]:
    this is what lets the locator work on the node of its directory. *)
Lemma lookup_join (dir p : string) (fs here : node) :
  lookup dir fs = Some here ->
  properPath p = true ->
  lookup (Js.join dir p) fs = lookup p here.
Proof.
  intros Hdir Hp. rewrite (lookup_proper p here Hp).
  unfold lookup, locate in *. rewrite nonEmpty_join, components_join, resolve_app.
  destruct (nonEmpty dir); [|discriminate].
  destruct (resolve fs [] (components dir)) as [there|code]; [|discriminate].
  now apply resolve_names.
Qed.

Lemma present_join (dir p : string) (fs : node) :
  nonEmpty dir = true ->
  present (Js.join dir p) fs = true -> present dir fs = true.
Proof.
  intros Hne. unfold present, lookup, locate.
  rewrite nonEmpty_join, Hne, components_join, resolve_app.
  destruct (resolve fs [] (components dir)) as [there|code] eqn:E;
    [|discriminate].
  intros _.
  assert (H : walk there fs <> None)
    by (apply (resolve_arrives fs (components dir) [] there);
        [discriminate | exact E]).
  now destruct (walk there fs).
Qed.

(** [existsSync(join(extractDir, p))] on the filesystem of the run is the
    presence of [p] in the tree the locator works on. *)
Lemma existsSync_in_tree (extractDir p : string) (fs here : node) :
  lookup extractDir fs = Some here ->
  properPath p = true ->
  present (Js.join extractDir p) fs = present p here.
Proof.
  intros H Hp. unfold present. now rewrite (lookup_join _ _ _ _ H Hp).
Qed.

(** ** The locator *)

(** Induction on a tree, with the property of every entry of a directory. *)
Lemma node_induction (P : node -> Prop) :
  (forall content, P (File content)) ->
  (forall entries, Forall (fun e => P (snd e)) entries -> P (Dir entries)) ->
  P Special ->
  forall t, P t.
Proof.
  intros HF HD HS.
  fix self 1. intros [content|entries|].
  - apply HF.
  - apply HD. induction entries as [|[name child] rest IH].
    + constructor.
    + constructor; [apply self | exact IH].
  - exact HS.
Qed.

Lemma findIn_eq (plat : Platform) (dir : string) (here : node) :
  findIn plat dir here = findBody plat (findIn plat) dir here.
Proof. destruct here; reflexivity. Qed.

Lemma firstFound_fst {A : Type} (f : A -> found) (l : list A) :
  fst (firstFound f l) = firstSome (map (fun a => fst (f a)) l).
Proof.
  induction l as [|a l IH]; simpl; [reflexivity|].
  destruct (f a) as [[p|] ev]; simpl; [reflexivity|].
  rewrite <- IH. now destruct (firstFound f l).
Qed.

Lemma firstSome_some (l : list (option string)) (p : string) :
  firstSome l = Some p -> In (Some p) l.
Proof.
  induction l as [|[q|] l IH]; simpl; intros H.
  - discriminate.
  - left. exact H.
  - right. auto.
Qed.

Lemma firstSome_found (l : list (option string)) (p : string) :
  In (Some p) l -> firstSome l <> None.
Proof.
  induction l as [|[q|] l IH]; simpl; intros H.
  - contradiction.
  - discriminate.
  - destruct H as [H|H]; [discriminate | auto].
Qed.

Lemma firstFound_some {A : Type} (f : A -> found) (l : list A) (p : string) :
  fst (firstFound f l) = Some p -> exists a, In a l /\ fst (f a) = Some p.
Proof.
  rewrite firstFound_fst. intros H. apply firstSome_some in H.
  apply in_map_iff in H as [a [Ha Hin]]. eauto.
Qed.

Lemma firstFound_found {A : Type} (f : A -> found) (l : list A) (a : A) :
  In a l -> fst (f a) <> None -> fst (firstFound f l) <> None.
Proof.
  intros Hin Hf. rewrite firstFound_fst.
  destruct (fst (f a)) as [p|] eqn:E; [|contradiction].
  apply (firstSome_found _ p). apply in_map_iff. eauto.
Qed.

(** Nothing is found in what is not a directory. *)
Lemma findIn_not_a_directory (plat : Platform) (dir : string) (here : node) :
  isDirectory here = false -> fst (findIn plat dir here) = None.
Proof.
  destruct here as [content|entries|]; [|discriminate|]; intros _;
    destruct plat; reflexivity.
Qed.

Lemma allDirs_not_a_directory (dir : string) (here : node) :
  isDirectory here = false -> allDirs dir here = [].
Proof. destruct here; [reflexivity | discriminate | reflexivity]. Qed.

Lemma allDirs_self (dir : string) (entries : list (string * node)) :
  In (dir, Dir entries) (allDirs dir (Dir entries)).
Proof. simpl. auto. Qed.

Lemma allDirs_child (dir : string) (entries : list (string * node))
  (e sub : string * node) :
  In e entries -> In sub (allDirs (Js.join dir (fst e)) (snd e)) ->
  In sub (allDirs dir (Dir entries)).
Proof.
  intros He Hs. simpl. right. apply in_flat_map. eauto.
Qed.

Lemma entry_In (name : string) (entries : list (string * node)) (c : node) :
  entry name entries = Some c -> In (name, c) entries.
Proof.
  induction entries as [|[n c0] rest IH]; simpl; [discriminate|].
  destruct (String.eqb n name) eqn:E.
  - apply String.eqb_eq in E. subst n. intros H. injection H as ->. now left.
  - intros H. right. auto.
Qed.

(** A directory reached through nested entries, however many, is one of
    the directories of the tree. *)
Lemma allDirs_walk (names : list string) :
  forall dir t entries,
    walk names t = Some (Dir entries) ->
    In (descend dir names, Dir entries) (allDirs dir t).
Proof.
  induction names as [|name names IH]; intros dir t entries H; simpl in H.
  - injection H as ->. apply allDirs_self.
  - destruct t as [content|es|]; try discriminate.
    destruct (entry name es) as [c|] eqn:E; [|discriminate].
    apply (allDirs_child dir es (name, c)); [now apply entry_In|].
    apply IH. exact H.
Qed.

Lemma childSearch_some (self : string -> node -> found) (dir : string)
  (entries : list (string * node)) (c : string * node -> bool) (p : string) :
  (forall e, c e = true -> isDirectory (snd e) = true) ->
  fst (firstFound (fun e => if c e then self (Js.join dir (fst e)) (snd e)
                            else notFound) entries) = Some p ->
  exists e, In e entries /\ isDirectory (snd e) = true /\
            fst (self (Js.join dir (fst e)) (snd e)) = Some p.
Proof.
  intros Hc H. apply firstFound_some in H as [e [Hin He]].
  exists e. destruct (c e) eqn:E; [|discriminate]. auto.
Qed.

(** What the body of one call finds is found by the rule of the directory
    or by one of the recursive calls on its subdirectories. *)
Lemma findBody_some (plat : Platform) (self : string -> node -> found)
  (dir : string) (entries : list (string * node)) (p : string) :
  fst (findBody plat self dir (Dir entries)) = Some p ->
  localRule plat dir (Dir entries) = Some p \/
  exists e, In e entries /\ isDirectory (snd e) = true /\
            fst (self (Js.join dir (fst e)) (snd e)) = Some p.
Proof.
  unfold findBody, darwinBlock, linuxBlock, fallback, nestedSearch, localRule.
  pose proof (childSearch_some self dir entries
                (fun e => isDirectory (snd e) && negb (Js.endsWith (fst e) ".app")) p)
    as Hnested.
  pose proof (childSearch_some self dir entries (fun e => isDirectory (snd e)) p)
    as Hfall.
  cbv beta in Hnested, Hfall.
  assert (H1 : forall e : string * node,
             isDirectory (snd e) && negb (Js.endsWith (fst e) ".app") = true ->
             isDirectory (snd e) = true)
    by (intros e H; now apply andb_true_iff in H).
  specialize (Hnested H1). specialize (Hfall (fun e H => H)). clear H1.
  set (nested := firstFound
         (fun e => if isDirectory (snd e) && negb (Js.endsWith (fst e) ".app")
                   then self (Js.join dir (fst e)) (snd e) else notFound) entries) in *.
  set (below := firstFound
         (fun e => if isDirectory (snd e)
                   then self (Js.join dir (fst e)) (snd e) else notFound) entries) in *.
  destruct plat as [| |name].
  - destruct (bundleRule dir (Dir entries)) as [[q|] ev]; simpl.
    + intros H. left. exact H.
    + destruct nested as [[q|] ev']; simpl.
      * intros H. right. apply Hnested. exact H.
      * destruct below as [r ev'']. simpl.
        intros H. right. apply Hfall. exact H.
  - simpl. destruct (linuxRule dir (Dir entries)) as [q|]; simpl.
    + intros H. left. exact H.
    + destruct below as [r ev'']. simpl.
      intros H. right. apply Hfall. exact H.
  - simpl. destruct below as [r ev'']. simpl.
    intros H. right. apply Hfall. exact H.
Qed.

(** Soundness of the search: a path that is returned is the answer of the
    rule at some directory of the tree. *)
Lemma findIn_sound (plat : Platform) (here : node) :
  forall dir p,
    fst (findIn plat dir here) = Some p ->
    exists sub, In sub (allDirs dir here) /\
                localRule plat (fst sub) (snd sub) = Some p.
Proof.
  induction here as [content|entries IH|] using node_induction; intros dir p H.
  - rewrite findIn_not_a_directory in H by reflexivity. discriminate.
  - rewrite findIn_eq in H. apply findBody_some in H as [H|[e [Hin [Hd H]]]].
    + exists (dir, Dir entries). split; [apply allDirs_self | exact H].
    + rewrite Forall_forall in IH.
      destruct (IH e Hin _ _ H) as [sub [Hsub Hrule]].
      exists sub. split; [|exact Hrule].
      eapply allDirs_child; eauto.
  - rewrite findIn_not_a_directory in H by reflexivity. discriminate.
Qed.

(** What the body of one call misses is missed by the rule of the directory
    and by every recursive call on a subdirectory. *)
Lemma findBody_none (plat : Platform) (self : string -> node -> found)
  (dir : string) (entries : list (string * node)) :
  fst (findBody plat self dir (Dir entries)) = None ->
  localRule plat dir (Dir entries) = None /\
  forall e, In e entries -> isDirectory (snd e) = true ->
            fst (self (Js.join dir (fst e)) (snd e)) = None.
Proof.
  unfold findBody, darwinBlock, linuxBlock, fallback, nestedSearch, localRule.
  set (nested := firstFound
         (fun e => if isDirectory (snd e) && negb (Js.endsWith (fst e) ".app")
                   then self (Js.join dir (fst e)) (snd e) else notFound) entries).
  set (below := firstFound
         (fun e => if isDirectory (snd e)
                   then self (Js.join dir (fst e)) (snd e) else notFound) entries).
  assert (Hbelow : fst below = None ->
            forall e, In e entries -> isDirectory (snd e) = true ->
                      fst (self (Js.join dir (fst e)) (snd e)) = None).
  { intros H e Hin Hd.
    destruct (fst (self (Js.join dir (fst e)) (snd e))) as [p|] eqn:E; [|reflexivity].
    exfalso. revert H. apply (firstFound_found _ entries e Hin).
    cbv beta. rewrite Hd, E. congruence. }
  destruct plat as [| |name].
  - destruct (bundleRule dir (Dir entries)) as [[q|] ev]; simpl.
    + intros X; discriminate X.
    + destruct nested as [[q|] ev']; simpl; [intros X; discriminate X|].
      destruct below as [r ev'']. simpl in *. intros H. split; [reflexivity | auto].
  - simpl. destruct (linuxRule dir (Dir entries)) as [q|]; simpl; [intros X; discriminate X|].
    destruct below as [r ev'']. simpl in *. intros H. split; [reflexivity | auto].
  - simpl. destruct below as [r ev'']. simpl in *. intros H. split; [reflexivity | auto].
Qed.

(** Completeness of the search, at any depth: when the rule answers at some
    directory of the tree, the search returns a path. *)
Lemma findIn_complete (plat : Platform) (here : node) :
  forall dir sub,
    In sub (allDirs dir here) ->
    localRule plat (fst sub) (snd sub) <> None ->
    fst (findIn plat dir here) <> None.
Proof.
  induction here as [content|entries IH|] using node_induction;
    intros dir sub Hin Hrule.
  - contradiction.
  - intros Hnone. rewrite findIn_eq in Hnone.
    apply findBody_none in Hnone as [Hhere Hbelow].
    simpl in Hin. destruct Hin as [<-|Hin].
    + apply Hrule. exact Hhere.
    + apply in_flat_map in Hin as [e [He Hsub]].
      rewrite Forall_forall in IH.
      destruct (isDirectory (snd e)) eqn:Hd.
      * apply (IH e He _ _ Hsub Hrule). now apply Hbelow.
      * rewrite allDirs_not_a_directory in Hsub by exact Hd. contradiction.
  - contradiction.
Qed.

Lemma noMatch_spec (plat : Platform) (dir : string) (here : node) :
  noMatch plat dir here = true <->
  forall sub, In sub (allDirs dir here) -> localRule plat (fst sub) (snd sub) = None.
Proof.
  unfold noMatch. rewrite forallb_forall. split; intros H sub Hin.
  - specialize (H sub Hin). now destruct (localRule plat (fst sub) (snd sub)).
  - now rewrite (H sub Hin).
Qed.

(** The locator returns null on a tree without a match. *)
Lemma findIn_noMatch (plat : Platform) (dir : string) (here : node) :
  noMatch plat dir here = true -> fst (findIn plat dir here) = None.
Proof.
  intros H. rewrite noMatch_spec in H.
  destruct (fst (findIn plat dir here)) as [p|] eqn:E; [|reflexivity].
  apply findIn_sound in E as [sub [Hin Hrule]].
  rewrite (H sub Hin) in Hrule. discriminate.
Qed.

(** ** Computations *)

Lemma bind_assoc {A B C : Type} (m : M A) (f : A -> M B) (g : B -> M C) (fs : node) :
  bind (bind m f) g fs = bind m (fun a => bind (f a) g) fs.
Proof.
  unfold bind. destruct (m fs) as [[a|e] fs1 ev1]; [|reflexivity].
  destruct (f a fs1) as [[b|e] fs2 ev2]; [|reflexivity].
  destruct (g b fs2) as [r fs3 ev3]. now rewrite app_assoc.
Qed.

Lemma bind_ext {A B : Type} (m : M A) (f g : A -> M B) (fs : node) :
  (forall a fs', f a fs' = g a fs') -> bind m f fs = bind m g fs.
Proof.
  intros H. unfold bind. destruct (m fs) as [[a|e] fs1 ev1]; [|reflexivity].
  now rewrite H.
Qed.

Lemma bind_ok {A B : Type} {m : M A} (f : A -> M B) {fs fs1 : node}
  {a : A} {ev1 : list event} :
  m fs = Outcome (Ok a) fs1 ev1 ->
  bind m f fs = Outcome (res (f a fs1)) (fs_after (f a fs1)) (ev1 ++ events (f a fs1)).
Proof. unfold bind. intros ->. now destruct (f a fs1). Qed.

Lemma bind_throw {A B : Type} {m : M A} (f : A -> M B) {fs fs1 : node}
  {e : exn} {ev1 : list event} :
  m fs = Outcome (Throw e) fs1 ev1 ->
  bind m f fs = Outcome (Throw e) fs1 ev1.
Proof. unfold bind. now intros ->. Qed.

Section EmitsOnly.

Variable P : event -> Prop.

Lemma emitsOnly_ret {A : Type} (a : A) : emitsOnly P (ret a).
Proof. intros fs. constructor. Qed.

Lemma emitsOnly_throw {A : Type} (e : exn) : emitsOnly P (@throw A e).
Proof. intros fs. constructor. Qed.

Lemma emitsOnly_liftResult {A : Type} (r : result A) : emitsOnly P (liftResult r).
Proof. intros fs. constructor. Qed.

Lemma emitsOnly_emit (e : event) : P e -> emitsOnly P (emit e).
Proof. intros H fs. simpl. auto. Qed.

Lemma emitsOnly_bind {A B : Type} (m : M A) (f : A -> M B) :
  emitsOnly P m -> (forall a, emitsOnly P (f a)) -> emitsOnly P (bind m f).
Proof.
  intros Hm Hf fs. unfold bind. specialize (Hm fs).
  destruct (m fs) as [[a|e] fs1 ev1]; simpl in *; [|exact Hm].
  specialize (Hf a fs1). destruct (f a fs1) as [r fs2 ev2]. simpl in *.
  apply Forall_app. auto.
Qed.

Lemma emitsOnly_tryCatch {A : Type} (m : M A) (h : exn -> M A) :
  emitsOnly P m -> (forall e, emitsOnly P (h e)) -> emitsOnly P (tryCatch m h).
Proof.
  intros Hm Hh fs. unfold tryCatch. specialize (Hm fs).
  destruct (m fs) as [[a|e] fs1 ev1]; simpl in *; [exact Hm|].
  specialize (Hh e fs1). destruct (h e fs1) as [r fs2 ev2]. simpl in *.
  apply Forall_app. auto.
Qed.

Lemma emitsOnly_tryFinally {A : Type} (m : M A) (f : M unit) :
  emitsOnly P m -> emitsOnly P f -> emitsOnly P (tryFinally m f).
Proof.
  intros Hm Hf fs. unfold tryFinally. specialize (Hm fs).
  destruct (m fs) as [r fs1 ev1]. simpl in *.
  specialize (Hf fs1). destruct (f fs1) as [[u|e] fs2 ev2]; simpl in *;
    apply Forall_app; auto.
Qed.

Lemma emitsOnly_existsSync (p : string) : emitsOnly P (existsSync p).
Proof. intros fs. constructor. Qed.

Lemma emitsOnly_readFileSync (p : string) : emitsOnly P (readFileSync p).
Proof.
  intros fs. unfold readFileSync.
  destruct (lookup p fs) as [[text|entries|]|]; constructor.
Qed.

Lemma emitsOnly_mkdirSync (p : string) : P (EMkdir p) -> emitsOnly P (mkdirSync p).
Proof.
  intros H fs. unfold mkdirSync. destruct (mkdirp p fs); simpl; auto.
Qed.

Lemma emitsOnly_chmodSync (p : string) : P (EChmod p) -> emitsOnly P (chmodSync p).
Proof.
  intros H fs. unfold chmodSync. destruct (present p fs); simpl; auto.
Qed.

Lemma emitsOnly_pipelineTo (p content : string) :
  P (EPipeline p) -> emitsOnly P (pipelineTo p content).
Proof.
  intros H fs. unfold pipelineTo. destruct (store p content fs). simpl. auto.
Qed.

Lemma emitsOnly_writeFileSync (p content : string) :
  P (EWriteFile p content) -> emitsOnly P (writeFileSync p content).
Proof.
  intros H fs. unfold writeFileSync. destruct (store p content fs). simpl. auto.
Qed.

Lemma emitsOnly_if {A : Type} (b : bool) (m1 m2 : M A) :
  emitsOnly P m1 -> emitsOnly P m2 -> emitsOnly P (if b then m1 else m2).
Proof. now destruct b. Qed.

Variable env : Env.

Lemma emitsOnly_fetchUrl (url : string) : P (EFetch url) -> emitsOnly P (fetchUrl env url).
Proof. intros H fs. simpl. auto. Qed.

Lemma emitsOnly_tarExtract (file cwd : string) :
  P (ETarExtract file cwd) -> emitsOnly P (tarExtract env file cwd).
Proof.
  intros H fs. unfold tarExtract. destruct (tar_extract env file cwd fs). simpl. auto.
Qed.

Lemma emitsOnly_execAsync (command : string) :
  P (EExec command) -> emitsOnly P (execAsync env command).
Proof.
  intros H fs. unfold execAsync. destruct (exec env command fs). simpl. auto.
Qed.

End EmitsOnly.

Create HintDb effects.

#[local] Hint Resolve emitsOnly_ret emitsOnly_throw emitsOnly_liftResult
  emitsOnly_emit emitsOnly_bind emitsOnly_tryCatch emitsOnly_tryFinally
  emitsOnly_existsSync emitsOnly_readFileSync emitsOnly_mkdirSync
  emitsOnly_chmodSync emitsOnly_pipelineTo emitsOnly_writeFileSync
  emitsOnly_if emitsOnly_fetchUrl emitsOnly_tarExtract emitsOnly_execAsync
  : effects.

Lemma keepsFs_ret {A : Type} (a : A) : keepsFs (ret a).
Proof. intros fs. reflexivity. Qed.

Lemma keepsFs_throw {A : Type} (e : exn) : keepsFs (@throw A e).
Proof. intros fs. reflexivity. Qed.

Lemma keepsFs_liftResult {A : Type} (r : result A) : keepsFs (liftResult r).
Proof. intros fs. reflexivity. Qed.

Lemma keepsFs_emit (e : event) : keepsFs (emit e).
Proof. intros fs. reflexivity. Qed.

Lemma keepsFs_existsSync (p : string) : keepsFs (existsSync p).
Proof. intros fs. reflexivity. Qed.

Lemma keepsFs_readFileSync (p : string) : keepsFs (readFileSync p).
Proof.
  intros fs. unfold readFileSync.
  now destruct (lookup p fs) as [[text|entries|]|].
Qed.

Lemma keepsFs_bind {A B : Type} (m : M A) (f : A -> M B) :
  keepsFs m -> (forall a, keepsFs (f a)) -> keepsFs (bind m f).
Proof.
  intros Hm Hf fs. unfold bind. specialize (Hm fs).
  destruct (m fs) as [[a|e] fs1 ev1]; simpl in *; subst; [|reflexivity].
  specialize (Hf a fs). now destruct (f a fs).
Qed.

Lemma keepsFs_tryCatch {A : Type} (m : M A) (h : exn -> M A) :
  keepsFs m -> (forall e, keepsFs (h e)) -> keepsFs (tryCatch m h).
Proof.
  intros Hm Hh fs. unfold tryCatch. specialize (Hm fs).
  destruct (m fs) as [[a|e] fs1 ev1]; simpl in *; subst; [reflexivity|].
  specialize (Hh e fs). now destruct (h e fs).
Qed.

Lemma keepsFs_if {A : Type} (b : bool) (m1 m2 : M A) :
  keepsFs m1 -> keepsFs m2 -> keepsFs (if b then m1 else m2).
Proof. now destruct b. Qed.

Ltac keeps :=
  repeat first
    [ apply keepsFs_ret | apply keepsFs_throw | apply keepsFs_liftResult
    | apply keepsFs_emit | apply keepsFs_existsSync | apply keepsFs_readFileSync
    | apply keepsFs_bind; [|intros ?]
    | apply keepsFs_tryCatch; [|intros ?]
    | apply keepsFs_if
    | match goal with
      | |- keepsFs (match ?x with _ => _ end) => destruct x
      end ].

(** The cache lookup only reads. *)
Lemma readCache_keepsFs (env : Env) (cacheFile : string) (force : bool) :
  keepsFs (readCache env cacheFile force).
Proof. unfold readCache. keeps. Qed.

Lemma ensureDir_harmless (dir : string) : emitsOnly harmless (ensureDir dir).
Proof.
  unfold ensureDir. apply emitsOnly_bind; [auto with effects|].
  intros b. apply emitsOnly_if; auto with effects.
  apply emitsOnly_mkdirSync. reflexivity.
Qed.

Lemma readCache_harmless (env : Env) (cacheFile : string) (force : bool) :
  emitsOnly harmless (readCache env cacheFile force).
Proof.
  unfold readCache. apply emitsOnly_bind; [apply emitsOnly_if; auto with effects|].
  intros hasFile. apply emitsOnly_if; [|auto with effects].
  apply emitsOnly_tryCatch.
  - apply emitsOnly_bind; [auto with effects|]. intros text.
    apply emitsOnly_bind; [auto with effects|]. intros cached.
    apply emitsOnly_bind; [auto with effects|]. intros [[| | |p| |]|];
      auto with effects.
    apply emitsOnly_bind; [auto with effects|]. intros found.
    apply emitsOnly_if; [|auto with effects].
    apply emitsOnly_bind; [|auto with effects].
    apply emitsOnly_emit. reflexivity.
  - intros err. apply emitsOnly_bind; [|auto with effects].
    apply emitsOnly_emit. reflexivity.
Qed.

(** ** The cache *)

Lemma ensureDir_present (dir : string) (fs : node) :
  present dir fs = true -> ensureDir dir fs = Outcome (Ok tt) fs [].
Proof.
  intros H. unfold ensureDir, bind, existsSync. rewrite H. reflexivity.
Qed.

Lemma cacheDir_present (env : Env) (url : string) (options : Options) (fs : node) :
  nonEmpty (cacheDirOf env options) = true ->
  present (cacheFileOf env url options) fs = true ->
  present (cacheDirOf env options) fs = true.
Proof. apply present_join. Qed.

(** The cache lookup on an intact entry. *)
Lemma readCache_hit (env : Env) {cacheFile text p : string} {cached : json} {fs : node} :
  lookup cacheFile fs = Some (File text) ->
  JSON_parse env text = Ok cached ->
  getProp cached "binaryPath" = Ok (Some (JStr p)) ->
  present p fs = true ->
  readCache env cacheFile false fs =
    Outcome (Ok (Some cached)) fs
            [ELog ("Using cached Firefox binary from: " ++ p)].
Proof.
  intros Hfile Hparse Hprop Hbin.
  assert (Hp : present cacheFile fs = true) by (unfold present; now rewrite Hfile).
  unfold readCache, bind, tryCatch, existsSync, readFileSync, liftResult, emit, ret.
  cbn [negb]. rewrite Hp, Hfile, Hparse, Hprop, Hbin. reflexivity.
Qed.

(** The cache lookup on a stale entry: no hit, no warning. *)
Lemma readCache_stale (env : Env) {cacheFile text p : string} {cached : json} {fs : node} :
  lookup cacheFile fs = Some (File text) ->
  JSON_parse env text = Ok cached ->
  getProp cached "binaryPath" = Ok (Some (JStr p)) ->
  present p fs = false ->
  readCache env cacheFile false fs = Outcome (Ok None) fs [].
Proof.
  intros Hfile Hparse Hprop Hbin.
  assert (Hp : present cacheFile fs = true) by (unfold present; now rewrite Hfile).
  unfold readCache, bind, tryCatch, existsSync, readFileSync, liftResult, emit, ret.
  cbn [negb]. rewrite Hp, Hfile, Hparse, Hprop, Hbin. reflexivity.
Qed.

Lemma readCache_forced (env : Env) (cacheFile : string) (fs : node) :
  readCache env cacheFile true fs = Outcome (Ok None) fs [].
Proof. reflexivity. Qed.

(** C1. With [forceDownload] false, a cache file that parses as JSON and
    records a [binaryPath] that exists makes [downloadFirefox] return the
    parsed record itself; the filesystem is left as it was and the only
    effect is one line of console output: no HTTP request, no extraction,
    no write. The cache check (lines 31-42) is reached when the cache
    directory is named by a path that is not empty: for the empty path
    line 24 throws. *)
Theorem cache_hit_returns_cached (env : Env) (url : string) (options : Options)
  (fs : node) (text p : string) (cached : json) :
  forceDownloadOf options = false ->
  nonEmpty (cacheDirOf env options) = true ->
  lookup (cacheFileOf env url options) fs = Some (File text) ->
  JSON_parse env text = Ok cached ->
  getProp cached "binaryPath" = Ok (Some (JStr p)) ->
  present p fs = true ->
  downloadFirefox env url options fs =
    Outcome (Ok cached) fs [ELog ("Using cached Firefox binary from: " ++ p)]
  /\ forallb (fun e => negb (fetchesOrWrites e))
             (events (downloadFirefox env url options fs)) = true.
Proof.
  intros Hforce Hdir Hfile Hparse Hprop Hbin.
  assert (Hrun : downloadFirefox env url options fs =
            Outcome (Ok cached) fs [ELog ("Using cached Firefox binary from: " ++ p)]).
  { unfold downloadFirefox.
    rewrite (bind_ok _ (ensureDir_present _ _
               (cacheDir_present env url options fs Hdir
                  ltac:(unfold present; now rewrite Hfile)))).
    rewrite Hforce.
    rewrite (bind_ok _ (readCache_hit env Hfile Hparse Hprop Hbin)).
    reflexivity. }
  split; [exact Hrun | now rewrite Hrun].
Qed.

(** The first events of a run. *)
Lemma starts_bind {A B : Type} (m : M A) (f : A -> M B) (fs : node)
  (pre : list event) :
  (exists rest, events (m fs) = pre ++ rest) ->
  exists rest, events (bind m f fs) = pre ++ rest.
Proof.
  intros [rest H]. unfold bind.
  destruct (m fs) as [[a|e] fs1 ev1]; simpl in *; subst.
  - destruct (f a fs1) as [r fs2 ev2]. simpl. rewrite <- app_assoc. eauto.
  - eauto.
Qed.

Lemma starts_tryCatch {A : Type} (m : M A) (h : exn -> M A) (fs : node)
  (pre : list event) :
  (exists rest, events (m fs) = pre ++ rest) ->
  exists rest, events (tryCatch m h fs) = pre ++ rest.
Proof.
  intros [rest H]. unfold tryCatch.
  destruct (m fs) as [[a|e] fs1 ev1]; simpl in *; subst.
  - eauto.
  - destruct (h e fs1) as [r fs2 ev2]. simpl. rewrite <- app_assoc. eauto.
Qed.

Lemma starts_emit {B : Type} (e : event) (f : unit -> M B) (fs : node)
  (pre : list event) :
  (exists rest, events (f tt fs) = pre ++ rest) ->
  exists rest, events (bind (emit e) f fs) = e :: pre ++ rest.
Proof.
  intros [rest H]. unfold bind, emit.
  destruct (f tt fs) as [r fs2 ev2]. simpl in *. subst. eauto.
Qed.

(** A fresh download starts with the HTTP request. *)
Lemma freshDownload_starts (env : Env) (url : string) (options : Options) (fs : node) :
  exists rest,
    events (freshDownload env url options fs) =
      ELog ("Downloading Firefox from: " ++ url) :: EFetch url :: rest.
Proof.
  unfold freshDownload.
  apply (starts_bind _ _ _ [ELog ("Downloading Firefox from: " ++ url); EFetch url]).
  unfold fetchAndExtract.
  apply (starts_emit _ _ _ [EFetch url]).
  apply starts_bind. unfold fetchArchive. apply starts_tryCatch. apply starts_bind.
  exists []. reflexivity.
Qed.

(** A fresh download whose request is answered with success, whose body
    can be stored and whose name is that of a tarball: the body is streamed
    to the download path, the extraction directory is made sure of, tar
    unpacks the file into it and the run goes on with the locator. *)
Lemma freshDownload_tarball (env : Env) (url : string) (options : Options)
  (fs fs1 fs2 fs3 : node) (response : Response) (made : list event) :
  let downloadPath := downloadPathOf env url options in
  let extractDir := extractDirOf env url options in
  let located := locateAndRecord env extractDir (cacheFileOf env url options) fs3 in
  fetch env url = Ok response ->
  ok response = true ->
  store downloadPath (body response) fs = (Ok tt, fs1) ->
  ensureDir extractDir fs1 = Outcome (Ok tt) fs2 made ->
  Js.endsWith downloadPath ".tar.bz2" || Js.endsWith downloadPath ".tar.gz" = true ->
  tar_extract env downloadPath extractDir fs2 = (Ok tt, fs3) ->
  freshDownload env url options fs =
    Outcome (res located) (fs_after located)
      ([ELog ("Downloading Firefox from: " ++ url); EFetch url;
        EPipeline downloadPath; ELog ("Downloaded to: " ++ downloadPath)]
       ++ made
       ++ [ELog ("Extracting to: " ++ extractDir);
           ETarExtract downloadPath extractDir]
       ++ events located).
Proof.
  intros downloadPath extractDir located Hfetch Hok Hstore Hdir Hname Htar.
  assert (Hget : fetchArchive env url downloadPath fs =
            Outcome (Ok tt) fs1
              [EFetch url; EPipeline downloadPath;
               ELog ("Downloaded to: " ++ downloadPath)]).
  { unfold fetchArchive, tryCatch, bind, fetchUrl, pipelineTo, emit, ret.
    rewrite Hfetch. cbv beta iota. rewrite Hok. cbn [negb]. cbv beta iota.
    rewrite Hstore. reflexivity. }
  assert (Hextract : extractArchive env downloadPath extractDir fs2 =
            Outcome (Ok tt) fs3 [ETarExtract downloadPath extractDir]).
  { unfold extractArchive, tryCatch, tarExtract.
    destruct (Js.endsWith downloadPath ".tar.bz2").
    - now rewrite Htar.
    - simpl in Hname. rewrite Hname. now rewrite Htar. }
  unfold freshDownload, fetchAndExtract.
  fold downloadPath. fold extractDir.
  rewrite !bind_assoc.
  rewrite (bind_ok (fs := fs) _ (eq_refl : emit _ fs = Outcome (Ok tt) fs [_])).
  cbv beta. rewrite !bind_assoc.
  rewrite (bind_ok _ Hget). rewrite !bind_assoc.
  rewrite (bind_ok _ Hdir). rewrite !bind_assoc.
  rewrite (bind_ok (fs := fs2) _ (eq_refl : emit _ fs2 = Outcome (Ok tt) fs2 [_])).
  cbv beta.
  rewrite (bind_ok _ Hextract). fold located.
  destruct located as [r fsEnd evEnd]. cbn [res fs_after events].
  f_equal.
Qed.

(** C8. With [forceDownload] false, a cache file whose recorded
    [binaryPath] is gone is passed over without a warning and without an
    error: the run is the run of a fresh download, which starts with the
    HTTP request and, when the request is answered with the body of a
    tarball, stores it, unpacks it into the extraction directory and goes
    on with the locator. The cache check (lines 32-42) is reached when the
    cache directory is named by a path that is not empty. *)
Theorem stale_cache_is_a_miss (env : Env) (url : string) (options : Options)
  (fs : node) (text p : string) (cached : json) :
  forceDownloadOf options = false ->
  nonEmpty (cacheDirOf env options) = true ->
  lookup (cacheFileOf env url options) fs = Some (File text) ->
  JSON_parse env text = Ok cached ->
  getProp cached "binaryPath" = Ok (Some (JStr p)) ->
  present p fs = false ->
  downloadFirefox env url options fs = freshDownload env url options fs
  /\ (exists rest,
        events (downloadFirefox env url options fs) =
          ELog ("Downloading Firefox from: " ++ url) :: EFetch url :: rest)
  /\ forall (response : Response) (fs1 fs2 fs3 : node) (made : list event),
       let downloadPath := downloadPathOf env url options in
       let extractDir := extractDirOf env url options in
       let located :=
         locateAndRecord env extractDir (cacheFileOf env url options) fs3 in
       fetch env url = Ok response ->
       ok response = true ->
       store downloadPath (body response) fs = (Ok tt, fs1) ->
       ensureDir extractDir fs1 = Outcome (Ok tt) fs2 made ->
       Js.endsWith downloadPath ".tar.bz2" || Js.endsWith downloadPath ".tar.gz"
         = true ->
       tar_extract env downloadPath extractDir fs2 = (Ok tt, fs3) ->
       downloadFirefox env url options fs =
         Outcome (res located) (fs_after located)
           ([ELog ("Downloading Firefox from: " ++ url); EFetch url;
             EPipeline downloadPath; ELog ("Downloaded to: " ++ downloadPath)]
            ++ made
            ++ [ELog ("Extracting to: " ++ extractDir);
                ETarExtract downloadPath extractDir]
            ++ events located).
Proof.
  intros Hforce Hdir Hfile Hparse Hprop Hbin.
  assert (Hrun : downloadFirefox env url options fs = freshDownload env url options fs).
  { unfold downloadFirefox.
    rewrite (bind_ok _ (ensureDir_present _ _
               (cacheDir_present env url options fs Hdir
                  ltac:(unfold present; now rewrite Hfile)))).
    rewrite Hforce.
    rewrite (bind_ok _ (readCache_stale env Hfile Hparse Hprop Hbin)).
    simpl. now destruct (freshDownload env url options fs). }
  split; [exact Hrun|]. split.
  - rewrite Hrun. apply freshDownload_starts.
  - intros response fs1 fs2 fs3 made downloadPath extractDir located
           Hfetch Hok Hstore Hmade Hname Htar.
    rewrite Hrun.
    now apply (freshDownload_tarball env url options fs fs1 fs2 fs3 response made).
Qed.

(** ** The fetch *)

Lemma fetchArchive_refused (env : Env) (url downloadPath : string) (fs : node)
  (response : Response) :
  fetch env url = Ok response -> ok response = false ->
  fetchArchive env url downloadPath fs =
    Outcome (Throw (refusal url response)) fs [EFetch url].
Proof.
  intros Hfetch Hok. unfold fetchArchive, tryCatch, bind, fetchUrl, throw.
  rewrite Hfetch, Hok. reflexivity.
Qed.

Lemma freshDownload_refused (env : Env) (url : string) (options : Options)
  (fs : node) (response : Response) :
  fetch env url = Ok response -> ok response = false ->
  freshDownload env url options fs =
    Outcome (Throw (refusal url response)) fs
            [ELog ("Downloading Firefox from: " ++ url); EFetch url].
Proof.
  intros Hfetch Hok. unfold freshDownload, fetchAndExtract.
  rewrite !bind_assoc.
  rewrite (bind_ok (fs := fs) _ (eq_refl : emit _ fs = Outcome (Ok tt) fs [_])).
  cbv beta. rewrite !bind_assoc.
  rewrite (bind_throw _ (fetchArchive_refused env url _ fs response Hfetch Hok)).
  reflexivity.
Qed.

Lemma harmless_not_in (ev : list event) (e : event) :
  Forall harmless ev -> fetchesOrWrites e = true -> ~ In e ev.
Proof.
  intros H He Hin. rewrite Forall_forall in H. specialize (H e Hin).
  unfold harmless in H. congruence.
Qed.

Lemma harmless_writes_nothing (ev : list event) :
  Forall harmless ev -> forallb (fun e => negb (writesFile e)) ev = true.
Proof.
  intros H. apply forallb_forall. intros e Hin.
  rewrite Forall_forall in H. specialize (H e Hin).
  unfold harmless in H. now destruct e.
Qed.

(** C3. When the HTTP request is made and the response has a status
    outside 200-299, [downloadFirefox] throws the download error that
    carries the status, and the run writes no file, neither the archive nor
    the cache file: the filesystem at the end is the one in which the cache
    directory was made sure of. *)
Theorem non_success_status_fails (env : Env) (url : string) (options : Options)
  (fs : node) (response : Response) :
  fetch env url = Ok response ->
  ok response = false ->
  In (EFetch url) (events (downloadFirefox env url options fs)) ->
  res (downloadFirefox env url options fs) =
    Throw (Error ("Failed to download Firefox from " ++ url
                  ++ ": Failed to download Firefox: " ++ Js.showN (status response)
                  ++ " " ++ statusText response))
  /\ forallb (fun e => negb (writesFile e))
             (events (downloadFirefox env url options fs)) = true
  /\ fs_after (downloadFirefox env url options fs) =
     fs_after (ensureDir (cacheDirOf env options) fs).
Proof.
  intros Hfetch Hok. unfold downloadFirefox.
  pose proof (ensureDir_harmless (cacheDirOf env options) fs) as H0.
  destruct (ensureDir (cacheDirOf env options) fs) as [[[]|e0] fs0 ev0] eqn:E0;
    simpl in H0.
  - rewrite (bind_ok _ E0).
    pose proof (readCache_harmless env (cacheFileOf env url options)
                  (forceDownloadOf options) fs0) as H1.
    destruct (readCache env (cacheFileOf env url options)
                (forceDownloadOf options) fs0) as [[[hit|]|e1] fs1 ev1] eqn:E1;
      simpl in H1.
    + rewrite (bind_ok _ E1). simpl. rewrite app_nil_r. intros Hin.
      apply in_app_or in Hin as [Hin|Hin];
        exfalso; (eapply harmless_not_in; [ | | exact Hin]; [assumption | reflexivity]).
    + rewrite (bind_ok _ E1).
      rewrite (freshDownload_refused env url options fs1 response Hfetch Hok).
      pose proof (readCache_keepsFs env (cacheFileOf env url options)
                    (forceDownloadOf options) fs0) as Hkeep.
      rewrite E1 in Hkeep. simpl in Hkeep. subst fs1.
      simpl. intros _. split; [reflexivity|]. split; [|reflexivity].
      rewrite !forallb_app, !harmless_writes_nothing by assumption. reflexivity.
    + rewrite (bind_throw _ E1). simpl. intros Hin.
      apply in_app_or in Hin as [Hin|Hin];
        exfalso; (eapply harmless_not_in; [ | | exact Hin]; [assumption | reflexivity]).
  - rewrite (bind_throw _ E0). simpl. intros Hin.
    exfalso; (eapply harmless_not_in; [ | | exact Hin]; [assumption | reflexivity]).
Qed.

(** ** The extraction dispatch *)

Lemma extractArchive_unsupported (env : Env) (downloadPath extractDir : string)
  (fs : node) :
  Js.endsWith downloadPath ".tar.bz2" = false ->
  Js.endsWith downloadPath ".tar.gz" = false ->
  Js.endsWith downloadPath ".dmg" = false ->
  extractArchive env downloadPath extractDir fs =
    Outcome (Throw (Error ("Failed to extract Firefox archive: "
                           ++ "Unsupported archive format: " ++ downloadPath)))
            fs [].
Proof.
  intros H1 H2 H3. unfold extractArchive, tryCatch. rewrite H1, H2, H3.
  reflexivity.
Qed.

(** C6. A downloaded file whose name ends in none of [.tar.bz2], [.tar.gz]
    and [.dmg] makes the dispatch throw the unsupported-format error; the
    filesystem is untouched and no effect is performed, so nothing is
    extracted. *)
Theorem unsupported_suffix_fails (env : Env) (cacheDir name extractDir : string)
  (fs : node) :
  Js.endsWith name ".tar.bz2" = false ->
  Js.endsWith name ".tar.gz" = false ->
  Js.endsWith name ".dmg" = false ->
  extractArchive env (Js.join cacheDir name) extractDir fs =
    Outcome (Throw (Error ("Failed to extract Firefox archive: "
                           ++ "Unsupported archive format: " ++ Js.join cacheDir name)))
            fs []
  /\ forallb (fun e => negb (extracts e))
             (events (extractArchive env (Js.join cacheDir name) extractDir fs)) = true.
Proof.
  intros H1 H2 H3.
  assert (Hrun := extractArchive_unsupported env (Js.join cacheDir name) extractDir fs).
  rewrite !endsWith_join in Hrun by reflexivity.
  specialize (Hrun H1 H2 H3). split; [exact Hrun | now rewrite Hrun].
Qed.

(** C10. The dispatch does the same for a path ending in [.tar.bz2] and
    for one ending in [.tar.gz]: the one tar extraction of the archive into
    the extraction directory. *)
Theorem tarballs_extract_alike (env : Env) (bz2Path gzPath extractDir : string)
  (fs : node) :
  Js.endsWith bz2Path ".tar.bz2" = true ->
  Js.endsWith gzPath ".tar.gz" = true ->
  extractArchive env bz2Path extractDir fs = tarAction env bz2Path extractDir fs
  /\ extractArchive env gzPath extractDir fs = tarAction env gzPath extractDir fs.
Proof.
  intros Hbz2 Hgz. unfold extractArchive, tarAction. split.
  - now rewrite Hbz2.
  - rewrite Hgz. now destruct (Js.endsWith gzPath ".tar.bz2").
Qed.

(** ** The disk image *)

Lemma execAsync_run (env : Env) (command : string) (fs fs' : node) (r : result string) :
  exec env command fs = (r, fs') ->
  execAsync env command fs = Outcome r fs' [EExec command].
Proof. unfold execAsync. now intros ->. Qed.




(** ** The search order *)

Lemma fallback_children (plat : Platform) (dir : string)
  (entries : list (string * node)) :
  fst (fallback (findIn plat) dir (Dir entries)) =
  firstSome (searchChildren plat dir entries).
Proof.
  unfold fallback, searchChildren. rewrite firstFound_fst. f_equal.
  apply map_ext. intros e. now destruct (isDirectory (snd e)).
Qed.

(** C2. When the platform-specific part of a call finds nothing, the call
    returns what the first subdirectory, in listing order, whose own search
    succeeds returns. The search goes to any depth: a directory anywhere in
    the tree, reached through any number of nested entries, that satisfies
    the rule of the platform makes it succeed; and a path it returns is the
    answer of that same rule at a directory of the tree. *)
Theorem fallback_first_match (plat : Platform) (dir : string)
  (entries : list (string * node)) :
  platformChecks plat dir (Dir entries) = None ->
  fst (findIn plat dir (Dir entries)) = firstSome (searchChildren plat dir entries)
  /\ (forall sub, In sub (allDirs dir (Dir entries)) ->
                  localRule plat (fst sub) (snd sub) <> None ->
                  fst (findIn plat dir (Dir entries)) <> None)
  /\ (forall names below,
        walk names (Dir entries) = Some (Dir below) ->
        localRule plat (descend dir names) (Dir below) <> None ->
        fst (findIn plat dir (Dir entries)) <> None)
  /\ (forall p, fst (findIn plat dir (Dir entries)) = Some p ->
                exists sub, In sub (allDirs dir (Dir entries)) /\
                            localRule plat (fst sub) (snd sub) = Some p).
Proof.
  intros Hchecks. split; [|split; [|split]].
  - rewrite <- fallback_children. rewrite findIn_eq. unfold findBody.
    unfold platformChecks in Hchecks.
    destruct (darwinBlock plat (findIn plat) dir (Dir entries)) as [[p|] ev];
      [discriminate|].
    rewrite Hchecks.
    now destruct (fallback (findIn plat) dir (Dir entries)).
  - intros sub. apply findIn_complete.
  - intros names below Hwalk Hrule.
    apply (findIn_complete plat (Dir entries) dir (descend dir names, Dir below));
      [now apply allDirs_walk | exact Hrule].
  - intros p. apply findIn_sound.
Qed.

(** C5, as the code has it. On Linux, a tree that has [firefox/firefox]
    under the extraction directory makes the locator return exactly that
    path. *)
Theorem flat_layout_on_linux (extractDir : string) (here : node) :
  present (Js.join "firefox" "firefox") here = true ->
  fst (findIn linux extractDir here) = Some (extractDir ++ "/firefox/firefox")%string.
Proof.
  intros H. rewrite findIn_eq. unfold findBody. cbn [darwinBlock linuxBlock notFound].
  unfold linuxRule, linuxPaths. cbn [find]. rewrite H. reflexivity.
Qed.

(** ** The run as a whole *)

(** [downloadFirefox] is the run up to the locator followed by the
    locator and what comes after it. *)
Lemma downloadFirefox_split (env : Env) (url : string) (options : Options) (fs : node) :
  downloadFirefox env url options fs =
  bind (untilLocator env url options)
       (fun cached =>
          match cached with
          | Some hit => ret hit
          | None => locateAndRecord env (extractDirOf env url options)
                                    (cacheFileOf env url options)
          end) fs.
Proof.
  unfold downloadFirefox, untilLocator, freshDownload.
  rewrite bind_assoc. apply bind_ext. intros _ fs0.
  rewrite bind_assoc. apply bind_ext. intros [hit|] fs1.
  - reflexivity.
  - rewrite bind_assoc. apply bind_ext. intros _ fs2.
    unfold bind, ret.
    now destruct (locateAndRecord env (extractDirOf env url options)
                    (cacheFileOf env url options) fs2).
Qed.

(** ** What a run writes *)

Ltac effects :=
  repeat first
    [ apply emitsOnly_ret | apply emitsOnly_throw | apply emitsOnly_liftResult
    | apply emitsOnly_existsSync | apply emitsOnly_readFileSync
    | apply emitsOnly_emit; exact I
    | apply emitsOnly_mkdirSync; exact I
    | apply emitsOnly_chmodSync; exact I
    | apply emitsOnly_pipelineTo; exact I
    | apply emitsOnly_fetchUrl; exact I
    | apply emitsOnly_tarExtract; exact I
    | apply emitsOnly_execAsync; exact I
    | apply emitsOnly_bind; [|intros ?]
    | apply emitsOnly_tryCatch; [|intros ?]
    | apply emitsOnly_tryFinally
    | apply emitsOnly_if
    | match goal with
      | |- emitsOnly _ (match ?x with _ => _ end) => destruct x
      end ].

Lemma untilLocator_writes_no_cache (env : Env) (url : string) (options : Options) :
  emitsOnly notWriteFile (untilLocator env url options).
Proof.
  unfold untilLocator, ensureDir, readCache, fetchAndExtract, fetchArchive,
    extractArchive, extractDmg, copyBundle, unmount, ensureDir.
  effects.
Qed.

Lemma firstFound_events {A : Type} (P : event -> Prop) (f : A -> found) (l : list A) :
  (forall a, In a l -> Forall P (snd (f a))) ->
  Forall P (snd (firstFound f l)).
Proof.
  induction l as [|a l IH]; intros H; simpl.
  - constructor.
  - pose proof (H a (or_introl eq_refl)) as Ha.
    destruct (f a) as [[p|] ev]; simpl in *; [exact Ha|].
    assert (IH' := IH (fun b Hb => H b (or_intror Hb))).
    destruct (firstFound f l) as [r ev']. simpl in *.
    apply Forall_app. auto.
Qed.

Lemma searchBundle_events (dir : string) (here : node) (b : string * node) :
  Forall notWriteFile (snd (searchBundle dir here b)).
Proof.
  unfold searchBundle.
  destruct (lookup _ here) as [macOS|]; [|constructor].
  destruct (find _ executableNames); [constructor|].
  destruct macOS as [content|entries|].
  - repeat constructor.
  - destruct (find _ entries); constructor.
  - repeat constructor.
Qed.

(** The locator prints warnings and does nothing else. *)
Lemma findIn_events (plat : Platform) (here : node) :
  forall dir, Forall notWriteFile (snd (findIn plat dir here)).
Proof.
  induction here as [content|entries IH|] using node_induction; intros dir.
  - destruct plat; repeat constructor.
  - rewrite Forall_forall in IH. rewrite findIn_eq.
    assert (Hchild : forall c : string * node -> bool,
      Forall notWriteFile
        (snd (firstFound (fun e => if c e then findIn plat (Js.join dir (fst e)) (snd e)
                                   else notFound) entries))).
    { intros c. apply firstFound_events. intros e He.
      destruct (c e); [apply IH; exact He | constructor]. }
    unfold findBody, darwinBlock, linuxBlock, fallback, nestedSearch.
    pose proof (Hchild (fun e => isDirectory (snd e)
                                 && negb (Js.endsWith (fst e) ".app"))) as Hnested.
    pose proof (Hchild (fun e => isDirectory (snd e))) as Hbelow.
    cbv beta in Hnested, Hbelow.
    set (nested := firstFound
           (fun e => if isDirectory (snd e) && negb (Js.endsWith (fst e) ".app")
                     then findIn plat (Js.join dir (fst e)) (snd e) else notFound)
           entries) in *.
    set (below := firstFound
           (fun e => if isDirectory (snd e)
                     then findIn plat (Js.join dir (fst e)) (snd e) else notFound)
           entries) in *.
    assert (Hbundle : Forall notWriteFile (snd (bundleRule dir (Dir entries)))).
    { unfold bundleRule. apply firstFound_events. intros b _.
      apply searchBundle_events. }
    destruct plat as [| |name].
    + destruct (bundleRule dir (Dir entries)) as [[q|] ev]; simpl in *; [exact Hbundle|].
      destruct nested as [[q|] ev']; simpl in *; [apply Forall_app; auto|].
      destruct below as [r ev'']. simpl in *. repeat (apply Forall_app; split); auto.
    + simpl. destruct (linuxRule dir (Dir entries)); simpl; [constructor|].
      destruct below as [r ev'']. simpl in *. exact Hbelow.
    + simpl. destruct below as [r ev'']. simpl in *. exact Hbelow.
  - destruct plat; repeat constructor.
Qed.

Lemma notWriteFile_not_in (ev : list event) (p c : string) :
  Forall notWriteFile ev -> ~ In (EWriteFile p c) ev.
Proof.
  intros H Hin. rewrite Forall_forall in H. exact (H _ Hin).
Qed.

(** The locator on a tree without a match, and what follows. *)
Lemma locateAndRecord_noMatch (env : Env) (extractDir cacheFile : string) (fs : node) :
  noMatch (platform env) extractDir (extractionTree extractDir fs) = true ->
  locateAndRecord env extractDir cacheFile fs =
    Outcome (Throw (Error ("Could not find Firefox binary in extracted archive at "
                           ++ extractDir)))
            fs
            (snd (findIn (platform env) extractDir (extractionTree extractDir fs))).
Proof.
  intros H. apply findIn_noMatch in H.
  unfold locateAndRecord, bind, findFirefoxBinary, throw.
  destruct (findIn (platform env) extractDir (extractionTree extractDir fs))
    as [located ev]. simpl in *. subst located. now rewrite app_nil_r.
Qed.

(** C4. When the run reaches the locator and no directory of the
    extraction tree satisfies the rule of the platform, the locator returns
    null and [downloadFirefox] throws the binary-not-found error; after the
    locator nothing happens but its warnings, and the run never calls
    [writeFileSync], so no result is recorded. *)
Theorem no_match_binary_not_found (env : Env) (url : string) (options : Options)
  (fs : node) :
  let before := untilLocator env url options fs in
  let extractDir := extractDirOf env url options in
  let tree := extractionTree extractDir (fs_after before) in
  res before = Ok None ->
  noMatch (platform env) extractDir tree = true ->
  fst (findIn (platform env) extractDir tree) = None
  /\ downloadFirefox env url options fs =
       Outcome (Throw (Error ("Could not find Firefox binary in extracted archive at "
                              ++ extractDir)))
               (fs_after before)
               (events before ++ snd (findIn (platform env) extractDir tree))
  /\ (forall p c, ~ In (EWriteFile p c) (events (downloadFirefox env url options fs))).
Proof.
  intros before extractDir tree Hres Hno.
  assert (Hrun : downloadFirefox env url options fs =
       Outcome (Throw (Error ("Could not find Firefox binary in extracted archive at "
                              ++ extractDir)))
               (fs_after before)
               (events before ++ snd (findIn (platform env) extractDir tree))).
  { rewrite downloadFirefox_split.
    pose proof (eq_refl : untilLocator env url options fs = before) as Hb.
    destruct before as [r fs1 ev1] eqn:E. simpl in Hres. subst r.
    rewrite (bind_ok _ Hb).
    rewrite (locateAndRecord_noMatch env extractDir _ fs1 Hno). reflexivity. }
  split; [now apply findIn_noMatch|]. split; [exact Hrun|].
  intros p c. rewrite Hrun. cbn [events]. apply notWriteFile_not_in.
  apply Forall_app. split.
  - apply untilLocator_writes_no_cache.
  - apply findIn_events.
Qed.

(** ** The name of the archive *)

(** Where the name the source computes is the last path segment: on the
    URLs that do not end in a slash and have no slash in the query
    string. *)

Lemma list_of_append (a b : string) :
  list_ascii_of_string (a ++ b) = list_ascii_of_string a ++ list_ascii_of_string b.
Proof. induction a as [|x a IH]; simpl; [reflexivity | now rewrite IH]. Qed.

Lemma string_of_app (l1 l2 : list ascii) :
  string_of_list_ascii (l1 ++ l2)
  = (string_of_list_ascii l1 ++ string_of_list_ascii l2)%string.
Proof. induction l1 as [|x l1 IH]; simpl; [reflexivity | now rewrite IH]. Qed.

Lemma lacks_slash_forallb (s : string) :
  lacks Js.slash s = forallb notSlash (list_ascii_of_string s).
Proof. induction s as [|x s IH]; simpl; [reflexivity | now rewrite IH]. Qed.

Lemma forallb_rev {A : Type} (p : A -> bool) (l : list A) :
  forallb p (rev l) = forallb p l.
Proof.
  induction l as [|x l IH]; simpl; [reflexivity|].
  rewrite forallb_app, IH. simpl. rewrite andb_true_r. apply andb_comm.
Qed.

Lemma takeWhile_all (p : ascii -> bool) (l1 l2 : list ascii) :
  forallb p l1 = true -> Js.takeWhile p (l1 ++ l2) = l1 ++ Js.takeWhile p l2.
Proof.
  induction l1 as [|x l1 IH]; simpl; [reflexivity|].
  intros H. apply andb_true_iff in H as [Hx Hl]. now rewrite Hx, IH.
Qed.

Lemma takeWhile_stops (p : ascii -> bool) (l1 l2 : list ascii) :
  forallb p l1 = false -> Js.takeWhile p (l1 ++ l2) = Js.takeWhile p l1.
Proof.
  induction l1 as [|x l1 IH]; simpl; [discriminate|].
  destruct (p x); simpl; [intros H; now rewrite IH | reflexivity].
Qed.

Lemma lastSegment_cons (a : ascii) (l : list ascii) :
  lastSegment (a :: l) =
  if forallb notSlash l then (if notSlash a then a :: l else l)
  else lastSegment l.
Proof.
  unfold lastSegment. simpl rev.
  destruct (forallb notSlash l) eqn:E.
  - rewrite takeWhile_all by now rewrite forallb_rev.
    simpl. destruct (notSlash a); simpl.
    + now rewrite rev_app_distr, rev_involutive.
    + now rewrite app_nil_r, rev_involutive.
  - now rewrite takeWhile_stops by now rewrite forallb_rev.
Qed.

Lemma split_lacks (c : ascii) (s : string) :
  lacks c s = true -> Js.split c s = [s].
Proof.
  induction s as [|x s IH]; simpl; [reflexivity|].
  intros H. apply andb_true_iff in H as [Hx Hs].
  apply negb_true_iff in Hx. now rewrite Hx, IH.
Qed.

Lemma split_has (c : ascii) (s : string) :
  lacks c s = false -> exists h x t, Js.split c s = h :: x :: t.
Proof.
  induction s as [|a s IH]; simpl; [discriminate|].
  destruct (Ascii.eqb a c) eqn:E; simpl.
  - intros _. pose proof (split_nonempty c s) as Hne.
    destruct (Js.split c s) as [|x t]; [contradiction|]. eauto.
  - intros H. destruct (IH H) as [h [x [t ->]]]. eauto.
Qed.

(** Read from the front or from the end, the last segment is the same. *)
Lemma last_split_lastSegment (s : string) :
  last (Js.split Js.slash s) EmptyString
  = string_of_list_ascii (lastSegment (list_ascii_of_string s)).
Proof.
  induction s as [|a s IH]; [reflexivity|].
  cbn [list_ascii_of_string]. rewrite lastSegment_cons, <- lacks_slash_forallb.
  cbn [Js.split]. unfold notSlash, Js.isSlash.
  destruct (lacks Js.slash s) eqn:El.
  - rewrite (split_lacks _ _ El).
    destruct (Ascii.eqb a Js.slash); simpl;
      now rewrite ?string_of_list_ascii_of_string.
  - destruct (split_has _ _ El) as [h [x [t Hs]]]. rewrite <- IH.
    destruct (Ascii.eqb a Js.slash); rewrite Hs; reflexivity.
Qed.

Lemma no_trailing_slash (s : string) :
  Js.endsWith s "/" = false ->
  Js.dropWhile Js.isSlash (rev (list_ascii_of_string s))
  = rev (list_ascii_of_string s).
Proof.
  intros H. destruct (rev (list_ascii_of_string s)) as [|c l] eqn:E; [reflexivity|].
  simpl. destruct (Js.isSlash c) eqn:Ec; [|reflexivity].
  exfalso. apply Ascii.eqb_eq in Ec. subst c.
  assert (Hs : s = (string_of_list_ascii (rev l) ++ "/")%string).
  { rewrite <- (string_of_list_ascii_of_string s).
    rewrite <- (rev_involutive (list_ascii_of_string s)), E.
    simpl. now rewrite string_of_app. }
  assert (Ht : Js.endsWith s "/" = true) by (apply endsWith_spec; eauto).
  congruence.
Qed.

Lemma basename_last_segment (s : string) :
  Js.endsWith s "/" = false ->
  Js.basename s = last (Js.split Js.slash s) EmptyString.
Proof.
  intros H. rewrite last_split_lastSegment. unfold Js.basename.
  now rewrite no_trailing_slash.
Qed.

Lemma lastSegment_append (l1 l2 : list ascii) :
  forallb notSlash l2 = true -> lastSegment (l1 ++ l2) = lastSegment l1 ++ l2.
Proof.
  intros H. unfold lastSegment. rewrite rev_app_distr.
  rewrite takeWhile_all by now rewrite forallb_rev.
  now rewrite rev_app_distr, rev_involutive.
Qed.

Lemma last_split_append (p rest : string) :
  lacks Js.slash rest = true ->
  last (Js.split Js.slash (p ++ rest)) EmptyString
  = (last (Js.split Js.slash p) EmptyString ++ rest)%string.
Proof.
  intros H. rewrite !last_split_lastSegment, list_of_append.
  rewrite lastSegment_append by now rewrite <- lacks_slash_forallb.
  now rewrite string_of_app, string_of_list_ascii_of_string.
Qed.

Lemma lacks_forallb (c : ascii) (s : string) :
  lacks c s = forallb (fun a => negb (Ascii.eqb a c)) (list_ascii_of_string s).
Proof. induction s as [|x s IH]; simpl; [reflexivity | now rewrite IH]. Qed.

Lemma forallb_takeWhile (f p : ascii -> bool) (l : list ascii) :
  forallb f l = true -> forallb f (Js.takeWhile p l) = true.
Proof.
  induction l as [|x l IH]; simpl; [reflexivity|].
  intros H. apply andb_true_iff in H as [Hx Hl].
  destruct (p x); simpl; [now rewrite Hx, IH | reflexivity].
Qed.

Lemma lacks_last_segment (c : ascii) (s : string) :
  lacks c s = true -> lacks c (last (Js.split Js.slash s) EmptyString) = true.
Proof.
  rewrite last_split_lastSegment, !lacks_forallb.
  rewrite list_ascii_of_string_of_list_ascii. unfold lastSegment.
  intros H. rewrite forallb_rev. apply forallb_takeWhile. now rewrite forallb_rev.
Qed.

(** A string cut at its first question mark. *)
Lemma first_split_query (p rest : string) :
  lacks Js.question p = true ->
  rest = EmptyString \/ (exists q, rest = String Js.question q) ->
  Js.first (Js.split Js.question (p ++ rest)) = p.
Proof.
  intros Hp [->|[q ->]].
  - now rewrite append_nil_r, (split_lacks _ _ Hp).
  - now rewrite split_append, (split_lacks _ _ Hp).
Qed.

(** On a URL that does not end in a slash and whose query string, if any,
    has no slash, the name the source computes is the last path segment of
    the URL with the query string stripped. *)
Theorem archiveName_plain_url (path rest : string) :
  lacks Js.question path = true ->
  rest = EmptyString \/ (exists q, rest = String Js.question q) ->
  lacks Js.slash rest = true ->
  Js.endsWith (path ++ rest) "/" = false ->
  archiveName (path ++ rest) = lastPathSegment (path ++ rest).
Proof.
  intros Hpath Hrest Hslash Hend. unfold archiveName, lastPathSegment.
  rewrite (basename_last_segment _ Hend), (last_split_append _ _ Hslash).
  rewrite (first_split_query _ _ (lacks_last_segment _ _ Hpath) Hrest).
  now rewrite (first_split_query _ _ Hpath Hrest).
Qed.

Example archiveName_of_the_sample :
  archiveName Sample.url = "firefox-147.0.tar.bz2"
  /\ archiveName "https://example.org/pub/firefox-147.0.tar.bz2?x=1" = "firefox-147.0.tar.bz2".
Proof. split; reflexivity. Qed.

(** C9. On a URL whose query string contains a slash, the name the source
    computes is cut out of the query string, where the last path segment of
    the URL is the name of the archive. *)
Theorem archive_name_from_query :
  archiveName Sample.trickyUrl = "pub"
  /\ lastPathSegment Sample.trickyUrl = "firefox.tar.bz2".
Proof. split; reflexivity. Qed.

(** ** The properties on the sample runs *)

(** C1 on the warm disk. *)
Lemma cache_hit_returns_cached_witness :
  let env := Sample.env linux Sample.found200 in
  (forceDownloadOf Sample.defaults = false
   /\ nonEmpty (cacheDirOf env Sample.defaults) = true
   /\ lookup (cacheFileOf env Sample.url Sample.defaults) Sample.warmDisk
      = Some (File (Sample.render Sample.record))
   /\ JSON_parse env (Sample.render Sample.record) = Ok Sample.record
   /\ getProp Sample.record "binaryPath" = Ok (Some (JStr Sample.binaryPath))
   /\ present Sample.binaryPath Sample.warmDisk = true)
  /\ downloadFirefox env Sample.url Sample.defaults Sample.warmDisk =
       Outcome (Ok Sample.record) Sample.warmDisk
               [ELog ("Using cached Firefox binary from: " ++ Sample.binaryPath)].
Proof.
  intros env. split.
  - repeat split; reflexivity.
  - apply (cache_hit_returns_cached env Sample.url Sample.defaults Sample.warmDisk
             (Sample.render Sample.record) Sample.binaryPath Sample.record);
      reflexivity.
Defined.

(** C2 on a tree with the binary three levels down. *)
Lemma fallback_first_match_witness :
  platformChecks linux "/cache" (Dir Sample.deepTree) = None
  /\ fst (findIn linux "/cache" (Dir Sample.deepTree))
     = firstSome (searchChildren linux "/cache" Sample.deepTree)
  /\ fst (findIn linux "/cache" (Dir Sample.deepTree))
     = Some "/cache/build/out/firefox/firefox".
Proof.
  split; [reflexivity|]. split.
  - apply (fallback_first_match linux "/cache" Sample.deepTree). reflexivity.
  - reflexivity.
Defined.

(** C3 on an empty disk and a server that answers 404. *)
Lemma non_success_status_fails_witness :
  let env := Sample.env linux Sample.notFound404 in
  let run := downloadFirefox env Sample.url Sample.defaults Sample.emptyDisk in
  (fetch env Sample.url = Ok Sample.notFound404
   /\ ok Sample.notFound404 = false
   /\ In (EFetch Sample.url) (events run))
  /\ res run =
       Throw (Error ("Failed to download Firefox from " ++ Sample.url
                     ++ ": Failed to download Firefox: 404 Not Found"))
  /\ forallb (fun e => negb (writesFile e)) (events run) = true
  /\ fs_after run = fs_after (ensureDir (cacheDirOf env Sample.defaults) Sample.emptyDisk).
Proof.
  intros env run.
  assert (Hin : In (EFetch Sample.url) (events run))
    by (right; right; left; reflexivity).
  split; [split; [reflexivity | split; [reflexivity | exact Hin]]|].
  apply (non_success_status_fails env Sample.url Sample.defaults Sample.emptyDisk
           Sample.notFound404); [reflexivity | reflexivity | exact Hin].
Defined.

(** C4 on an archive that holds one text file. *)
Lemma no_match_binary_not_found_witness :
  let env := Sample.env linux Sample.found200 in
  let before := untilLocator env Sample.url Sample.defaults Sample.emptyDisk in
  (res before = Ok None
   /\ noMatch linux Sample.extractDir
        (extractionTree Sample.extractDir (fs_after before)) = true)
  /\ res (downloadFirefox env Sample.url Sample.defaults Sample.emptyDisk) =
       Throw (Error ("Could not find Firefox binary in extracted archive at "
                     ++ Sample.extractDir)).
Proof.
  intros env before. split; [split; reflexivity|].
  destruct (no_match_binary_not_found env Sample.url Sample.defaults Sample.emptyDisk
              eq_refl eq_refl) as [_ [Hrun _]].
  rewrite Hrun. reflexivity.
Defined.

(** C5 on Linux. *)
Lemma flat_layout_on_linux_witness :
  present (Js.join "firefox" "firefox") Sample.browserTree = true
  /\ fst (findIn linux Sample.extractDir Sample.browserTree)
     = Some Sample.binaryPath.
Proof.
  split; [reflexivity|].
  apply (flat_layout_on_linux Sample.extractDir Sample.browserTree). reflexivity.
Defined.

(** C5 as stated fails on macOS: the tree has [firefox/firefox] and the
    locator returns null. *)
Lemma flat_layout_missed_on_darwin :
  present (Js.join "firefox" "firefox") Sample.browserTree = true
  /\ fst (findIn darwin Sample.extractDir Sample.browserTree) = None
  /\ fst (findIn darwin Sample.extractDir Sample.browserTree)
     <> Some (Sample.extractDir ++ "/firefox/firefox")%string.
Proof. split; [reflexivity | split; [reflexivity | discriminate]]. Qed.

(** C6 on a [.zip]. *)
Lemma unsupported_suffix_fails_witness :
  let env := Sample.env linux Sample.found200 in
  (Js.endsWith "firefox.zip" ".tar.bz2" = false
   /\ Js.endsWith "firefox.zip" ".tar.gz" = false
   /\ Js.endsWith "firefox.zip" ".dmg" = false)
  /\ extractArchive env "/tmp/firefox-downloads/firefox.zip" Sample.extractDir
       Sample.emptyDisk =
     Outcome (Throw (Error ("Failed to extract Firefox archive: Unsupported archive "
                            ++ "format: /tmp/firefox-downloads/firefox.zip")))
             Sample.emptyDisk [].
Proof.
  intros env. split; [repeat split; reflexivity|].
  apply (unsupported_suffix_fails env "/tmp/firefox-downloads" "firefox.zip"
           Sample.extractDir Sample.emptyDisk); reflexivity.
Defined.


(** C8 on the stale disk. *)
Lemma stale_cache_is_a_miss_witness :
  let env := Sample.env linux Sample.found200 in
  let run := downloadFirefox env Sample.url Sample.defaults Sample.staleDisk in
  (forceDownloadOf Sample.defaults = false
   /\ nonEmpty (cacheDirOf env Sample.defaults) = true
   /\ lookup (cacheFileOf env Sample.url Sample.defaults) Sample.staleDisk
      = Some (File (Sample.render Sample.record))
   /\ JSON_parse env (Sample.render Sample.record) = Ok Sample.record
   /\ getProp Sample.record "binaryPath" = Ok (Some (JStr Sample.binaryPath))
   /\ present Sample.binaryPath Sample.staleDisk = false)
  /\ run = freshDownload env Sample.url Sample.defaults Sample.staleDisk
  /\ exists located,
       events run =
         [ELog ("Downloading Firefox from: " ++ Sample.url); EFetch Sample.url;
          EPipeline "/tmp/firefox-downloads/firefox-147.0.tar.bz2";
          ELog "Downloaded to: /tmp/firefox-downloads/firefox-147.0.tar.bz2";
          EMkdir Sample.extractDir;
          ELog ("Extracting to: " ++ Sample.extractDir);
          ETarExtract "/tmp/firefox-downloads/firefox-147.0.tar.bz2"
            Sample.extractDir]
         ++ located.
Proof.
  intros env run. split.
  - repeat split; reflexivity.
  - destruct (stale_cache_is_a_miss env Sample.url Sample.defaults Sample.staleDisk
                (Sample.render Sample.record) Sample.binaryPath Sample.record
                eq_refl eq_refl eq_refl eq_refl eq_refl eq_refl)
      as [Hrun [_ Hpath]].
    split; [exact Hrun|].
    eexists. unfold run.
    rewrite (Hpath Sample.found200
               (snd (store (downloadPathOf env Sample.url Sample.defaults)
                       (body Sample.found200) Sample.staleDisk))
               (fs_after (ensureDir (extractDirOf env Sample.url Sample.defaults)
                  (snd (store (downloadPathOf env Sample.url Sample.defaults)
                          (body Sample.found200) Sample.staleDisk))))
               (snd (tar_extract env
                       (downloadPathOf env Sample.url Sample.defaults)
                       (extractDirOf env Sample.url Sample.defaults)
                       (fs_after (ensureDir (extractDirOf env Sample.url Sample.defaults)
                          (snd (store (downloadPathOf env Sample.url Sample.defaults)
                                  (body Sample.found200) Sample.staleDisk))))))
               [EMkdir Sample.extractDir]
               eq_refl eq_refl eq_refl eq_refl eq_refl eq_refl).
    reflexivity.
Defined.

(** C10 on two archives. *)
Lemma tarballs_extract_alike_witness :
  let env := Sample.env linux Sample.found200 in
  (Js.endsWith "/c/firefox.tar.bz2" ".tar.bz2" = true
   /\ Js.endsWith "/c/firefox.tar.gz" ".tar.gz" = true)
  /\ extractArchive env "/c/firefox.tar.bz2" "/c/x" Sample.emptyDisk
     = tarAction env "/c/firefox.tar.bz2" "/c/x" Sample.emptyDisk
  /\ extractArchive env "/c/firefox.tar.gz" "/c/x" Sample.emptyDisk
     = tarAction env "/c/firefox.tar.gz" "/c/x" Sample.emptyDisk.
Proof.
  intros env. split; [split; reflexivity|].
  apply (tarballs_extract_alike env "/c/firefox.tar.bz2" "/c/firefox.tar.gz" "/c/x"
           Sample.emptyDisk); reflexivity.
Defined.

(** * Further properties of the downloader *)

(** ** Writing and reading back *)

Lemma entry_setEntry_same (name : string) (c : node) (es : list (string * node)) :
  entry name (setEntry name c es) = Some c.
Proof.
  induction es as [|[n c0] rest IH]; simpl.
  - now rewrite String.eqb_refl.
  - destruct (String.eqb n name) eqn:E; simpl; now rewrite E.
Qed.

Lemma entry_setEntry_other (name other : string) (c : node)
  (es : list (string * node)) :
  other <> name -> entry other (setEntry name c es) = entry other es.
Proof.
  intros Hne. induction es as [|[n c0] rest IH]; simpl.
  - destruct (String.eqb name other) eqn:E; [|reflexivity].
    apply String.eqb_eq in E. congruence.
  - destruct (String.eqb n name) eqn:E; simpl.
    + apply String.eqb_eq in E. subst n.
      destruct (String.eqb name other) eqn:E'; [|reflexivity].
      apply String.eqb_eq in E'. congruence.
    + now rewrite IH.
Qed.

(** What is put at a path is found there. *)
Lemma walk_put_same (segs : list string) (new : node) :
  forall t t', put segs new t = Some t' -> walk segs t' = Some new.
Proof.
  induction segs as [|s rest IH]; intros t t' H; simpl in H.
  - now injection H as <-.
  - destruct t as [content|es|]; try discriminate.
    destruct rest as [|r rs].
    + injection H as <-. simpl. now rewrite entry_setEntry_same.
    + destruct (entry s es) as [c|]; [|discriminate].
      destruct (put (r :: rs) new c) as [c'|] eqn:E; [|discriminate].
      injection H as <-. cbn [walk]. rewrite entry_setEntry_same.
      now apply (IH c).
Qed.

(** Putting something where no directory is takes no entry away. *)
Lemma put_grows (segs : list string) (new : node) :
  forall t t',
    put segs new t = Some t' ->
    (forall sub, walk segs t = Some sub -> isDirectory sub = false) ->
    grows t t'.
Proof.
  induction segs as [|s rest IH]; intros t t' H Hold names es Hnames; simpl in H.
  - specialize (Hold t eq_refl).
    destruct t as [content|es0|]; try discriminate;
      destruct names; discriminate.
  - destruct t as [content|es0|]; try discriminate.
    assert (Hset : forall c' c, entry c es0 <> None ->
                                entry c (setEntry s c' es0) <> None).
    { intros c' c Hc. destruct (string_dec c s) as [->|Hne].
      - rewrite entry_setEntry_same. discriminate.
      - now rewrite entry_setEntry_other. }
    destruct names as [|q qs].
    + injection Hnames as <-.
      destruct rest as [|r rs].
      * injection H as <-. simpl. eauto.
      * destruct (entry s es0) as [c|]; [|discriminate].
        destruct (put (r :: rs) new c) as [c'|]; [|discriminate].
        injection H as <-. simpl. eauto.
    + cbn [walk] in Hnames.
      destruct (string_dec q s) as [->|Hne].
      * destruct (entry s es0) as [c|] eqn:Ec; [|discriminate].
        destruct rest as [|r rs].
        -- assert (Hc : isDirectory c = false).
           { apply Hold. cbn [walk]. now rewrite Ec. }
           destruct c; try discriminate; destruct qs; discriminate.
        -- destruct (put (r :: rs) new c) as [c'|] eqn:E; [|discriminate].
           injection H as <-. cbn [walk]. rewrite entry_setEntry_same.
           apply (IH c c' E); [|exact Hnames].
           intros sub Hsub. apply Hold. cbn [walk]. now rewrite Ec.
      * assert (Hsame : forall c',
                  walk (q :: qs) (Dir (setEntry s c' es0)) = Some (Dir es)).
        { intros c'. cbn [walk]. now rewrite entry_setEntry_other. }
        destruct rest as [|r rs].
        -- injection H as <-. rewrite Hsame. eauto.
        -- destruct (entry s es0) as [c|]; [|discriminate].
           destruct (put (r :: rs) new c) as [c'|]; [|discriminate].
           injection H as <-. rewrite Hsame. eauto.
Qed.

(** A path that leads somewhere leads to the same place in a tree that
    has grown. *)
Lemma grows_resolve (t t' : node) (comps : list string) :
  grows t t' ->
  forall here there,
    resolve t here comps = Done there -> resolve t' here comps = Done there.
Proof.
  intros Hg. induction comps as [|c comps IH]; intros here there H; simpl in *.
  - exact H.
  - destruct (walk here t) as [[content|es|]|] eqn:E; try discriminate.
    destruct (Hg _ _ E) as [es' [-> Hes]].
    destruct (isName c).
    + destruct (entry c es) as [child|] eqn:Ec; [|discriminate].
      assert (Hc : entry c es' <> None) by (apply Hes; congruence).
      destruct (entry c es'); [now apply IH | congruence].
    + destruct (String.eqb c ".."); now apply IH.
Qed.

Lemma locate_nonEmpty (p : string) (t : node) (names : list string) :
  locate p t = Done names -> nonEmpty p = true.
Proof. unfold locate. now destruct (nonEmpty p). Qed.

(** [writeFileSync] and the stream to a file leave the written content at
    the path. *)
Lemma store_lookup (p content : string) (fs fs' : node) :
  store p content fs = (Ok tt, fs') -> lookup p fs' = Some (File content).
Proof.
  unfold store. intros H.
  assert (Hold : forall names sub,
            locate p fs = Done names -> walk names fs = Some sub ->
            isDirectory sub = false).
  { intros names sub Hl Hw. unfold lookup in H. rewrite Hl, Hw in H.
    destruct sub; [reflexivity | discriminate | discriminate]. }
  assert (Hput : exists names,
            target p fs = Done names /\ put names (File content) fs = Some fs').
  { destruct (lookup p fs) as [[text|es|]|]; try discriminate;
      (destruct (target p fs) as [names|code]; [|discriminate]);
      (destruct (put names (File content) fs) as [fs2|] eqn:E; [|discriminate]);
      injection H as <-; eauto. }
  clear H. destruct Hput as [names [Ht Hput]].
  pose proof (walk_put_same _ _ _ _ Hput) as Hnew.
  unfold target in Ht.
  destruct (locate p fs) as [there|code] eqn:El.
  - injection Ht as <-.
    assert (Hg : grows fs fs').
    { apply (put_grows _ _ _ _ Hput). intros sub. now apply Hold. }
    pose proof (locate_nonEmpty _ _ _ El) as Hne.
    unfold lookup, locate in *. rewrite Hne in *.
    now rewrite (grows_resolve _ _ _ Hg _ _ El).
  - destruct (resolve fs [] (removelast (components p))) as [parent|code']
      eqn:Ep; [|discriminate].
    destruct (walk parent fs) as [[text|es|]|] eqn:Ew; try discriminate.
    destruct (isName (last (components p) EmptyString)) eqn:En; [|discriminate].
    injection Ht as <-.
    set (name := last (components p) EmptyString) in *.
    assert (Hcomps : components p = removelast (components p) ++ [name])
      by (apply app_removelast_last, split_nonempty).
    assert (Hne : nonEmpty p = true).
    { destruct p; [discriminate En | reflexivity]. }
    assert (Habsent : entry name es = None).
    { destruct (entry name es) as [c|] eqn:Ec; [|reflexivity].
      unfold locate in El. rewrite Hne, Hcomps, resolve_app, Ep in El.
      simpl in El. rewrite Ew, En, Ec in El. discriminate. }
    assert (Hg : grows fs fs').
    { apply (put_grows _ _ _ _ Hput). intros sub Hsub.
      rewrite walk_app, Ew in Hsub. simpl in Hsub. rewrite Habsent in Hsub.
      discriminate. }
    unfold lookup, locate. rewrite Hne, Hcomps, resolve_app.
    rewrite (grows_resolve _ _ _ Hg _ _ Ep). simpl.
    destruct (Hg _ _ Ew) as [es' [Ew' _]]. rewrite Ew', En.
    rewrite walk_app, Ew' in Hnew. simpl in Hnew.
    destruct (entry name es') as [c|] eqn:Ec'; [|discriminate].
    rewrite walk_app, Ew'. simpl. now rewrite Ec'.
Qed.

(** ** The cache check *)

(** A run whose cache check finds nothing goes on with the fresh
    download. *)
Lemma downloadFirefox_miss (env : Env) (url : string) (options : Options)
  (fs : node) (ev : list event) :
  present (cacheDirOf env options) fs = true ->
  readCache env (cacheFileOf env url options) (forceDownloadOf options) fs
    = Outcome (Ok None) fs ev ->
  downloadFirefox env url options fs =
    Outcome (res (freshDownload env url options fs))
            (fs_after (freshDownload env url options fs))
            (ev ++ events (freshDownload env url options fs)).
Proof.
  intros Hdir Hcache. unfold downloadFirefox.
  rewrite (bind_ok _ (ensureDir_present _ _ Hdir)).
  rewrite (bind_ok _ Hcache). reflexivity.
Qed.

(** A run whose cache check answers returns the answer. *)
Lemma downloadFirefox_hit (env : Env) (url : string) (options : Options)
  (fs : node) (hit : json) (ev : list event) :
  present (cacheDirOf env options) fs = true ->
  readCache env (cacheFileOf env url options) (forceDownloadOf options) fs
    = Outcome (Ok (Some hit)) fs ev ->
  downloadFirefox env url options fs = Outcome (Ok hit) fs ev.
Proof.
  intros Hdir Hcache. unfold downloadFirefox.
  rewrite (bind_ok _ (ensureDir_present _ _ Hdir)).
  rewrite (bind_ok _ Hcache). simpl. now rewrite app_nil_r.
Qed.

(** X1. With [forceDownload] true the cache file is not looked at: whatever it
    holds, the run is the fresh download, which starts with the HTTP
    request. *)
Theorem forced_download_ignores_cache (env : Env) (url : string)
  (options : Options) (fs : node) :
  forceDownloadOf options = true ->
  present (cacheDirOf env options) fs = true ->
  downloadFirefox env url options fs = freshDownload env url options fs
  /\ exists rest,
       events (downloadFirefox env url options fs) =
         ELog ("Downloading Firefox from: " ++ url) :: EFetch url :: rest.
Proof.
  intros Hforce Hdir.
  assert (Hrun : downloadFirefox env url options fs = freshDownload env url options fs).
  { rewrite (downloadFirefox_miss env url options fs [] Hdir)
      by (rewrite Hforce; apply readCache_forced).
    now destruct (freshDownload env url options fs). }
  split; [exact Hrun|]. rewrite Hrun. apply freshDownload_starts.
Qed.

Lemma readCache_unparsable (env : Env) (cacheFile text : string) (e : exn) (fs : node) :
  lookup cacheFile fs = Some (File text) ->
  JSON_parse env text = Throw e ->
  readCache env cacheFile false fs =
    Outcome (Ok None) fs
      [EWarn ("Failed to read cache file, re-downloading... " ++ message e)].
Proof.
  intros Hfile Hparse.
  assert (Hp : present cacheFile fs = true) by (unfold present; now rewrite Hfile).
  unfold readCache, bind, tryCatch, existsSync, readFileSync, liftResult, emit, ret.
  cbn [negb]. rewrite Hp, Hfile, Hparse. reflexivity.
Qed.

(** X2. A cache file that does not parse costs a warning that carries the
    message of the parser, and nothing else: the run goes on as the fresh
    download. The path of the cache directory is not empty, as the cache
    check is not reached otherwise. *)
Theorem unparsable_cache_warns_and_downloads (env : Env) (url : string)
  (options : Options) (fs : node) (text : string) (e : exn) :
  forceDownloadOf options = false ->
  nonEmpty (cacheDirOf env options) = true ->
  lookup (cacheFileOf env url options) fs = Some (File text) ->
  JSON_parse env text = Throw e ->
  downloadFirefox env url options fs =
    Outcome (res (freshDownload env url options fs))
            (fs_after (freshDownload env url options fs))
            (EWarn ("Failed to read cache file, re-downloading... " ++ message e)
             :: events (freshDownload env url options fs)).
Proof.
  intros Hforce Hdir Hfile Hparse.
  apply (downloadFirefox_miss env url options fs
           [EWarn ("Failed to read cache file, re-downloading... " ++ message e)]).
  - apply (cacheDir_present env url); [exact Hdir|]. unfold present. now rewrite Hfile.
  - rewrite Hforce. exact (readCache_unparsable env _ text e fs Hfile Hparse).
Qed.

(** X4. The cache check never throws, whatever the cache file is or holds; it
    leaves the filesystem alone and makes no request and no write. *)
Theorem cache_check_never_fails (env : Env) (cacheFile : string) (force : bool)
  (fs : node) :
  (exists answer, res (readCache env cacheFile force fs) = Ok answer)
  /\ fs_after (readCache env cacheFile force fs) = fs
  /\ forallb (fun e => negb (fetchesOrWrites e))
             (events (readCache env cacheFile force fs)) = true.
Proof.
  split; [|split].
  - unfold readCache, bind, tryCatch, existsSync, readFileSync, liftResult, emit, ret.
    destruct force; cbn; [eauto|].
    destruct (present cacheFile fs); cbn; [|eauto].
    destruct (lookup cacheFile fs) as [[text|es|]|]; cbn; eauto.
    destruct (JSON_parse env text) as [cached|e]; cbn; eauto.
    destruct (getProp cached "binaryPath") as [[[| | |p| |]|]|e]; cbn; eauto.
    destruct (present p fs); cbn; eauto.
  - apply readCache_keepsFs.
  - apply forallb_forall. intros e He.
    pose proof (readCache_harmless env cacheFile force fs) as H.
    rewrite Forall_forall in H. specialize (H e He). unfold harmless in H.
    now rewrite H.
Qed.

Lemma readCache_unusable (env : Env) (cacheFile text : string) (cached : json)
  (v : option json) (fs : node) :
  lookup cacheFile fs = Some (File text) ->
  JSON_parse env text = Ok cached ->
  getProp cached "binaryPath" = Ok v ->
  isString v = false ->
  readCache env cacheFile false fs = Outcome (Ok None) fs [].
Proof.
  intros Hfile Hparse Hprop Hv.
  assert (Hp : present cacheFile fs = true) by (unfold present; now rewrite Hfile).
  unfold readCache, bind, tryCatch, existsSync, readFileSync, liftResult, emit, ret.
  cbn [negb]. rewrite Hp, Hfile, Hparse, Hprop.
  destruct v as [[| | |p| |]|]; try reflexivity. discriminate.
Qed.

(** X3. A cache entry that records no [binaryPath], or one that is no string,
    is a silent miss: the run is the fresh download. The path of the cache
    directory is not empty, as the cache check is not reached otherwise. *)
Theorem entry_without_binary_path_is_a_miss (env : Env) (url : string)
  (options : Options) (fs : node) (text : string) (cached : json)
  (v : option json) :
  forceDownloadOf options = false ->
  nonEmpty (cacheDirOf env options) = true ->
  lookup (cacheFileOf env url options) fs = Some (File text) ->
  JSON_parse env text = Ok cached ->
  getProp cached "binaryPath" = Ok v ->
  isString v = false ->
  downloadFirefox env url options fs = freshDownload env url options fs.
Proof.
  intros Hforce Hdir Hfile Hparse Hprop Hv.
  rewrite (downloadFirefox_miss env url options fs []).
  - now destruct (freshDownload env url options fs).
  - apply (cacheDir_present env url); [exact Hdir|]. unfold present. now rewrite Hfile.
  - rewrite Hforce. exact (readCache_unusable env _ text cached v fs Hfile Hparse Hprop Hv).
Qed.

(** ** An empty cache directory path *)

(** With the empty string as [cacheDir] every call fails where the cache
    directory is made sure of (lines 23-25): the empty path exists for no
    filesystem and cannot be created. The cache is not looked at, no
    request is made and the filesystem is left as it was. This is why the
    properties of the cache check ask for a path that is not empty. *)
Lemma empty_cache_dir_fails (env : Env) (url : string) (force : option bool)
  (fs : node) :
  exists e,
    downloadFirefox env url (mkOptions (Some EmptyString) force) fs
    = Outcome (Throw e) fs [EMkdir EmptyString].
Proof. eexists. reflexivity. Qed.

(** ** The result of a fresh download *)

(** The version probe never throws. *)
Lemma getFirefoxVersion_run (env : Env) (binaryPath : string) (fs : node) :
  getFirefoxVersion env binaryPath fs =
    match exec env (versionCommand binaryPath) fs with
    | (Ok stdout, fs') =>
        Outcome (Ok (matchVersion stdout)) fs' [EExec (versionCommand binaryPath)]
    | (Throw e, fs') =>
        Outcome (Ok None) fs'
          [EExec (versionCommand binaryPath);
           EWarn ("Could not determine Firefox version: " ++ message e)]
    end.
Proof.
  unfold getFirefoxVersion, tryCatch, bind, execAsync, versionCommand, emit, ret.
  now destruct (exec env (quoted binaryPath ++ " --version")%string fs) as [[out|e] fs'].
Qed.

(** The attempt to make the binary executable never throws and changes
    nothing. *)
Lemma chmod_attempt (binaryPath : string) (fs : node) :
  exists ev,
    tryCatch (chmodSync binaryPath)
      (fun err =>
         emit (EWarn ("Warning: Failed to make binary executable: " ++ message err))) fs
    = Outcome (Ok tt) fs ev.
Proof.
  unfold tryCatch, chmodSync, emit. destruct (present binaryPath fs); eauto.
Qed.

(** What follows the locator when it has found [binaryPath]. *)
Lemma locateAndRecord_found (env : Env) (extractDir cacheFile binaryPath : string)
  (fs : node) :
  fst (findIn (platform env) extractDir (extractionTree extractDir fs)) = Some binaryPath ->
  exists ev1,
    let probe := getFirefoxVersion env binaryPath fs in
    let version := match res probe with Ok (Some v) => v | _ => "unknown" end in
    let result := resultRecord binaryPath version extractDir in
    let written := store cacheFile (JSON_stringify env result) (fs_after probe) in
    locateAndRecord env extractDir cacheFile fs =
      match fst written with
      | Ok _ =>
          Outcome (Ok result) (snd written)
            (ev1 ++ events probe
             ++ [EWriteFile cacheFile (JSON_stringify env result);
                 ELog ("Firefox binary ready at: " ++ binaryPath)])
      | Throw e =>
          Outcome (Throw e) (snd written)
            (ev1 ++ events probe
             ++ [EWriteFile cacheFile (JSON_stringify env result)])
      end.
Proof.
  intros Hfound. unfold locateAndRecord.
  destruct (chmod_attempt binaryPath fs) as [evc Hchmod].
  exists (snd (findIn (platform env) extractDir (extractionTree extractDir fs)) ++ evc).
  cbv zeta.
  assert (Hlocate : findFirefoxBinary env extractDir fs =
            Outcome (Ok (Some binaryPath)) fs
              (snd (findIn (platform env) extractDir (extractionTree extractDir fs)))).
  { unfold findFirefoxBinary.
    destruct (findIn (platform env) extractDir (extractionTree extractDir fs))
      as [located ev]. simpl in *. now subst. }
  rewrite (bind_ok _ Hlocate). cbv beta iota.
  rewrite (bind_ok _ Hchmod). cbv beta.
  assert (Hprobe : exists v, res (getFirefoxVersion env binaryPath fs) = Ok v).
  { rewrite getFirefoxVersion_run.
    destruct (exec env (versionCommand binaryPath) fs) as [[out|e] fs']; simpl; eauto. }
  destruct Hprobe as [probed Hprobe].
  destruct (getFirefoxVersion env binaryPath fs) as [r fs2 ev2] eqn:Eprobe.
  simpl in Hprobe. subst r.
  rewrite (bind_ok _ Eprobe). cbv beta. cbn [res fs_after events].
  set (version := match probed with Some v => v | None => "unknown" end).
  replace (match probed with Some v => v | None => "unknown" end) with version
    by reflexivity.
  unfold bind, writeFileSync, emit, ret.
  destruct (store cacheFile (JSON_stringify env (resultRecord binaryPath version extractDir)) fs2)
    as [[[]|e] fs3]; cbn [fst snd]; simpl;
    rewrite <- ?app_assoc; reflexivity.
Qed.

Lemma locateAndRecord_none (env : Env) (extractDir cacheFile : string) (fs : node) :
  fst (findIn (platform env) extractDir (extractionTree extractDir fs)) = None ->
  res (locateAndRecord env extractDir cacheFile fs)
  = Throw (Error ("Could not find Firefox binary in extracted archive at " ++ extractDir)).
Proof.
  intros H. unfold locateAndRecord, bind, findFirefoxBinary, throw.
  destruct (findIn (platform env) extractDir (extractionTree extractDir fs))
    as [located ev]. simpl in *. now subst.
Qed.

(** The record a successful run of the locator and what follows returns,
    and the cache file it leaves. *)
Lemma locateAndRecord_ok (env : Env) (extractDir cacheFile : string) (fs : node)
  (result : json) :
  res (locateAndRecord env extractDir cacheFile fs) = Ok result ->
  exists binaryPath,
    let probe := exec env (versionCommand binaryPath) fs in
    fst (findIn (platform env) extractDir (extractionTree extractDir fs))
      = Some binaryPath
    /\ result = resultRecord binaryPath (versionRead (fst probe)) extractDir
    /\ store cacheFile (JSON_stringify env result) (snd probe)
       = (Ok tt, fs_after (locateAndRecord env extractDir cacheFile fs)).
Proof.
  intros Hres.
  destruct (fst (findIn (platform env) extractDir (extractionTree extractDir fs)))
    as [binaryPath|] eqn:Efound;
    [|rewrite (locateAndRecord_none env _ _ _ Efound) in Hres; discriminate].
  destruct (locateAndRecord_found env extractDir cacheFile binaryPath fs Efound)
    as [ev1 Hrun]. cbv zeta in Hrun.
  exists binaryPath. cbv zeta. split; [reflexivity|].
  rewrite getFirefoxVersion_run in Hrun.
  destruct (exec env (versionCommand binaryPath) fs) as [[out|e] fs'];
    cbn [res fs_after events fst snd versionRead] in *.
  - destruct (matchVersion out) as [v|];
      (destruct (store cacheFile _ fs') as [[[]|e] fs3] eqn:Es;
       cbn [fst snd] in Hrun; rewrite Hrun in *; cbn [res fs_after] in *;
       [|discriminate]);
      injection Hres as <-; (split; [reflexivity | exact Es]).
  - destruct (store cacheFile _ fs') as [[[]|e'] fs3] eqn:Es;
      cbn [fst snd] in Hrun; rewrite Hrun in *; cbn [res fs_after] in *;
      [|discriminate].
  injection Hres as <-. split; [reflexivity | exact Es].
Qed.

(** X5. When a fresh download succeeds, what it returns is the record of the
    path the locator finds in the extraction directory as the download and
    the extraction left it, of the version read from the output of that
    binary run with [--version] on that filesystem ([unknown] when the
    command fails or prints no version), and of the extraction directory.
    The filesystem at the end is the one the probe left, with the
    serialised record written to the cache file. *)
Theorem fresh_download_result (env : Env) (url : string) (options : Options)
  (fs : node) (result : json) :
  res (freshDownload env url options fs) = Ok result ->
  let extractDir := extractDirOf env url options in
  let cacheFile := cacheFileOf env url options in
  let extracted := fs_after (fetchAndExtract env url options fs) in
  exists binaryPath,
    let probe := exec env (versionCommand binaryPath) extracted in
    res (fetchAndExtract env url options fs) = Ok tt
    /\ fst (findIn (platform env) extractDir (extractionTree extractDir extracted))
       = Some binaryPath
    /\ result = resultRecord binaryPath (versionRead (fst probe)) extractDir
    /\ store cacheFile (JSON_stringify env result) (snd probe)
       = (Ok tt, fs_after (freshDownload env url options fs))
    /\ lookup cacheFile (fs_after (freshDownload env url options fs))
       = Some (File (JSON_stringify env result)).
Proof.
  unfold freshDownload.
  destruct (fetchAndExtract env url options fs) as [[[]|e] fs1 ev1] eqn:E1.
  - rewrite (bind_ok _ E1). cbn [res fs_after]. intros Hres.
    apply locateAndRecord_ok in Hres as [p [Hf [Hr Hs]]].
    exists p. cbv zeta.
    split; [reflexivity|]. split; [exact Hf|]. split; [exact Hr|].
    split; [exact Hs|]. exact (store_lookup _ _ _ _ Hs).
  - rewrite (bind_throw _ E1). discriminate.
Qed.

(** X7. When the command of the version probe fails, the run still succeeds:
    the failure is a warning and the record carries the version
    [unknown]. *)
Theorem failed_probe_gives_unknown (env : Env)
  (extractDir cacheFile binaryPath : string) (fs fs2 fs3 : node) (e : exn) :
  fst (findIn (platform env) extractDir (extractionTree extractDir fs))
    = Some binaryPath ->
  exec env (versionCommand binaryPath) fs = (Throw e, fs2) ->
  store cacheFile
    (JSON_stringify env (resultRecord binaryPath "unknown" extractDir)) fs2
    = (Ok tt, fs3) ->
  let run := locateAndRecord env extractDir cacheFile fs in
  res run = Ok (resultRecord binaryPath "unknown" extractDir)
  /\ fs_after run = fs3
  /\ In (EWarn ("Could not determine Firefox version: " ++ message e)) (events run).
Proof.
  intros Hfound Hexec Hstore run. subst run.
  destruct (locateAndRecord_found env extractDir cacheFile binaryPath fs Hfound)
    as [ev1 Hrun]. cbv zeta in Hrun.
  rewrite getFirefoxVersion_run, Hexec in Hrun. cbn [res fs_after events] in Hrun.
  rewrite Hstore in Hrun. cbn [fst snd] in Hrun. rewrite Hrun.
  cbn [res fs_after events]. repeat split.
  apply in_or_app. right. simpl. auto.
Qed.

(** X6. A second run after a successful fresh download, with [forceDownload]
    false, a serialiser the parser inverts and the binary still in place,
    returns the same record from the cache, and does nothing else. The
    path of the cache directory is not empty, as no run reaches the cache
    check otherwise. *)
Theorem second_run_hits_cache (env : Env) (url : string) (options : Options)
  (fs : node) (result : json) :
  forceDownloadOf options = false ->
  nonEmpty (cacheDirOf env options) = true ->
  res (freshDownload env url options fs) = Ok result ->
  JSON_parse env (JSON_stringify env result) = Ok result ->
  exists binaryPath version,
    result = resultRecord binaryPath version (extractDirOf env url options)
    /\ (present binaryPath (fs_after (freshDownload env url options fs)) = true ->
        downloadFirefox env url options (fs_after (freshDownload env url options fs))
        = Outcome (Ok result) (fs_after (freshDownload env url options fs))
            [ELog ("Using cached Firefox binary from: " ++ binaryPath)]).
Proof.
  intros Hforce Hdir Hres Hparse.
  assert (Hlook : exists p v,
            result = resultRecord p v (extractDirOf env url options)
            /\ lookup (cacheFileOf env url options)
                      (fs_after (freshDownload env url options fs))
               = Some (File (JSON_stringify env result))).
  { revert Hres. unfold freshDownload.
    destruct (fetchAndExtract env url options fs) as [[[]|e] fs1 ev1] eqn:E1.
    - rewrite (bind_ok _ E1). cbn [res fs_after]. intros Hres.
      apply locateAndRecord_ok in Hres as [p [Hf [Hr Hs]]].
      exists p. eexists. split; [exact Hr|]. exact (store_lookup _ _ _ _ Hs).
    - rewrite (bind_throw _ E1). discriminate. }
  destruct Hlook as [p [v [Hr Hl]]]. exists p, v. split; [exact Hr|].
  intros Hbin. apply downloadFirefox_hit.
  - apply (cacheDir_present env url); [exact Hdir|]. unfold present. now rewrite Hl.
  - rewrite Hforce. apply (readCache_hit env Hl Hparse); [|exact Hbin].
    subst result. reflexivity.
Qed.

(** ** The errors of a fresh download *)

Lemma bind_throws {A B : Type} (m : M A) (f : A -> M B) (fs : node) (e : exn) :
  res (bind m f fs) = Throw e ->
  res (m fs) = Throw e
  \/ exists a, res (m fs) = Ok a /\ res (f a (fs_after (m fs))) = Throw e.
Proof.
  unfold bind. destruct (m fs) as [[a|e0] fs1 ev1]; cbn [res fs_after].
  - destruct (f a fs1) as [r fs2 ev2] eqn:E. cbn [res]. intros ->.
    right. exists a. split; [reflexivity|]. cbn [fs_after]. now rewrite ?E.
  - intros H. injection H as ->. now left.
Qed.

Lemma rethrown {A : Type} (m : M A) (wrap : exn -> exn) (fs : node) (e : exn) :
  res (tryCatch m (fun err => throw (wrap err)) fs) = Throw e ->
  exists err, e = wrap err.
Proof.
  unfold tryCatch, throw. destruct (m fs) as [[a|e0] fs1 ev1]; cbn [res].
  - discriminate.
  - intros H. injection H as <-. eauto.
Qed.

Lemma fetchArchive_throws (env : Env) (url downloadPath : string) (fs : node) (e : exn) :
  res (fetchArchive env url downloadPath fs) = Throw e -> downloadFailure url e.
Proof.
  unfold fetchArchive. intros H. apply rethrown in H as [err ->].
  exists (message err). reflexivity.
Qed.

Lemma extractArchive_throws (env : Env) (downloadPath extractDir : string)
  (fs : node) (e : exn) :
  res (extractArchive env downloadPath extractDir fs) = Throw e -> extractionFailure e.
Proof.
  unfold extractArchive. intros H. apply rethrown in H as [err ->].
  exists (message err). reflexivity.
Qed.

Lemma ensureDir_throws (dir : string) (fs : node) (e : exn) :
  res (ensureDir dir fs) = Throw e -> res (mkdirSync dir fs) = Throw e.
Proof.
  unfold ensureDir, bind, existsSync. destruct (present dir fs); cbn.
  - discriminate.
  - now destruct (mkdirSync dir fs) as [r fs1 ev1].
Qed.

(** X8. Every error of a fresh download is one of five: a download failure
    that names the URL, an extraction failure, the binary not found, or an
    error of the filesystem let through as it is, from creating the
    extraction directory or from writing the cache file. *)
Theorem fresh_download_errors (env : Env) (url : string) (options : Options)
  (fs : node) (e : exn) :
  res (freshDownload env url options fs) = Throw e ->
  downloadFailure url e
  \/ extractionFailure e
  \/ binaryNotFound (extractDirOf env url options) e
  \/ (exists fs', res (mkdirSync (extractDirOf env url options) fs') = Throw e)
  \/ (exists content fs',
        fst (store (cacheFileOf env url options) content fs') = Throw e).
Proof.
  unfold freshDownload. intros H.
  apply bind_throws in H as [H|[[] [_ H]]].
  - unfold fetchAndExtract in H.
    apply bind_throws in H as [H|[[] [_ H]]]; [discriminate|].
    apply bind_throws in H as [H|[[] [_ H]]];
      [left; eapply fetchArchive_throws; eauto|].
    apply bind_throws in H as [H|[[] [_ H]]];
      [right; right; right; left; eexists; eapply ensureDir_throws; eauto|].
    apply bind_throws in H as [H|[[] [_ H]]]; [discriminate|].
    right; left. eapply extractArchive_throws; eauto.
  - set (fs1 := fs_after (fetchAndExtract env url options fs)) in *.
    destruct (fst (findIn (platform env) (extractDirOf env url options)
                     (extractionTree (extractDirOf env url options) fs1)))
      as [p|] eqn:Efound.
    + destruct (locateAndRecord_found env _ (cacheFileOf env url options) p fs1 Efound)
        as [ev1 Hrun]. cbv zeta in Hrun.
      match type of Hrun with
      | context [store ?f ?c ?s] =>
          destruct (store f c s) as [[[]|e'] fs3] eqn:Es
      end; cbn [fst snd] in Hrun; rewrite Hrun in H; cbn [res] in H;
        [discriminate|].
      injection H as <-. right; right; right; right.
      eexists _, _. rewrite Es. reflexivity.
    + rewrite (locateAndRecord_none env _ _ _ Efound) in H. injection H as <-.
      right; right; left. reflexivity.
Qed.

(** ** A URL without an archive name *)

(** A directory is also denoted by its path followed by a slash. *)
Lemma lookup_join_empty (dir : string) (fs : node) (entries : list (string * node)) :
  lookup dir fs = Some (Dir entries) ->
  lookup (Js.join dir EmptyString) fs = Some (Dir entries).
Proof.
  unfold lookup, locate. rewrite nonEmpty_join, components_join, resolve_app.
  destruct (nonEmpty dir); [|discriminate].
  destruct (resolve fs [] (components dir)) as [there|code]; [|discriminate].
  intros H. simpl. now rewrite H.
Qed.

(** The request is made and the stream refused. *)
Lemma fetchArchive_onto_directory (env : Env) (url : string) (options : Options)
  (fs : node) (entries : list (string * node)) (response : Response) :
  archiveName url = EmptyString ->
  lookup (cacheDirOf env options) fs = Some (Dir entries) ->
  fetch env url = Ok response ->
  ok response = true ->
  fetchArchive env url (downloadPathOf env url options) fs =
    Outcome
      (Throw (Error ("Failed to download Firefox from " ++ url
                     ++ ": EISDIR: illegal operation on a directory, open '"
                     ++ downloadPathOf env url options ++ "'")))
      fs
      [EFetch url; EPipeline (downloadPathOf env url options)].
Proof.
  intros Hname Hdir Hfetch Hok.
  unfold fetchArchive, tryCatch, bind, fetchUrl, pipelineTo, throw, ret.
  rewrite Hfetch, Hok. cbn [negb].
  assert (Hstore : forall content,
            store (downloadPathOf env url options) content fs
            = (Throw (Error ("EISDIR: illegal operation on a directory, open '"
                             ++ downloadPathOf env url options ++ "'")), fs)).
  { intros content. unfold store, downloadPathOf. rewrite Hname.
    now rewrite (lookup_join_empty _ _ _ Hdir). }
  rewrite Hstore. reflexivity.
Qed.

(** X9. When the name cut out of the URL is empty, the archive would be
    streamed onto the cache directory itself: with the cache directory in
    place and the request answered with success, the fresh download fails
    with the download failure that names the URL, as a directory cannot be
    opened for writing, and the filesystem is left as it was. *)
Theorem empty_archive_name_fails (env : Env) (url : string) (options : Options)
  (fs : node) (entries : list (string * node)) (response : Response) :
  archiveName url = EmptyString ->
  lookup (cacheDirOf env options) fs = Some (Dir entries) ->
  fetch env url = Ok response ->
  ok response = true ->
  let run := freshDownload env url options fs in
  (exists e, res run = Throw e /\ downloadFailure url e)
  /\ fs_after run = fs.
Proof.
  intros Hname Hdir Hfetch Hok run.
  assert (Hrun : run =
    Outcome
      (Throw (Error ("Failed to download Firefox from " ++ url
                     ++ ": EISDIR: illegal operation on a directory, open '"
                     ++ downloadPathOf env url options ++ "'")))
      fs
      ([ELog ("Downloading Firefox from: " ++ url)]
       ++ [EFetch url; EPipeline (downloadPathOf env url options)])).
  { unfold run, freshDownload, fetchAndExtract.
    rewrite !bind_assoc.
    rewrite (bind_ok (fs := fs) _ (eq_refl : emit _ fs = Outcome (Ok tt) fs [_])).
    cbv beta. rewrite !bind_assoc.
    rewrite (bind_throw _
      (fetchArchive_onto_directory env url options fs entries response
         Hname Hdir Hfetch Hok)).
    reflexivity. }
  rewrite Hrun. cbn [res fs_after events]. split; [|reflexivity].
  eexists. split; [reflexivity|].
  exists ("EISDIR: illegal operation on a directory, open '"
          ++ downloadPathOf env url options ++ "'")%string.
  reflexivity.
Qed.

(** ** Platforms without a rule *)

(** X10. On a platform that is neither macOS nor Linux the locator finds
    nothing in any tree, so that no fresh download succeeds. *)
Theorem no_binary_on_other_platforms (env : Env) (url : string)
  (options : Options) (fs : node) (name : string) :
  platform env = otherPlatform name ->
  (forall dir here, fst (findIn (platform env) dir here) = None)
  /\ exists e, res (freshDownload env url options fs) = Throw e.
Proof.
  intros Hplat.
  assert (Hnone : forall dir here, fst (findIn (platform env) dir here) = None).
  { intros dir here. apply findIn_noMatch. unfold noMatch.
    apply forallb_forall. intros sub _. now rewrite Hplat. }
  split; [exact Hnone|].
  unfold freshDownload.
  destruct (fetchAndExtract env url options fs) as [[[]|e] fs1 ev1] eqn:E1.
  - rewrite (bind_ok _ E1). cbn [res].
    rewrite (locateAndRecord_none env (extractDirOf env url options)
               (cacheFileOf env url options) fs1 (Hnone _ _)). eauto.
  - rewrite (bind_throw _ E1). cbn [res]. eauto.
Qed.

(** ** What the locator returns exists *)

Lemma join_assoc (a b c : string) :
  Js.join (Js.join a b) c = Js.join a (Js.join b c).
Proof. unfold Js.join. now rewrite append_assoc. Qed.

Lemma components_plain (name : string) :
  plainName name = true -> components name = [name].
Proof.
  unfold plainName, components. intros H. apply andb_true_iff in H as [_ Hl].
  now apply split_lacks.
Qed.

Lemma properPath_plain (name : string) :
  plainName name = true -> properPath name = true.
Proof.
  intros H. unfold properPath. rewrite (components_plain _ H). simpl.
  apply andb_true_iff in H as [-> _]. reflexivity.
Qed.

Lemma properPath_join (a b : string) :
  properPath a = true -> properPath b = true -> properPath (Js.join a b) = true.
Proof.
  unfold properPath. intros Ha Hb. now rewrite components_join, forallb_app, Ha, Hb.
Qed.

Lemma lookup_plain (name : string) (entries : list (string * node)) :
  plainName name = true -> lookup name (Dir entries) = entry name entries.
Proof.
  intros H. rewrite (lookup_proper _ _ (properPath_plain _ H)).
  rewrite (components_plain _ H). simpl.
  now destruct (entry name entries).
Qed.

Lemma In_entry (name : string) (c : node) (entries : list (string * node)) :
  In (name, c) entries -> entry name entries <> None.
Proof.
  induction entries as [|[n c0] rest IH]; simpl; [contradiction|].
  intros [H|H].
  - injection H as -> ->. now rewrite String.eqb_refl.
  - destruct (String.eqb n name); [discriminate | auto].
Qed.

Lemma entry_unique (name : string) (c : node) (entries : list (string * node)) :
  uniqueNames (map fst entries) = true ->
  In (name, c) entries -> entry name entries = Some c.
Proof.
  induction entries as [|[n c0] rest IH]; simpl; [contradiction|].
  intros Hu Hin. apply andb_true_iff in Hu as [Hfresh Hu].
  destruct Hin as [H|H].
  - injection H as -> ->. now rewrite String.eqb_refl.
  - destruct (String.eqb n name) eqn:E; [|auto].
    apply String.eqb_eq in E. subst n. exfalso.
    apply negb_true_iff in Hfresh.
    assert (Hex : existsb (String.eqb name) (map fst rest) = true).
    { apply existsb_exists. exists name. split; [|apply String.eqb_refl].
      apply in_map_iff. now exists (name, c). }
    congruence.
Qed.

Lemma wellFormed_entry (entries : list (string * node)) (e : string * node) :
  wellFormed (Dir entries) = true -> In e entries ->
  plainName (fst e) = true /\ wellFormed (snd e) = true.
Proof.
  cbn [wellFormed]. intros H Hin.
  apply andb_true_iff in H as [H Hsub]. apply andb_true_iff in H as [Hplain _].
  rewrite forallb_forall in Hplain, Hsub. split.
  - apply Hplain. now apply in_map.
  - now apply Hsub.
Qed.

Lemma wellFormed_walk (segs : list string) :
  forall t sub, wellFormed t = true -> walk segs t = Some sub ->
                wellFormed sub = true.
Proof.
  induction segs as [|s rest IH]; intros t sub Hwf H; simpl in H.
  - now injection H as <-.
  - destruct t as [content|es|]; try discriminate.
    destruct (entry s es) as [c|] eqn:E; [|discriminate].
    apply (IH c sub); [|exact H].
    apply entry_In in E. now apply (wellFormed_entry es (s, c)).
Qed.

Lemma executableNames_proper (name : string) :
  In name executableNames -> properPath name = true.
Proof.
  intros H. repeat (destruct H as [<-|H]; [reflexivity|]). contradiction.
Qed.

Lemma searchBundle_present (dir : string) (here : node) (b : string * node)
  (p : string) :
  wellFormed here = true ->
  plainName (fst b) = true ->
  fst (searchBundle dir here b) = Some p ->
  exists rel,
    p = Js.join dir rel /\ properPath rel = true /\ present rel here = true.
Proof.
  intros Hwf Hb. unfold searchBundle.
  set (inBundle := Js.join3 (fst b) "Contents" "MacOS").
  assert (Hin : properPath inBundle = true).
  { unfold inBundle, Js.join3.
    repeat apply properPath_join; [now apply properPath_plain | reflexivity..]. }
  destruct (lookup inBundle here) as [macOS|] eqn:Em; [|discriminate].
  destruct (find (fun execName => present execName macOS) executableNames)
    as [execName|] eqn:En.
  - cbn [fst]. intros H. injection H as <-.
    apply find_some in En as [Hname Hp].
    pose proof (executableNames_proper _ Hname) as Hproper.
    exists (Js.join inBundle execName).
    split; [apply join_assoc|]. split; [now apply properPath_join|].
    unfold present in *. now rewrite (lookup_join _ _ _ _ Em Hproper).
  - destruct macOS as [content|macEntries|]; try discriminate.
    destruct (find (fun e => isFile (snd e)) macEntries) as [e|] eqn:Ef;
      [|discriminate].
    cbn [fst]. intros H. injection H as <-.
    apply find_some in Ef as [He _].
    assert (Hm : wellFormed (Dir macEntries) = true).
    { rewrite (lookup_proper _ _ Hin) in Em.
      apply (wellFormed_walk _ _ _ Hwf Em). }
    destruct (wellFormed_entry _ _ Hm He) as [Hplain _].
    exists (Js.join inBundle (fst e)).
    split; [apply join_assoc|].
    split; [apply properPath_join; [exact Hin | now apply properPath_plain]|].
    unfold present.
    rewrite (lookup_join _ _ _ _ Em (properPath_plain _ Hplain)).
    rewrite (lookup_plain _ _ Hplain).
    destruct e as [n c]. pose proof (In_entry _ _ _ He) as Hne. cbn [fst].
    now destruct (entry n macEntries).
Qed.

Lemma localRule_present (plat : Platform) (dir : string) (here : node) (p : string) :
  wellFormed here = true ->
  localRule plat dir here = Some p ->
  exists rel,
    p = Js.join dir rel /\ properPath rel = true /\ present rel here = true.
Proof.
  intros Hwf. destruct plat as [| |name]; cbn [localRule].
  - unfold bundleRule. destruct here as [content|entries|]; try discriminate.
    intros H. apply firstFound_some in H as [b [Hin Hb]].
    apply filter_In in Hin as [Hin _].
    destruct (wellFormed_entry _ _ Hwf Hin) as [Hplain _].
    now apply (searchBundle_present dir _ b).
  - unfold linuxRule.
    destruct (find (fun q => present q here) linuxPaths) as [rel|] eqn:E;
      [|discriminate].
    intros H. injection H as <-. apply find_some in E as [Hin Hp].
    exists rel. split; [reflexivity|]. split; [|exact Hp].
    repeat (destruct Hin as [<-|Hin]; [reflexivity|]). contradiction.
  - discriminate.
Qed.

(** On a well-formed tree, what the locator returns is the path of an
    entry of the tree. *)
Lemma findIn_present (plat : Platform) (here : node) :
  wellFormed here = true ->
  forall dir p,
    fst (findIn plat dir here) = Some p ->
    exists rel,
      p = Js.join dir rel /\ properPath rel = true /\ present rel here = true.
Proof.
  induction here as [content|entries IH|] using node_induction; intros Hwf dir p H.
  - rewrite findIn_not_a_directory in H by reflexivity. discriminate.
  - rewrite findIn_eq in H. apply findBody_some in H as [H|[e [Hin [Hd H]]]].
    + now apply (localRule_present plat).
    + rewrite Forall_forall in IH.
      destruct (wellFormed_entry _ _ Hwf Hin) as [Hplain Hsub].
      destruct (IH e Hin Hsub _ _ H) as [rel [-> [Hproper Hrel]]].
      exists (Js.join (fst e) rel). split; [apply join_assoc|].
      split; [apply properPath_join; [now apply properPath_plain | exact Hproper]|].
      assert (Hu : uniqueNames (map fst entries) = true).
      { cbn [wellFormed] in Hwf. apply andb_true_iff in Hwf as [Hwf _].
        now apply andb_true_iff in Hwf as [_ Hwf]. }
      assert (He : lookup (fst e) (Dir entries) = Some (snd e)).
      { rewrite (lookup_plain _ _ Hplain). destruct e as [n c].
        exact (entry_unique _ _ _ Hu Hin). }
      unfold present in *. now rewrite (lookup_join _ _ _ _ He Hproper).
  - rewrite findIn_not_a_directory in H by reflexivity. discriminate.
Qed.

(** X11. The path the locator returns exists on the filesystem it searched,
    when the extraction tree is well formed. *)
Theorem located_binary_exists (plat : Platform) (extractDir : string)
  (fs here : node) (binaryPath : string) :
  lookup extractDir fs = Some here ->
  wellFormed here = true ->
  fst (findIn plat extractDir here) = Some binaryPath ->
  present binaryPath fs = true.
Proof.
  intros Hlook Hwf Hfound.
  destruct (findIn_present plat here Hwf _ _ Hfound) as [rel [-> [Hproper Hrel]]].
  now rewrite (existsSync_in_tree _ _ _ _ Hlook Hproper).
Qed.

(** ** The rules of the two platforms *)

(** X12. On Linux, a tree with [firefox/firefox-bin] and without
    [firefox/firefox] under the extraction directory yields the path of
    [firefox-bin]. *)
Theorem linux_falls_back_to_firefox_bin (extractDir : string) (here : node) :
  present (Js.join "firefox" "firefox") here = false ->
  present (Js.join "firefox" "firefox-bin") here = true ->
  fst (findIn linux extractDir here)
  = Some (extractDir ++ "/firefox/firefox-bin")%string.
Proof.
  intros H1 H2. rewrite findIn_eq. unfold findBody.
  cbn [darwinBlock linuxBlock notFound].
  unfold linuxRule, linuxPaths. cbn [find]. rewrite H1, H2. reflexivity.
Qed.

Lemma darwin_first_bundle (dir : string) (entries others : list (string * node))
  (bundle : string * node) (p : string) :
  filter isAppBundle entries = bundle :: others ->
  fst (searchBundle dir (Dir entries) bundle) = Some p ->
  fst (findIn darwin dir (Dir entries)) = Some p.
Proof.
  intros Hfilter Hsearch. rewrite findIn_eq. unfold findBody.
  cbn [darwinBlock]. unfold bundleRule. rewrite Hfilter. cbn [firstFound].
  destruct (searchBundle dir (Dir entries) bundle) as [[q|] ev];
    cbn [fst] in *; [|discriminate].
  now injection Hsearch as ->.
Qed.

(** X13. On macOS, when the first [.app] bundle of the extraction directory has
    one of the known executable names in [Contents/MacOS], the locator
    returns the first of them in the order of the list, whatever else the
    directory holds. *)
Theorem darwin_known_executable (dir : string)
  (entries others : list (string * node)) (bundle : string * node)
  (macOS : node) (name : string) :
  filter isAppBundle entries = bundle :: others ->
  lookup (Js.join3 (fst bundle) "Contents" "MacOS") (Dir entries) = Some macOS ->
  find (fun execName => present execName macOS) executableNames = Some name ->
  fst (findIn darwin dir (Dir entries))
  = Some (Js.join (Js.join dir (Js.join3 (fst bundle) "Contents" "MacOS")) name).
Proof.
  intros Hfilter Hlook Hfind. apply (darwin_first_bundle dir entries others bundle).
  - exact Hfilter.
  - unfold searchBundle. now rewrite Hlook, Hfind.
Qed.

(** X14. On macOS, when [Contents/MacOS] of the first bundle has none of the
    known names, the locator returns its first regular file in listing
    order. *)
Theorem darwin_first_regular_file (dir : string)
  (entries others macEntries : list (string * node)) (bundle file : string * node) :
  filter isAppBundle entries = bundle :: others ->
  lookup (Js.join3 (fst bundle) "Contents" "MacOS") (Dir entries)
    = Some (Dir macEntries) ->
  find (fun execName => present execName (Dir macEntries)) executableNames = None ->
  find (fun e => isFile (snd e)) macEntries = Some file ->
  fst (findIn darwin dir (Dir entries))
  = Some (Js.join (Js.join dir (Js.join3 (fst bundle) "Contents" "MacOS")) (fst file)).
Proof.
  intros Hfilter Hlook Hnames Hfile.
  apply (darwin_first_bundle dir entries others bundle).
  - exact Hfilter.
  - unfold searchBundle. now rewrite Hlook, Hnames, Hfile.
Qed.

(** ** The disk image: the failures *)

(** X15. When the mount command succeeds and its output has no line with a
    volume path, [extractDmg] throws at once: nothing is listed or copied,
    and the image is not unmounted. *)
Theorem unparsable_mount_output (env : Env) (dmgPath extractDir : string)
  (fs fs1 : node) (attachOutput : string) :
  exec env (attachCommand dmgPath) fs = (Ok attachOutput, fs1) ->
  matchVolumes attachOutput = None ->
  extractDmg env dmgPath extractDir fs =
    Outcome (Throw (Error "Could not determine DMG mount point")) fs1
      [ELog "Mounting DMG..."; EExec (attachCommand dmgPath)].
Proof.
  intros Hattach Hmatch. unfold extractDmg.
  rewrite (bind_ok (fs := fs) _ (eq_refl : emit _ fs = Outcome (Ok tt) fs [_])).
  cbv beta.
  rewrite (bind_ok _ (execAsync_run env _ fs fs1 _ Hattach)).
  rewrite Hmatch. reflexivity.
Qed.



(** ** The dispatch on [.dmg] *)

(** Of two suffixes of one string, the shorter is a suffix of the
    longer. *)
Lemma endsWith_both (s a b : string) :
  Js.endsWith s a = true -> Js.endsWith s b = true ->
  String.length a <= String.length b -> Js.endsWith b a = true.
Proof.
  rewrite !endsWith_spec. intros [p1 H1] [p2 H2] Hlen. subst s.
  apply append_eq_append in H2 as [[r [_ H]]|[r [_ H]]].
  - assert (r = EmptyString).
    { apply (f_equal String.length) in H. rewrite length_append in H.
      destruct r; [reflexivity | simpl in H; lia]. }
    subst r. exists EmptyString. simpl in *. now subst.
  - exists r. exact H.
Qed.

Lemma dmg_is_no_tarball (p : string) :
  Js.endsWith p ".dmg" = true ->
  Js.endsWith p ".tar.bz2" = false /\ Js.endsWith p ".tar.gz" = false.
Proof.
  intros H. split.
  - destruct (Js.endsWith p ".tar.bz2") eqn:E; [|reflexivity].
    pose proof (endsWith_both p ".dmg" ".tar.bz2" H E) as Hc.
    simpl in Hc. specialize (Hc ltac:(lia)). discriminate.
  - destruct (Js.endsWith p ".tar.gz") eqn:E; [|reflexivity].
    pose proof (endsWith_both p ".dmg" ".tar.gz" H E) as Hc.
    simpl in Hc. specialize (Hc ltac:(lia)). discriminate.
Qed.

(** X17. A file whose name ends in [.dmg] is mounted with [hdiutil] on every
    platform: where the command fails, the dispatch throws the extraction
    failure that carries its message, and runs nothing else. *)
Theorem dmg_is_mounted_on_every_platform (env : Env)
  (downloadPath extractDir : string) (fs fs1 : node) (e : exn) :
  Js.endsWith downloadPath ".dmg" = true ->
  exec env (attachCommand downloadPath) fs = (Throw e, fs1) ->
  extractArchive env downloadPath extractDir fs =
    Outcome (Throw (Error ("Failed to extract Firefox archive: " ++ message e))) fs1
      [ELog "Mounting DMG..."; EExec (attachCommand downloadPath)].
Proof.
  intros Hdmg Hattach. destruct (dmg_is_no_tarball _ Hdmg) as [H1 H2].
  unfold extractArchive. rewrite H1, H2, Hdmg.
  unfold tryCatch, extractDmg.
  rewrite (bind_ok (fs := fs) _ (eq_refl : emit _ fs = Outcome (Ok tt) fs [_])).
  cbv beta.
  rewrite (bind_throw _ (execAsync_run env _ fs fs1 _ Hattach)).
  reflexivity.
Qed.

(** ** The two patterns *)

Lemma takeWhile_dropWhile {A : Type} (p : A -> bool) (l : list A) :
  l = Js.takeWhile p l ++ Js.dropWhile p l.
Proof.
  induction l as [|c l IH]; simpl; [reflexivity|].
  destruct (p c); simpl; [now rewrite <- IH | reflexivity].
Qed.

Lemma takeWhile_holds {A : Type} (p : A -> bool) (l : list A) :
  forallb p (Js.takeWhile p l) = true.
Proof.
  induction l as [|c l IH]; simpl; [reflexivity|].
  destruct (p c) eqn:E; simpl; [now rewrite E, IH | reflexivity].
Qed.

Lemma takeWhile_head {A : Type} (p : A -> bool) (l : list A) (c : A) (t : list A) :
  Js.takeWhile p l = c :: t -> exists l', l = c :: l'.
Proof.
  destruct l as [|x l]; simpl; [discriminate|].
  destruct (p x); [|discriminate]. intros H. injection H as -> _. eauto.
Qed.

Lemma stopsAt_dropWhile (p : string -> bool) (l : list string) :
  stopsAt p (Js.dropWhile p l).
Proof.
  induction l as [|c l IH]; simpl; [now left|].
  destruct (p c) eqn:E; [exact IH | right; eauto].
Qed.

Lemma takeWhile_app {A : Type} (p : A -> bool) (l1 l2 : list A) :
  forallb p l1 = true -> Js.takeWhile p (l1 ++ l2) = l1 ++ Js.takeWhile p l2.
Proof.
  induction l1 as [|c l1 IH]; simpl; [reflexivity|].
  intros H. apply andb_true_iff in H as [-> H]. now rewrite IH.
Qed.

Lemma takeWhile_until (p : string -> bool) (l rest : list string) :
  forallb p l = true -> stopsAt p rest -> Js.takeWhile p (l ++ rest) = l.
Proof.
  intros Hl Hs. rewrite (takeWhile_app _ _ _ Hl).
  destruct Hs as [->|[c [more [-> Hc]]]]; simpl.
  - apply app_nil_r.
  - rewrite Hc. apply app_nil_r.
Qed.

(** The characters of a string make up the string, and none is empty. *)
Lemma text_chars (s : string) : Js.text (Js.chars s) = s.
Proof.
  induction s as [|c s IH]; [reflexivity|]. cbn [Js.chars].
  destruct (Js.chars s) as [|h t]; simpl in *.
  - now rewrite <- IH.
  - destruct (Js.startsChar s); simpl; now rewrite IH.
Qed.

Lemma chars_nil (s : string) : Js.chars s = [] -> s = EmptyString.
Proof. intros H. rewrite <- (text_chars s), H. reflexivity. Qed.

Lemma chars_head (s c : string) (l : list string) :
  Js.chars s = c :: l -> c <> EmptyString.
Proof.
  destruct s as [|x s]; [discriminate|]. cbn [Js.chars].
  destruct (Js.chars s) as [|h t].
  - intros H. injection H as <- _. discriminate.
  - destruct (Js.startsChar s); intros H; injection H as <- _; discriminate.
Qed.

Lemma text_cons_nonempty (c : string) (l : list string) :
  c <> EmptyString -> exists a s, Js.text (c :: l) = String a s.
Proof. destruct c as [|a c]; [congruence|]. simpl. eauto. Qed.

(** A string is cut into characters piece by piece, where the pieces
    begin characters. *)
Lemma chars_app (a b : string) :
  Js.startsChar b = true -> Js.chars (a ++ b) = Js.chars a ++ Js.chars b.
Proof.
  intros Hb. induction a as [|c a IH]; [reflexivity|].
  cbn [append Js.chars]. rewrite IH.
  destruct a as [|d a].
  - simpl. destruct (Js.chars b) as [|h t] eqn:Eb; [reflexivity|].
    now rewrite Hb.
  - cbn [append]. change (Js.startsChar (String d (a ++ b)))
      with (Js.startsChar (String d a)).
    destruct (Js.chars (String d a)) as [|h t] eqn:Ea.
    + apply chars_nil in Ea. discriminate.
    + simpl. now destruct (Js.isContinuation d).
Qed.

Lemma startsChar_append (a b : string) :
  a <> EmptyString -> Js.startsChar (a ++ b) = Js.startsChar a.
Proof. destruct a; [congruence | reflexivity]. Qed.

(** A white space begins a character. *)
Lemma isSpace_startsChar (c : string) :
  Js.isSpace c = true -> c <> EmptyString /\ Js.startsChar c = true.
Proof.
  unfold Js.isSpace. intros H. apply existsb_exists in H as [w [Hin Heq]].
  apply String.eqb_eq in Heq. subst w. cbv in Hin.
  repeat (destruct Hin as [<-|Hin]; [split; [discriminate | reflexivity]|]).
  contradiction.
Qed.

Lemma stopsAt_startsChar (rest : string) :
  stopsAt (fun c => negb (Js.isSpace c)) (Js.chars rest) ->
  Js.startsChar rest = true.
Proof.
  intros [H|[c [more [H Hc]]]].
  - now rewrite (chars_nil _ H).
  - apply negb_false_iff in Hc. destruct (isSpace_startsChar _ Hc) as [Hne Hs].
    rewrite <- (text_chars rest), H. cbn [Js.text].
    now rewrite startsChar_append.
Qed.

Lemma prefix_append (a s : string) :
  prefix a s = true ->
  s = (a ++ substring (String.length a) (String.length s - String.length a) s)%string.
Proof.
  revert s. induction a as [|x a IH]; intros s H.
  - simpl. now rewrite Nat.sub_0_r, substring_whole.
  - destruct s as [|y s]; simpl in H; [discriminate|].
    destruct (ascii_dec x y) as [->|]; [|discriminate].
    simpl. f_equal. now apply IH.
Qed.

Lemma matchVolumes_cons (c : ascii) (rest : string) :
  matchVolumes (String c rest) =
  if prefix "/Volumes/" (String c rest) then
    match restOfLine (substring 9 (String.length (String c rest) - 9) (String c rest)) with
    | EmptyString => matchVolumes rest
    | line => Some ("/Volumes/" ++ line)%string
    end
  else matchVolumes rest.
Proof. reflexivity. Qed.

(** X18. The mount point read from the output of the mount command is a piece
    of that output: [/Volumes/] followed by at least one character, none
    of them a line terminator, up to the end of the output or to the next
    line terminator. *)
Theorem mount_point_shape (attachOutput mountMatch : string) :
  matchVolumes attachOutput = Some mountMatch ->
  exists (before : string) (line after : list string),
    attachOutput = (before ++ "/Volumes/" ++ Js.text (line ++ after))%string
    /\ Js.chars (Js.text (line ++ after)) = line ++ after
    /\ mountMatch = ("/Volumes/" ++ Js.text line)%string
    /\ line <> []
    /\ forallb (fun c => negb (Js.isLineEnd c)) line = true
    /\ stopsAt (fun c => negb (Js.isLineEnd c)) after.
Proof.
  induction attachOutput as [|c rest IH]; [discriminate|].
  rewrite matchVolumes_cons.
  assert (Hlater : matchVolumes rest = Some mountMatch ->
            exists (before : string) (line after : list string),
              String c rest = (before ++ "/Volumes/" ++ Js.text (line ++ after))%string
              /\ Js.chars (Js.text (line ++ after)) = line ++ after
              /\ mountMatch = ("/Volumes/" ++ Js.text line)%string
              /\ line <> []
              /\ forallb (fun c => negb (Js.isLineEnd c)) line = true
              /\ stopsAt (fun c => negb (Js.isLineEnd c)) after).
  { intros H. destruct (IH H) as [before [line [after [-> Hrest]]]].
    exists (String c before), line, after. split; [reflexivity | exact Hrest]. }
  destruct (prefix "/Volumes/" (String c rest)) eqn:Ep; [|exact Hlater].
  apply prefix_append in Ep.
  set (tail := substring (String.length "/Volumes/")
                 (String.length (String c rest) - String.length "/Volumes/")
                 (String c rest)) in *.
  change (substring 9 (String.length (String c rest) - 9) (String c rest)) with tail.
  unfold restOfLine.
  set (notEnd := fun c : string => negb (Js.isLineEnd c)).
  pose proof (takeWhile_dropWhile notEnd (Js.chars tail)) as Hcut.
  destruct (Js.takeWhile notEnd (Js.chars tail)) as [|x line] eqn:El;
    [exact Hlater|].
  assert (Hx : x <> EmptyString).
  { destruct (takeWhile_head _ _ _ _ El) as [l' Hl']. exact (chars_head _ _ _ Hl'). }
  destruct (text_cons_nonempty x line Hx) as [a [s Hs]]. rewrite Hs.
  intros H. injection H as <-.
  exists EmptyString, (x :: line), (Js.dropWhile notEnd (Js.chars tail)).
  rewrite <- Hcut, text_chars.
  split; [exact Ep|]. split; [reflexivity|]. split; [now rewrite Hs|].
  split; [discriminate|]. split; [|apply stopsAt_dropWhile].
  rewrite <- El. apply takeWhile_holds.
Qed.

Lemma matchVersion_cons (c : ascii) (rest : string) :
  matchVersion (String c rest) =
  if prefix "Firefox" (String c rest) then
    let after :=
      Js.chars (substring 7 (String.length (String c rest) - 7) (String c rest)) in
    match after with
    | c :: _ =>
        if Js.isSpace c then
          match Js.takeWhile (fun c => negb (Js.isSpace c))
                  (Js.dropWhile Js.isSpace after) with
          | [] => matchVersion rest
          | token => Some (Js.text token)
          end
        else matchVersion rest
    | [] => matchVersion rest
    end
  else matchVersion rest.
Proof. reflexivity. Qed.

(** X19. The version read from the output of the binary is a piece of that
    output: it follows the word [Firefox] and at least one white space
    character, is not empty, has no white space character and ends at a
    white space character or at the end of the output. *)
Theorem version_token_shape (stdout version : string) :
  matchVersion stdout = Some version ->
  exists (before : string) (spaces token after : list string),
    stdout = (before ++ "Firefox" ++ Js.text (spaces ++ token ++ after))%string
    /\ Js.chars (Js.text (spaces ++ token ++ after)) = spaces ++ token ++ after
    /\ version = Js.text token
    /\ spaces <> []
    /\ forallb Js.isSpace spaces = true
    /\ token <> []
    /\ forallb (fun c => negb (Js.isSpace c)) token = true
    /\ stopsAt (fun c => negb (Js.isSpace c)) after.
Proof.
  induction stdout as [|c rest IH]; [discriminate|].
  rewrite matchVersion_cons.
  assert (Hlater : matchVersion rest = Some version ->
            exists (before : string) (spaces token after : list string),
              String c rest
              = (before ++ "Firefox" ++ Js.text (spaces ++ token ++ after))%string
              /\ Js.chars (Js.text (spaces ++ token ++ after))
                 = spaces ++ token ++ after
              /\ version = Js.text token
              /\ spaces <> []
              /\ forallb Js.isSpace spaces = true
              /\ token <> []
              /\ forallb (fun c => negb (Js.isSpace c)) token = true
              /\ stopsAt (fun c => negb (Js.isSpace c)) after).
  { intros H. destruct (IH H) as [before [spaces [token [after [-> Hrest]]]]].
    exists (String c before), spaces, token, after.
    split; [reflexivity | exact Hrest]. }
  destruct (prefix "Firefox" (String c rest)) eqn:Ep; [|exact Hlater].
  apply prefix_append in Ep.
  set (tail := substring (String.length "Firefox")
                 (String.length (String c rest) - String.length "Firefox")
                 (String c rest)) in *.
  change (substring 7 (String.length (String c rest) - 7) (String c rest)) with tail.
  cbv zeta.
  destruct (Js.chars tail) as [|s l] eqn:Et; [exact Hlater|].
  destruct (Js.isSpace s) eqn:Es; [|exact Hlater].
  set (notSpace := fun c : string => negb (Js.isSpace c)).
  set (blank := Js.takeWhile Js.isSpace (s :: l)).
  set (afterBlank := Js.dropWhile Js.isSpace (s :: l)).
  destruct (Js.takeWhile notSpace afterBlank) as [|t token] eqn:Etok;
    [exact Hlater|].
  intros H. injection H as <-.
  exists EmptyString, blank, (t :: token), (Js.dropWhile notSpace afterBlank).
  assert (Hcut : blank ++ (t :: token) ++ Js.dropWhile notSpace afterBlank = s :: l).
  { rewrite <- Etok, <- (takeWhile_dropWhile notSpace afterBlank).
    symmetry. apply takeWhile_dropWhile. }
  rewrite Hcut, <- Et, text_chars.
  split; [exact Ep|]. split; [reflexivity|]. split; [reflexivity|].
  split; [subst blank; simpl; rewrite Es; discriminate|].
  split; [apply takeWhile_holds|]. split; [discriminate|].
  split; [|apply stopsAt_dropWhile].
  rewrite <- Etok. apply takeWhile_holds.
Qed.

Lemma prefix_self_append (a s : string) : prefix a (a ++ s) = true.
Proof.
  induction a as [|x a IH]; simpl; [now destruct s|].
  destruct (ascii_dec x x); [exact IH | congruence].
Qed.

Lemma matchVersion_skip (c : ascii) (rest : string) :
  c <> "F"%char -> matchVersion (String c rest) = matchVersion rest.
Proof.
  intros Hc. rewrite matchVersion_cons. cbn [prefix].
  destruct (ascii_dec "F" c); [congruence | reflexivity].
Qed.

Lemma matchVersion_found (tail c t : string) (l token : list string) :
  Js.chars tail = c :: l ->
  Js.isSpace c = true ->
  Js.takeWhile (fun c => negb (Js.isSpace c)) (Js.dropWhile Js.isSpace (c :: l))
    = t :: token ->
  matchVersion ("Firefox" ++ tail) = Some (Js.text (t :: token)).
Proof.
  intros Htail Hc Htok.
  change ("Firefox" ++ tail)%string with (String "F" ("irefox" ++ tail)).
  rewrite matchVersion_cons.
  change (String "F" ("irefox" ++ tail)) with ("Firefox" ++ tail)%string.
  rewrite prefix_self_append. cbv zeta.
  replace (String.length ("Firefox" ++ tail) - 7) with (String.length tail)
    by (rewrite length_append; simpl; lia).
  rewrite (substring_skip "Firefox" tail), substring_whole.
  now rewrite Htail, Hc, Htok.
Qed.

(** X20. On the output [Mozilla Firefox <version>], alone or followed by a
    white space character and more, the probe reads the version: any
    string of characters none of which is white space. *)
Theorem standard_version_output (version rest : string) :
  version <> EmptyString ->
  Js.startsChar version = true ->
  forallb (fun c => negb (Js.isSpace c)) (Js.chars version) = true ->
  stopsAt (fun c => negb (Js.isSpace c)) (Js.chars rest) ->
  matchVersion ("Mozilla Firefox " ++ version ++ rest) = Some version.
Proof.
  intros Hne Hstart Hv Hrest.
  change ("Mozilla Firefox " ++ version ++ rest)%string
    with (String "M" (String "o" (String "z" (String "i" (String "l" (String "l"
           (String "a" (String " " ("Firefox" ++ " " ++ version ++ rest))))))))).
  rewrite !matchVersion_skip by discriminate.
  assert (Hchars : Js.chars (" " ++ version ++ rest)
                   = " "%string :: Js.chars version ++ Js.chars rest).
  { rewrite (chars_app " " (version ++ rest))
      by (now rewrite startsChar_append).
    rewrite (chars_app version rest) by (now apply stopsAt_startsChar).
    reflexivity. }
  destruct (Js.chars version) as [|v0 token] eqn:Ev.
  { apply chars_nil in Ev. congruence. }
  cbn [forallb] in Hv. apply andb_true_iff in Hv as [Hv0 Htoken].
  rewrite (matchVersion_found (" " ++ version ++ rest) " " v0
             ((v0 :: token) ++ Js.chars rest) token).
  - now rewrite <- Ev, text_chars.
  - exact Hchars.
  - reflexivity.
  - cbn [Js.dropWhile]. change (Js.isSpace " ") with true. cbv iota.
    cbn [app Js.dropWhile]. apply negb_true_iff in Hv0. rewrite Hv0.
    cbn [Js.takeWhile]. rewrite Hv0. cbn [negb]. f_equal.
    now apply takeWhile_until.
Qed.

(** * Properties of the command line *)

Lemma includes_middle (x : string) (before after : list string) :
  Cli.includes x (before ++ x :: after) = true.
Proof.
  unfold Cli.includes. rewrite existsb_app. simpl.
  now rewrite String.eqb_refl, orb_true_r.
Qed.

(** X21. Without arguments the script prints its usage and ends with code 1;
    with [--help] or [-h] anywhere among the arguments it prints the usage
    and ends with code 0. In both cases it does nothing else: no download
    is started. *)
Theorem usage_and_exit_code (env : Env) (rt : Cli.Runtime) (fs : node) :
  let args := skipn 2 (Cli.argv rt) in
  (args = []
   \/ exists before flag after,
        args = before ++ flag :: after /\ (flag = "--help" \/ flag = "-h")) ->
  Cli.main env rt fs =
    Outcome (Ok (Cli.mkExit (match args with [] => 1 | _ => 0 end) None)) fs
            [ELog Cli.usage].
Proof.
  intros args H. unfold Cli.main. fold args.
  destruct H as [->|[before [flag [after [Hargs Hflag]]]]].
  - reflexivity.
  - assert (Hhelp : Cli.helpRequested args = true).
    { unfold Cli.helpRequested. rewrite Hargs.
      destruct Hflag as [->| ->]; rewrite includes_middle;
        [reflexivity | apply orb_true_r]. }
    rewrite Hhelp, orb_true_r.
    destruct args as [|a l]; [now destruct before|]. reflexivity.
Qed.

Lemma indexOf_first (x : string) (before after : list string) :
  Cli.includes x before = false ->
  Cli.indexOf x (before ++ x :: after) = Some (List.length before).
Proof.
  unfold Cli.includes. induction before as [|y before IH]; simpl.
  - now rewrite String.eqb_refl.
  - intros H. apply orb_false_iff in H as [Hy Hb].
    rewrite String.eqb_sym, Hy. now rewrite (IH Hb).
Qed.

Lemma nth_error_after (before : list string) (x : string) (after : list string) :
  nth_error (before ++ x :: after) (List.length before + 1) = nth_error after 0.
Proof.
  induction before as [|y before IH]; simpl; [reflexivity | exact IH].
Qed.

(** X22. The value that follows the first [--cache-dir] is the cache directory
    of the download, whatever it looks like and whatever else is given. *)
Theorem cache_dir_option_is_used (env : Env) (before after : list string)
  (value : string) :
  Cli.includes "--cache-dir" before = false ->
  value <> EmptyString ->
  cacheDirOf env (Cli.optionsOf (before ++ "--cache-dir" :: value :: after)) = value.
Proof.
  intros Hfirst Hvalue. unfold cacheDirOf, Cli.optionsOf, Cli.cacheDirArg.
  cbn [cacheDir]. rewrite (indexOf_first _ _ _ Hfirst), nth_error_after.
  simpl. now destruct value.
Qed.

(** X23. A [--cache-dir] that is the last argument, or that is followed by an
    empty argument, is passed over in silence: the download uses the
    default directory under the temporary directory. *)
Theorem cache_dir_without_value_is_ignored (env : Env)
  (before after : list string) :
  Cli.includes "--cache-dir" before = false ->
  cacheDirOf env (Cli.optionsOf (before ++ ["--cache-dir"]))
    = Js.join (tmpdir env) "firefox-downloads"
  /\ cacheDirOf env (Cli.optionsOf (before ++ "--cache-dir" :: EmptyString :: after))
     = Js.join (tmpdir env) "firefox-downloads".
Proof.
  intros Hfirst. unfold cacheDirOf, Cli.optionsOf, Cli.cacheDirArg.
  cbn [cacheDir]. rewrite !(indexOf_first _ _ _ Hfirst), !nth_error_after.
  split; reflexivity.
Qed.

Lemma main_downloads (env : Env) (rt : Cli.Runtime) (fs : node) :
  let args := skipn 2 (Cli.argv rt) in
  args <> [] ->
  Cli.helpRequested args = false ->
  Cli.main env rt fs =
    tryCatch
      (emit (ELog (Cli.nl ++ "Downloading Firefox from: "
                   ++ nth 0 args EmptyString ++ Cli.nl)) ;;
       result <- downloadFirefox env (nth 0 args EmptyString) (Cli.optionsOf args) ;;
       Cli.report rt (Cli.includes "--output-env" args) result)
      (fun err =>
         emit (EWarn (Cli.nl ++ Cli.crossMark ++ " Error: " ++ message err)) ;;
         ret (Cli.mkExit 1 None)) fs.
Proof.
  intros args Hargs Hhelp. unfold Cli.main. fold args. rewrite Hhelp.
  destruct args; [congruence | reflexivity].
Qed.

(** X24. When the download throws, the script prints the message of the error
    on the error stream and ends with code 1; it writes no file of its own
    and exports nothing. *)
Theorem failed_download_exits_one (env : Env) (rt : Cli.Runtime) (fs : node)
  (e : exn) :
  let args := skipn 2 (Cli.argv rt) in
  let download :=
    downloadFirefox env (nth 0 args EmptyString) (Cli.optionsOf args) fs in
  args <> [] ->
  Cli.helpRequested args = false ->
  res download = Throw e ->
  Cli.main env rt fs =
    Outcome (Ok (Cli.mkExit 1 None)) (fs_after download)
      (ELog (Cli.nl ++ "Downloading Firefox from: " ++ nth 0 args EmptyString ++ Cli.nl)
       :: events download
       ++ [EWarn (Cli.nl ++ Cli.crossMark ++ " Error: " ++ message e)]).
Proof.
  intros args download Hargs Hhelp Hres.
  rewrite (main_downloads env rt fs Hargs Hhelp). fold args.
  unfold tryCatch.
  rewrite (bind_ok (fs := fs) _ (eq_refl : emit _ fs = Outcome (Ok tt) fs [_])).
  cbv beta. fold download.
  destruct download as [r fs1 ev1] eqn:Ed. cbn [res] in Hres. subst r.
  subst download. rewrite (bind_throw _ Ed). reflexivity.
Qed.

Lemma walk_put_exists (segs : list string) (new : node) :
  forall t sub, walk segs t = Some sub -> put segs new t <> None.
Proof.
  induction segs as [|s rest IH]; intros t sub H; simpl in *; [discriminate|].
  destruct t as [content|es|]; try discriminate.
  destruct (entry s es) as [c|]; [|discriminate].
  destruct rest as [|r rs]; [discriminate|].
  specialize (IH c sub H). now destruct (put (r :: rs) new c).
Qed.

(** An existing regular file can be written again. *)
Lemma store_existing (p content old : string) (fs : node) :
  lookup p fs = Some (File old) ->
  exists fs', store p content fs = (Ok tt, fs').
Proof.
  intros H. unfold store, target. rewrite H. unfold lookup in H.
  destruct (locate p fs) as [names|code]; [|discriminate].
  pose proof (walk_put_exists _ (File content) _ _ H) as Hput.
  destruct (put names (File content) fs) as [fs'|]; [eauto | congruence].
Qed.

Lemma getProp_total (result : json) (key other : string) (v : option json) :
  getProp result key = Ok v -> exists w, getProp result other = Ok w.
Proof. destruct result; simpl; try discriminate; eauto. Qed.

Lemma field_run (rt : Cli.Runtime) (result : json) (key : string)
  (v : option json) (fs : node) :
  getProp result key = Ok v ->
  Cli.field rt result key fs = Outcome (Ok (Cli.template (Cli.numberText rt) v)) fs [].
Proof. intros H. unfold Cli.field, bind, liftResult, ret. now rewrite H. Qed.

(** X25. After a successful download, with [GITHUB_ENV] naming an existing
    file, no [--output-env] and no [GITHUB_OUTPUT], the script ends with
    code 0 and the file holds what it held followed by the line
    [FIREFOX_BINARY=<binaryPath>]: the file is added to, not replaced. *)
Theorem github_env_is_appended (env : Env) (rt : Cli.Runtime) (fs : node)
  (result : json) (binaryPath githubEnv old : string) :
  let args := skipn 2 (Cli.argv rt) in
  let download :=
    downloadFirefox env (nth 0 args EmptyString) (Cli.optionsOf args) fs in
  args <> [] ->
  Cli.helpRequested args = false ->
  Cli.includes "--output-env" args = false ->
  res download = Ok result ->
  getProp result "binaryPath" = Ok (Some (JStr binaryPath)) ->
  Cli.environ rt "GITHUB_ENV" = Some githubEnv ->
  githubEnv <> EmptyString ->
  Cli.truthy (Cli.environ rt "GITHUB_OUTPUT") = None ->
  lookup githubEnv (fs_after download) = Some (File old) ->
  res (Cli.main env rt fs) = Ok (Cli.mkExit 0 (Some binaryPath))
  /\ lookup githubEnv (fs_after (Cli.main env rt fs))
     = Some (File (old ++ "FIREFOX_BINARY=" ++ binaryPath ++ Cli.nl)).
Proof.
  intros args download Hargs Hhelp Hout Hres Hbin Henv Hne Hgo Hold.
  rewrite (main_downloads env rt fs Hargs Hhelp). fold args.
  unfold tryCatch.
  rewrite (bind_ok (fs := fs) _ (eq_refl : emit _ fs = Outcome (Ok tt) fs [_])).
  cbv beta. fold download.
  destruct download as [r fs1 ev1] eqn:Ed. cbn [res fs_after] in *. subst r.
  subst download. rewrite (bind_ok _ Ed). rewrite Hout.
  destruct (getProp_total result _ "version" _ Hbin) as [v Hv].
  destruct (getProp_total result _ "extractPath" _ Hbin) as [x Hx].
  destruct (store_existing githubEnv
              (old ++ "FIREFOX_BINARY=" ++ binaryPath ++ Cli.nl) old fs1 Hold)
    as [fs2 Hstore].
  assert (Htruthy : Cli.truthy (Cli.environ rt "GITHUB_ENV") = Some githubEnv).
  { rewrite Henv. now destruct githubEnv. }
  assert (Hreport : Cli.report rt false result fs1 =
            Outcome (Ok (Cli.mkExit 0 (Some binaryPath))) fs2
              (events (Cli.report rt false result fs1))).
  { unfold Cli.report at 1.
    unfold bind, emit, ret. rewrite (field_run rt result _ _ fs1 Hbin).
    rewrite (field_run rt result _ _ fs1 Hv), (field_run rt result _ _ fs1 Hx).
    rewrite Htruthy, Hgo. unfold Cli.appendFileSync, Cli.appendTo.
    rewrite Hold. cbn [Cli.template Cli.textOf]. rewrite Hstore.
    cbn [res fs_after]. f_equal.
    unfold Cli.report, bind, emit, ret.
    rewrite (field_run rt result _ _ fs1 Hbin).
    rewrite (field_run rt result _ _ fs1 Hv), (field_run rt result _ _ fs1 Hx).
    rewrite Htruthy, Hgo. unfold Cli.appendFileSync, Cli.appendTo.
    rewrite Hold. cbn [Cli.template Cli.textOf]. rewrite Hstore. reflexivity. }
  rewrite Hreport. cbn [res fs_after]. split; [reflexivity|].
  exact (store_lookup _ _ _ _ Hstore).
Qed.

(** * Properties of the check of geckodriver *)

Lemma handle_data (c : Gecko.check) (ev : Gecko.childEvent) :
  Gecko.isData ev = true ->
  Gecko.settled (fst (Gecko.handle c ev)) = Gecko.settled c
  /\ snd (Gecko.handle c ev) = [].
Proof. destruct ev; simpl; try discriminate; auto. Qed.

Lemma handle_failure (c : Gecko.check) (errorCode : option string) (error : exn) :
  Gecko.handle c (Gecko.Failure errorCode error)
  = (Gecko.settle c
       (Throw (if match errorCode with
                  | Some code => String.eqb code "ENOENT"
                  | None => false
                  end
               then Error "geckodriver not found in PATH" else error)), []).
Proof.
  destruct errorCode as [code|]; [|reflexivity].
  destruct (String.eqb code "ENOENT") eqn:E.
  - apply String.eqb_eq in E. now subst code.
  - cbn [Gecko.handle].
    repeat (match goal with
            | |- context [match ?s with EmptyString => _ | String _ _ => _ end] =>
                destruct s
            | |- context [match ?a with Ascii _ _ _ _ _ _ _ _ => _ end] =>
                destruct a
            | |- context [if ?b then _ else _] => destruct b
            end; try reflexivity; try discriminate E).
Qed.

(** An event that is no data settles a promise that is not settled, and
    resolves it only when it is the close with code 0. *)
Lemma handle_settles (c : Gecko.check) (ev : Gecko.childEvent) :
  Gecko.settled c = None -> Gecko.isData ev = false ->
  exists r,
    Gecko.settled (fst (Gecko.handle c ev)) = Some r
    /\ (r = Ok true <-> ev = Gecko.Close (Some 0%N))
    /\ r <> Ok false.
Proof.
  intros Hc Hev. destruct ev as [d|d|exitCode|code err]; try discriminate.
  - destruct exitCode as [[|p]|]; simpl; unfold Gecko.settle; rewrite Hc;
      eexists; (split; [reflexivity|]); split; try discriminate;
      split; intros H; try discriminate H; reflexivity.
  - rewrite handle_failure. cbn [fst]. unfold Gecko.settle. rewrite Hc.
    eexists; (split; [reflexivity|]); split; try discriminate.
    split; intros H; discriminate H.
Qed.

Lemma untilSettled_some (evs : list Gecko.childEvent) :
  forall c r c' rest,
    Gecko.settled c = None ->
    fst (Gecko.untilSettled c evs) = Some (r, c', rest) ->
    exists before ev,
      evs = before ++ ev :: rest
      /\ forallb Gecko.isData before = true
      /\ Gecko.isData ev = false
      /\ (r = Ok true <-> ev = Gecko.Close (Some 0%N))
      /\ r <> Ok false.
Proof.
  induction evs as [|ev evs IH]; intros c r c' rest Hc H; [discriminate|].
  cbn [Gecko.untilSettled] in H.
  destruct (Gecko.isData ev) eqn:Ed.
  - destruct (handle_data c ev Ed) as [Hs _].
    destruct (Gecko.handle c ev) as [c1 printed]. cbn [fst] in Hs.
    rewrite Hs, Hc in H.
    destruct (Gecko.untilSettled c1 evs) as [answer printed'] eqn:Eu.
    cbn [fst] in H. subst answer.
    destruct (IH c1 r c' rest (eq_trans Hs Hc) ltac:(now rewrite Eu))
      as [before [ev' [-> [Hb Hrest]]]].
    exists (ev :: before), ev'. split; [reflexivity|].
    split; [simpl; now rewrite Ed, Hb | exact Hrest].
  - destruct (handle_settles c ev Hc Ed) as [r0 [Hs Hr]].
    destruct (Gecko.handle c ev) as [c1 printed]. cbn [fst] in Hs.
    rewrite Hs in H. cbn [fst] in H. injection H as <- <- <-.
    exists [], ev. split; [reflexivity|]. split; [reflexivity|].
    split; [exact Ed | exact Hr].
Qed.

Lemma untilSettled_skips (before : list Gecko.childEvent) :
  forall c rest,
    Gecko.settled c = None ->
    forallb Gecko.isData before = true ->
    exists c1,
      Gecko.settled c1 = None
      /\ Gecko.untilSettled c (before ++ rest) = Gecko.untilSettled c1 rest.
Proof.
  induction before as [|ev before IH]; intros c rest Hc Hb.
  - exists c. auto.
  - simpl in Hb. apply andb_true_iff in Hb as [Hev Hb].
    destruct (handle_data c ev Hev) as [Hs Hp].
    cbn [app Gecko.untilSettled].
    destruct (Gecko.handle c ev) as [c0 printed]. cbn [fst snd] in Hs, Hp.
    rewrite Hs, Hc. subst printed.
    destruct (IH c0 rest (eq_trans Hs Hc) Hb) as [c1 [Hc1 Heq]].
    exists c1. split; [exact Hc1|]. rewrite Heq.
    now destruct (Gecko.untilSettled c1 rest).
Qed.

(** X26. [ensureGeckodriver] answers true exactly when the first event of the
    child that is no data is its close with exit code 0. *)
Theorem geckodriver_found_iff (evs : list Gecko.childEvent) :
  fst (Gecko.ensureGeckodriver evs) = Some true <->
  exists before after,
    evs = before ++ Gecko.Close (Some 0%N) :: after
    /\ forallb Gecko.isData before = true.
Proof.
  unfold Gecko.ensureGeckodriver. split.
  - destruct (Gecko.untilSettled (Gecko.mkCheck EmptyString None) evs)
      as [[[[r c'] rest]|] printed] eqn:Eu; [|discriminate].
    destruct (untilSettled_some evs (Gecko.mkCheck EmptyString None) r c' rest
              eq_refl ltac:(now rewrite Eu))
      as [before [ev [-> [Hb [_ [Hr _]]]]]].
    destruct r as [[|]|err]; cbn [fst]; try discriminate.
    intros _. exists before, rest. split; [|exact Hb].
    now rewrite (proj1 Hr eq_refl).
  - intros [before [after [-> Hb]]].
    destruct (untilSettled_skips before (Gecko.mkCheck EmptyString None)
                (Gecko.Close (Some 0%N) :: after) eq_refl Hb) as [c1 [Hc1 ->]].
    cbn [Gecko.untilSettled Gecko.handle]. unfold Gecko.settle. rewrite Hc1.
    reflexivity.
Qed.

(** X27. [ensureGeckodriver] never answers false in silence: the failure is
    printed on the error stream, followed by the four lines of advice. *)
Theorem failed_check_is_explained (evs : list Gecko.childEvent) :
  fst (Gecko.ensureGeckodriver evs) = Some false ->
  (exists reason,
     In (EWarn (Cli.crossMark ++ " geckodriver check failed: " ++ reason))
        (snd (Gecko.ensureGeckodriver evs)))
  /\ incl Gecko.guidance (snd (Gecko.ensureGeckodriver evs)).
Proof.
  unfold Gecko.ensureGeckodriver.
  destruct (Gecko.untilSettled (Gecko.mkCheck EmptyString None) evs)
    as [[[[r c'] rest]|] printed] eqn:Eu; [|discriminate].
  destruct (untilSettled_some evs (Gecko.mkCheck EmptyString None) r c' rest
              eq_refl ltac:(now rewrite Eu))
    as [before [ev [_ [_ [_ [_ Hr]]]]]].
  destruct r as [[|]|err]; cbn [fst snd]; try discriminate; [congruence|].
  intros _. split.
  - exists (message err). apply in_or_app. right. apply in_or_app. right.
    now left.
  - intros g Hg. rewrite !in_app_iff. right. right. right. now left.
Qed.

(** X28. When the command cannot be started because it is not found, the
    answer is false and the reason printed is that geckodriver is not in
    the PATH, whatever the error said. *)
Theorem missing_geckodriver_is_named (before after : list Gecko.childEvent)
  (error : exn) :
  forallb Gecko.isData before = true ->
  let run :=
    Gecko.ensureGeckodriver (before ++ Gecko.Failure (Some "ENOENT") error :: after) in
  fst run = Some false
  /\ In (EWarn (Cli.crossMark
                ++ " geckodriver check failed: geckodriver not found in PATH"))
        (snd run).
Proof.
  intros Hb run. subst run. unfold Gecko.ensureGeckodriver.
  destruct (untilSettled_skips before (Gecko.mkCheck EmptyString None)
              (Gecko.Failure (Some "ENOENT") error :: after) eq_refl Hb)
    as [c1 [Hc1 ->]].
  cbn [Gecko.untilSettled]. rewrite handle_failure.
  unfold Gecko.settle. rewrite Hc1. cbn [Gecko.settled String.eqb].
  cbn [fst snd]. split; [reflexivity|].
  apply in_or_app. right. apply in_or_app. right. now left.
Qed.

(** ** The properties at sample runs *)

Lemma forced_download_ignores_cache_witness :
  forceDownloadOf Demo.forced = true
  /\ present (cacheDirOf (Demo.env linux) Demo.forced) Sample.warmDisk = true
  /\ downloadFirefox (Demo.env linux) Sample.url Demo.forced Sample.warmDisk
     = freshDownload (Demo.env linux) Sample.url Demo.forced Sample.warmDisk.
Proof.
  split; [reflexivity|]. split; [reflexivity|].
  apply (forced_download_ignores_cache (Demo.env linux) Sample.url Demo.forced
           Sample.warmDisk); reflexivity.
Defined.

Lemma unparsable_cache_warns_and_downloads_witness :
  lookup (cacheFileOf (Demo.env linux) Sample.url Sample.defaults) Demo.brokenDisk
    = Some (File "<html>")
  /\ events (downloadFirefox (Demo.env linux) Sample.url Sample.defaults Demo.brokenDisk)
     = EWarn "Failed to read cache file, re-downloading... Unexpected token in JSON"
       :: events (freshDownload (Demo.env linux) Sample.url Sample.defaults
                    Demo.brokenDisk).
Proof.
  split; [reflexivity|].
  rewrite (unparsable_cache_warns_and_downloads (Demo.env linux) Sample.url
             Sample.defaults Demo.brokenDisk "<html>"
             (Error "Unexpected token in JSON")); reflexivity.
Defined.

Lemma entry_without_binary_path_is_a_miss_witness :
  JSON_parse (Demo.env linux) "{}" = Ok (JObj [])
  /\ downloadFirefox (Demo.env linux) Sample.url Sample.defaults Demo.blankDisk
     = freshDownload (Demo.env linux) Sample.url Sample.defaults Demo.blankDisk.
Proof.
  split; [reflexivity|].
  apply (entry_without_binary_path_is_a_miss (Demo.env linux) Sample.url
           Sample.defaults Demo.blankDisk "{}" (JObj []) None); reflexivity.
Defined.

Lemma fresh_download_result_witness :
  let env := Demo.env linux in
  let run := freshDownload env Sample.url Sample.defaults Demo.coldDisk in
  let extracted := fs_after (fetchAndExtract env Sample.url Sample.defaults Demo.coldDisk) in
  res run = Ok Sample.record
  /\ exists binaryPath,
       fst (findIn linux Sample.extractDir
              (extractionTree Sample.extractDir extracted)) = Some binaryPath
       /\ Sample.record
          = resultRecord binaryPath
              (versionRead (fst (exec env (versionCommand binaryPath) extracted)))
              Sample.extractDir
       /\ lookup (cacheFileOf env Sample.url Sample.defaults) (fs_after run)
          = Some (File (Sample.render Sample.record)).
Proof.
  intros env run extracted. split; [reflexivity|].
  destruct (fresh_download_result env Sample.url Sample.defaults Demo.coldDisk
              Sample.record eq_refl) as [p [_ [Hfound [Hrecord [_ Hfile]]]]].
  exists p. split; [exact Hfound|]. split; [exact Hrecord | exact Hfile].
Defined.

Lemma failed_probe_gives_unknown_witness :
  exec (Sample.env linux Sample.found200) (versionCommand Sample.binaryPath)
       Sample.warmDisk
    = (Throw (Error "Command failed"), Sample.warmDisk)
  /\ res (locateAndRecord (Sample.env linux Sample.found200) Sample.extractDir
            (Js.join "/tmp/firefox-downloads" "status.json") Sample.warmDisk)
     = Ok (resultRecord Sample.binaryPath "unknown" Sample.extractDir)
  /\ In (EWarn "Could not determine Firefox version: Command failed")
        (events (locateAndRecord (Sample.env linux Sample.found200) Sample.extractDir
                   (Js.join "/tmp/firefox-downloads" "status.json") Sample.warmDisk)).
Proof.
  split; [reflexivity|].
  pose proof (failed_probe_gives_unknown (Sample.env linux Sample.found200)
                Sample.extractDir (Js.join "/tmp/firefox-downloads" "status.json")
                Sample.binaryPath Sample.warmDisk Sample.warmDisk
                (snd (store (Js.join "/tmp/firefox-downloads" "status.json")
                        (Sample.render
                           (resultRecord Sample.binaryPath "unknown" Sample.extractDir))
                        Sample.warmDisk))
                (Error "Command failed") eq_refl eq_refl eq_refl) as [Hres [_ Hin]].
  split; [exact Hres | exact Hin].
Defined.

Lemma second_run_hits_cache_witness :
  res (freshDownload (Demo.env linux) Sample.url Sample.defaults Demo.coldDisk)
    = Ok Sample.record
  /\ exists binaryPath version,
       Sample.record
       = resultRecord binaryPath version
           (extractDirOf (Demo.env linux) Sample.url Sample.defaults)
       /\ (present binaryPath
             (fs_after (freshDownload (Demo.env linux) Sample.url Sample.defaults
                          Demo.coldDisk)) = true ->
           downloadFirefox (Demo.env linux) Sample.url Sample.defaults
             (fs_after (freshDownload (Demo.env linux) Sample.url Sample.defaults
                          Demo.coldDisk))
           = Outcome (Ok Sample.record)
               (fs_after (freshDownload (Demo.env linux) Sample.url Sample.defaults
                            Demo.coldDisk))
               [ELog ("Using cached Firefox binary from: " ++ binaryPath)]).
Proof.
  split; [reflexivity|].
  apply (second_run_hits_cache (Demo.env linux) Sample.url Sample.defaults
           Demo.coldDisk Sample.record); reflexivity.
Defined.

Lemma fresh_download_errors_witness :
  let env := Sample.env linux Sample.notFound404 in
  let e := Error ("Failed to download Firefox from " ++ Sample.url
                  ++ ": Failed to download Firefox: 404 Not Found") in
  res (freshDownload env Sample.url Sample.defaults Sample.emptyDisk) = Throw e
  /\ (downloadFailure Sample.url e
      \/ extractionFailure e
      \/ binaryNotFound (extractDirOf env Sample.url Sample.defaults) e
      \/ (exists fs',
            res (mkdirSync (extractDirOf env Sample.url Sample.defaults) fs') = Throw e)
      \/ (exists content fs',
            fst (store (cacheFileOf env Sample.url Sample.defaults) content fs')
            = Throw e)).
Proof.
  split; [reflexivity|].
  apply (fresh_download_errors (Sample.env linux Sample.notFound404) Sample.url
           Sample.defaults Sample.emptyDisk).
  reflexivity.
Defined.

Lemma empty_archive_name_fails_witness :
  archiveName Demo.queryUrl = EmptyString
  /\ (exists e,
        res (freshDownload (Demo.env linux) Demo.queryUrl Sample.defaults Demo.coldDisk)
        = Throw e
        /\ downloadFailure Demo.queryUrl e)
  /\ fs_after (freshDownload (Demo.env linux) Demo.queryUrl Sample.defaults
                 Demo.coldDisk) = Demo.coldDisk.
Proof.
  split; [reflexivity|].
  apply (empty_archive_name_fails (Demo.env linux) Demo.queryUrl Sample.defaults
           Demo.coldDisk [] Sample.found200); reflexivity.
Defined.

Lemma no_binary_on_other_platforms_witness :
  let env := Sample.env (otherPlatform "win32") Sample.found200 in
  (forall dir here, fst (findIn (platform env) dir here) = None)
  /\ exists e,
       res (freshDownload env Sample.url Sample.defaults Demo.coldDisk) = Throw e.
Proof.
  apply (no_binary_on_other_platforms
           (Sample.env (otherPlatform "win32") Sample.found200) Sample.url
           Sample.defaults Demo.coldDisk "win32").
  reflexivity.
Defined.

Lemma located_binary_exists_witness :
  fst (findIn linux Sample.extractDir Sample.browserTree) = Some Sample.binaryPath
  /\ present Sample.binaryPath Sample.warmDisk = true.
Proof.
  split; [reflexivity|].
  apply (located_binary_exists linux Sample.extractDir Sample.warmDisk
           Sample.browserTree Sample.binaryPath); reflexivity.
Defined.

Lemma linux_falls_back_to_firefox_bin_witness :
  fst (findIn linux "/opt/browser" Demo.onlyBinTree)
  = Some "/opt/browser/firefox/firefox-bin".
Proof.
  apply (linux_falls_back_to_firefox_bin "/opt/browser" Demo.onlyBinTree);
    reflexivity.
Defined.

Lemma darwin_known_executable_witness :
  fst (findIn darwin "/x" (Dir Demo.nightlyTree))
  = Some "/x/Firefox Nightly.app/Contents/MacOS/firefox".
Proof.
  apply (darwin_known_executable "/x" Demo.nightlyTree []
           ("Firefox Nightly.app",
            Dir [("Contents",
                  Dir [("MacOS",
                        Dir [("firefox-bin", File "bin"); ("firefox", File "bin")])])])
           (Dir [("firefox-bin", File "bin"); ("firefox", File "bin")])
           "firefox"); reflexivity.
Defined.

Lemma darwin_first_regular_file_witness :
  fst (findIn darwin "/x" (Dir Demo.customTree))
  = Some "/x/Custom.app/Contents/MacOS/launcher".
Proof.
  apply (darwin_first_regular_file "/x" Demo.customTree []
           [("Frameworks", Dir []); ("launcher", File "bin")]
           ("Custom.app",
            Dir [("Contents",
                  Dir [("MacOS",
                        Dir [("Frameworks", Dir []); ("launcher", File "bin")])])])
           ("launcher", File "bin")); reflexivity.
Defined.

Lemma unparsable_mount_output_witness :
  matchVolumes "hdiutil: attach done" = None
  /\ res (extractDmg (Demo.envWith darwin Demo.silentMount)
            "/tmp/firefox-downloads/Firefox.dmg" Sample.extractDir Demo.coldDisk)
     = Throw (Error "Could not determine DMG mount point").
Proof.
  split; [reflexivity|].
  rewrite (unparsable_mount_output (Demo.envWith darwin Demo.silentMount)
             "/tmp/firefox-downloads/Firefox.dmg" Sample.extractDir Demo.coldDisk
             Demo.coldDisk "hdiutil: attach done"); reflexivity.
Defined.


Lemma dmg_is_mounted_on_every_platform_witness :
  extractArchive (Sample.env linux Sample.found200)
    "/tmp/firefox-downloads/target.dmg" Sample.extractDir Demo.coldDisk
  = Outcome (Throw (Error "Failed to extract Firefox archive: Command failed"))
      Demo.coldDisk
      [ELog "Mounting DMG...";
       EExec (attachCommand "/tmp/firefox-downloads/target.dmg")].
Proof.
  apply (dmg_is_mounted_on_every_platform (Sample.env linux Sample.found200)
           "/tmp/firefox-downloads/target.dmg" Sample.extractDir Demo.coldDisk
           Demo.coldDisk (Error "Command failed")); reflexivity.
Defined.

Lemma mount_point_shape_witness :
  matchVolumes Sample.attachOutput = Some "/Volumes/Firefox Nightly"
  /\ exists (before : string) (line after : list string),
       Sample.attachOutput = (before ++ "/Volumes/" ++ Js.text (line ++ after))%string
       /\ Js.chars (Js.text (line ++ after)) = line ++ after
       /\ "/Volumes/Firefox Nightly" = ("/Volumes/" ++ Js.text line)%string
       /\ line <> []
       /\ forallb (fun c => negb (Js.isLineEnd c)) line = true
       /\ stopsAt (fun c => negb (Js.isLineEnd c)) after.
Proof.
  split; [reflexivity|].
  apply (mount_point_shape Sample.attachOutput "/Volumes/Firefox Nightly").
  reflexivity.
Defined.

Lemma version_token_shape_witness :
  matchVersion Demo.brokenSpaceOutput = Some "147.0"
  /\ exists (before : string) (spaces token after : list string),
       Demo.brokenSpaceOutput
       = (before ++ "Firefox" ++ Js.text (spaces ++ token ++ after))%string
       /\ Js.chars (Js.text (spaces ++ token ++ after)) = spaces ++ token ++ after
       /\ "147.0" = Js.text token
       /\ spaces <> []
       /\ forallb Js.isSpace spaces = true
       /\ token <> []
       /\ forallb (fun c => negb (Js.isSpace c)) token = true
       /\ stopsAt (fun c => negb (Js.isSpace c)) after.
Proof.
  split; [reflexivity|].
  apply (version_token_shape Demo.brokenSpaceOutput "147.0").
  reflexivity.
Defined.

Lemma standard_version_output_witness :
  matchVersion ("Mozilla Firefox " ++ "147.0a1" ++ Demo.lineSeparator ++ "build")
  = Some "147.0a1".
Proof.
  apply (standard_version_output "147.0a1" (Demo.lineSeparator ++ "build")).
  - intros H; discriminate H.
  - reflexivity.
  - reflexivity.
  - right. exists Demo.lineSeparator, (Js.chars "build"). split; reflexivity.
Defined.

Lemma usage_and_exit_code_witness :
  Cli.main (Demo.env linux) (Demo.runtime [Sample.url; "--help"] None) Demo.coldDisk
  = Outcome (Ok (Cli.mkExit 0 None)) Demo.coldDisk [ELog Cli.usage]
  /\ Cli.main (Demo.env linux) (Demo.runtime [] None) Demo.coldDisk
     = Outcome (Ok (Cli.mkExit 1 None)) Demo.coldDisk [ELog Cli.usage].
Proof.
  split.
  - apply (usage_and_exit_code (Demo.env linux)
             (Demo.runtime [Sample.url; "--help"] None) Demo.coldDisk).
    right. exists [Sample.url], "--help", []. split; [reflexivity | now left].
  - apply (usage_and_exit_code (Demo.env linux) (Demo.runtime [] None) Demo.coldDisk).
    now left.
Defined.

Lemma cache_dir_option_is_used_witness :
  cacheDirOf (Demo.env linux)
    (Cli.optionsOf ([Sample.url] ++ "--cache-dir" :: "/var/cache/firefox" :: ["--force"]))
  = "/var/cache/firefox".
Proof.
  apply (cache_dir_option_is_used (Demo.env linux) [Sample.url] ["--force"]
           "/var/cache/firefox").
  - reflexivity.
  - intros H; discriminate H.
Defined.

Lemma cache_dir_without_value_is_ignored_witness :
  cacheDirOf (Demo.env linux) (Cli.optionsOf ([Sample.url] ++ ["--cache-dir"]))
    = "/tmp/firefox-downloads"
  /\ cacheDirOf (Demo.env linux)
       (Cli.optionsOf ([Sample.url] ++ "--cache-dir" :: EmptyString :: ["--force"]))
     = "/tmp/firefox-downloads".
Proof.
  apply (cache_dir_without_value_is_ignored (Demo.env linux) [Sample.url] ["--force"]).
  reflexivity.
Defined.

Lemma failed_download_exits_one_witness :
  res (Cli.main (Sample.env linux Sample.notFound404)
         (Demo.runtime [Sample.url] None) Sample.emptyDisk)
  = Ok (Cli.mkExit 1 None).
Proof.
  rewrite (failed_download_exits_one (Sample.env linux Sample.notFound404)
             (Demo.runtime [Sample.url] None) Sample.emptyDisk
             (Error ("Failed to download Firefox from " ++ Sample.url
                     ++ ": Failed to download Firefox: 404 Not Found"))).
  - reflexivity.
  - intros H; discriminate H.
  - reflexivity.
  - reflexivity.
Defined.

Lemma github_env_is_appended_witness :
  let run := Cli.main (Demo.env linux)
               (Demo.runtime [Sample.url] (Some "/github/env")) Demo.ciDisk in
  res run = Ok (Cli.mkExit 0 (Some Sample.binaryPath))
  /\ lookup "/github/env" (fs_after run)
     = Some (File ("CI=true" ++ Cli.nl ++ "FIREFOX_BINARY=" ++ Sample.binaryPath
                   ++ Cli.nl)).
Proof.
  apply (github_env_is_appended (Demo.env linux)
           (Demo.runtime [Sample.url] (Some "/github/env")) Demo.ciDisk
           Sample.record Sample.binaryPath "/github/env" ("CI=true" ++ Cli.nl));
    try reflexivity; intros H; discriminate H.
Defined.

Lemma failed_check_is_explained_witness :
  let run := Gecko.ensureGeckodriver
               [Gecko.Stderr "usage error"; Gecko.Close (Some 1%N)] in
  (exists reason,
     In (EWarn (Cli.crossMark ++ " geckodriver check failed: " ++ reason)) (snd run))
  /\ incl Gecko.guidance (snd run).
Proof.
  apply (failed_check_is_explained
           [Gecko.Stderr "usage error"; Gecko.Close (Some 1%N)]).
  reflexivity.
Defined.

Lemma missing_geckodriver_is_named_witness :
  let run := Gecko.ensureGeckodriver
               ([Gecko.Stdout "starting"]
                ++ Gecko.Failure (Some "ENOENT") (Error "spawn geckodriver ENOENT")
                   :: [Gecko.Close (Some 2%N)]) in
  fst run = Some false
  /\ In (EWarn (Cli.crossMark
                ++ " geckodriver check failed: geckodriver not found in PATH"))
        (snd run).
Proof.
  apply (missing_geckodriver_is_named [Gecko.Stdout "starting"]
           [Gecko.Close (Some 2%N)] (Error "spawn geckodriver ENOENT")).
  reflexivity.
Defined.
